(** * DAT AI agent: usage metering and access control

    A shallow embedding of the access-control core of the repository:
    - [SecurityManager] of src/lib/security.ts: [checkRateLimit], the set of
      flagged addresses and [isValidAddress],
    - the class [AIAgent], imported by the page as [@/lib/ai-agent]:
      [verifyAccess], [processQuery], [validateQuery], [calculateUsageCost],
      [generateVerificationProof], [verifyResponse] and what they call,
    - the Solidity contract [DataAnchoringToken]: [createSubscriptionTier],
      [mintDAT], [hasValidSubscription], [consumeUsage],
      [getUserSubscription],
    - of the class [WalletManager]: the listeners, [handleChainChanged],
      [isValidNetwork] and [getCurrentNetwork],
    - of the class [BillingManager]: [getUsageEvents], [getUserUsageEvents]
      and [clearCache].

    Conventions of the embedding.
    - A JS string is a Rocq [string] of 8-bit characters read as ASCII text:
      [length], [toLowerCase], [trim], [includes] and [replace] agree with JS
      on the texts of [JsString.isAscii], and on those only.
    - The binding of the contract is part of the ledger: [getUserSubscription]
      and [consumeUsage] throw for a text the binding does not read as an
      address, and [toNumber] throws for a value the binding does not
      convert (with ethers 5 a value above 2^53 - 1, with the [bigint] of
      ethers 6 every value).
    - A JS number that holds a count, a quota or a time in milliseconds is a
      [Z]; the two products with a fractional factor in [calculateUsageCost]
      are computed on binary64 floats.
    - [Date.now()] reads a clock oracle carried by the world: every call
      consumes one reading, so nothing is assumed on how time passes between
      two readings.
    - An [await]ed call is run to completion; an exception is a [None]. *)

From Stdlib Require Import ZArith List String Ascii Bool Lia Zify ZifyNat.
From Stdlib Require Import DecimalString DecimalZ DecimalPos DecimalFacts.
From Stdlib Require HexadecimalString HexadecimalZ.
From Stdlib Require Import Floats.
From stdpp Require Import gmap strings.

Local Open Scope string_scope.
Local Open Scope Z_scope.

(** ** JS string primitives *)

Module JsString.

(** [c.toLowerCase()] on one ASCII character. *)
Definition lowerChar (c : ascii) : ascii :=
  let n := nat_of_ascii c in
  if Nat.leb 65 n && Nat.leb n 90 then ascii_of_nat (n + 32) else c.

(** [s.toLowerCase()] *)
Fixpoint toLowerCase (s : string) : string :=
  match s with
  | EmptyString => EmptyString
  | String c r => String (lowerChar c) (toLowerCase r)
  end.

(** [s.length] *)
Definition length (s : string) : Z := Z.of_nat (String.length s).

(** [s.startsWith(p)] *)
Fixpoint startsWith (p s : string) : bool :=
  match p, s with
  | EmptyString, _ => true
  | String _ _, EmptyString => false
  | String a p', String b s' => Ascii.eqb a b && startsWith p' s'
  end.

(** [s.includes(p)] *)
Fixpoint includes (s p : string) : bool :=
  startsWith p s ||
  match s with
  | EmptyString => false
  | String _ r => includes r p
  end.

(** White space of [String.prototype.trim] within ASCII:
    TAB, LF, VT, FF, CR and SPACE. *)
Definition isWhiteSpace (c : ascii) : bool :=
  let n := nat_of_ascii c in
  (Nat.leb 9 n && Nat.leb n 13) || Nat.eqb n 32.

Fixpoint trimStart (s : string) : string :=
  match s with
  | EmptyString => EmptyString
  | String c r => if isWhiteSpace c then trimStart r else s
  end.

(** Drops the white space at the end: a character is kept when something
    is kept after it or when it is not white space itself. *)
Fixpoint trimEnd (s : string) : string :=
  match s with
  | EmptyString => EmptyString
  | String c r =>
      match trimEnd r with
      | EmptyString => if isWhiteSpace c then EmptyString else String c EmptyString
      | r' => String c r'
      end
  end.

(** [s.trim()] *)
Definition trim (s : string) : string := trimEnd (trimStart s).

(** Truthiness of a string: [!s] holds for the empty string only. *)
Definition isEmpty (s : string) : bool :=
  match s with EmptyString => true | _ => false end.

Fixpoint drop (n : nat) (s : string) : string :=
  match n, s with
  | O, _ => s
  | S _, EmptyString => EmptyString
  | S n', String _ r => drop n' r
  end.

(** [s.replace(p, r)] with a string pattern: the first occurrence only. *)
Fixpoint replace (p r s : string) : string :=
  if startsWith p s then r ++ drop (String.length p) s
  else match s with
       | EmptyString => EmptyString
       | String c s' => String c (replace p r s')
       end.

(** [n.toString()] for an integer: decimal digits, with a sign when
    negative. *)
Definition numberToString (n : Z) : string :=
  DecimalString.NilZero.string_of_int (Z.to_int n).

(** A text made of white space only (the empty text included). *)
Fixpoint allWhiteSpace (s : string) : bool :=
  match s with
  | EmptyString => true
  | String c r => isWhiteSpace c && allWhiteSpace r
  end.

(** A text of ASCII characters (codes below 128): on such a text the
    functions above are those of JS, which works on UTF-16 code units and
    maps the case of every letter of Unicode. *)
Fixpoint isAscii (s : string) : bool :=
  match s with
  | EmptyString => true
  | String c r => Nat.ltb (nat_of_ascii c) 128 && isAscii r
  end.

End JsString.

(** ** src/lib/security.ts: the rate limiter *)

Module SecurityManager.

(** An entry of [rateLimitMap]. *)
Record RateEntry := { count : Z; resetTime : Z }.

(** The object returned by [checkRateLimit]. *)
Record RateResult := { allowed : bool; remaining : Z; resetAt : Z }.

(** [checkRateLimit(userAddress, maxRequests, windowMs)]; [now] is the one
    reading of [Date.now()] the method takes. [current.count++] mutates the
    entry held by the map, which is an update of the map at [key]. *)
Definition checkRateLimit (now : Z) (userAddress : string)
    (maxRequests windowMs : Z) (rateLimitMap : gmap string RateEntry)
    : RateResult * gmap string RateEntry :=
  let key := JsString.toLowerCase userAddress in
  let fresh :=
    ({| allowed := true; remaining := maxRequests - 1; resetAt := now + windowMs |},
     <[key := {| count := 1; resetTime := now + windowMs |}]> rateLimitMap) in
  match rateLimitMap !! key with
  | None => fresh
  | Some current =>
      if now >? resetTime current then fresh
      else if count current >=? maxRequests then
        ({| allowed := false; remaining := 0; resetAt := resetTime current |},
         rateLimitMap)
      else
        let count' := count current + 1 in
        ({| allowed := true; remaining := maxRequests - count';
            resetAt := resetTime current |},
         <[key := {| count := count'; resetTime := resetTime current |}]> rateLimitMap)
  end.

(** The address has a window that is not over at [now]: the negation of the
    test [!current || now > current.resetTime]. *)
Definition windowOpen (now : Z) (userAddress : string)
    (rateLimitMap : gmap string RateEntry) : bool :=
  match rateLimitMap !! JsString.toLowerCase userAddress with
  | Some current => negb (now >? resetTime current)
  | None => false
  end.

(** The defaults of the signature: [maxRequests = 10], [windowMs = 60000]. *)
Definition checkRateLimitDefault (now : Z) (userAddress : string) :=
  checkRateLimit now userAddress 10 60000.

(** A run of checks for one address under one configuration, one clock
    reading per check, with the answers in order. *)
Fixpoint checkAll (userAddress : string) (maxRequests windowMs : Z)
    (times : list Z) (m : gmap string RateEntry)
    : list bool * gmap string RateEntry :=
  match times with
  | [] => ([], m)
  | now :: rest =>
      let '(r, m1) := checkRateLimit now userAddress maxRequests windowMs m in
      let '(rs, m2) := checkAll userAddress maxRequests windowMs rest m1 in
      (allowed r :: rs, m2)
  end.

(** [flagSuspiciousAddress(address, reason)]: the address joins the set in
    lower case; the line written to the console is left out. *)
Definition flagSuspiciousAddress (address reason : string)
    (suspiciousAddresses : gset string) : gset string :=
  {[ JsString.toLowerCase address ]} ∪ suspiciousAddresses.

(** [isSuspiciousAddress(address)] *)
Definition isSuspiciousAddress (address : string)
    (suspiciousAddresses : gset string) : bool :=
  bool_decide (JsString.toLowerCase address ∈ suspiciousAddresses).

(** The counts of a map lie between one and [maxRequests]. *)
Definition countsWithin (maxRequests : Z) (m : gmap string RateEntry) : Prop :=
  forall k e, m !! k = Some e -> 1 <= count e <= maxRequests.

(** A character of the class [[a-fA-F0-9]]. *)
Definition isHexDigit (c : ascii) : bool :=
  let n := nat_of_ascii c in
  (Nat.leb 48 n && Nat.leb n 57) || (Nat.leb 97 n && Nat.leb n 102)
  || (Nat.leb 65 n && Nat.leb n 70).

(** Exactly [n] characters of the class, then the end of the text. *)
Fixpoint hexDigits (n : nat) (s : string) : bool :=
  match n, s with
  | O, EmptyString => true
  | S k, String c r => isHexDigit c && hexDigits k r
  | _, _ => false
  end.

(** [isValidAddress(address)]: the test of [/^0x[a-fA-F0-9]{40}$/]. *)
Definition isValidAddress (address : string) : bool :=
  JsString.startsWith "0x" address && hexDigits 40 (JsString.drop 2 address).

End SecurityManager.

(** ** JS numbers that hold an integer *)

Module JsNumber.

(** The values a chain id takes: [NaN], the infinities, and the integers that
    a binary64 float holds ([-0] is not told from [0]: it prints, compares
    and tests as [0]). *)
Inductive number :=
| NaN
| Infinity (negative : bool)
| Int (z : Z).

(** The binary64 float nearest to a positive integer, ties to even: the
    integer itself up to 53 bits, else its 53 leading bits, rounded. *)
Definition roundPos (z : Z) : Z :=
  let bits := Z.log2 z + 1 in
  if bits <=? 53 then z
  else
    let e := bits - 53 in
    let q := Z.shiftr z e in
    let r := Z.land z (Z.ones e) in
    let half := Z.shiftl 1 (e - 1) in
    let q := if (half <? r) || ((r =? half) && Z.odd q) then q + 1 else q in
    Z.shiftl q e.

(** The number value of a mathematical integer. *)
Definition ofInteger (z : Z) : number :=
  if z =? 0 then Int 0
  else
    let m := roundPos (Z.abs z) in
    if 2 ^ 1024 <=? m then Infinity (z <? 0) else Int (Z.sgn z * m).

(** The value of a digit in radix 16, in either case. *)
Definition hexValue (c : ascii) : option Z :=
  let n := nat_of_ascii c in
  if Nat.leb 48 n && Nat.leb n 57 then Some (Z.of_nat n - 48)
  else if Nat.leb 97 n && Nat.leb n 102 then Some (Z.of_nat n - 87)
  else if Nat.leb 65 n && Nat.leb n 70 then Some (Z.of_nat n - 55)
  else None.

(** The value of the longest prefix of digits; [None] when it is empty. *)
Fixpoint digits (acc : Z) (seen : bool) (s : string) : option Z :=
  match s with
  | String c r =>
      match hexValue c with
      | Some d => digits (16 * acc + d) true r
      | None => if seen then Some acc else None
      end
  | EmptyString => if seen then Some acc else None
  end.

(** [Number.parseInt(s, 16)]: white space, a sign, [0x] or [0X], then the
    digits up to the first character that is not one. *)
Definition parseInt16 (s : string) : number :=
  let s := JsString.trimStart s in
  let '(negative, s) :=
    match s with
    | String "-" r => (true, r)
    | String "+" r => (false, r)
    | _ => (false, s)
    end in
  let s := if JsString.startsWith "0x" s || JsString.startsWith "0X" s
           then JsString.drop 2 s else s in
  match digits 0 false s with
  | None => NaN
  | Some mathInt => ofInteger (if negative then - mathInt else mathInt)
  end.

(** [n.toString(16)] *)
Definition toString16 (n : number) : string :=
  match n with
  | NaN => "NaN"
  | Infinity false => "Infinity"
  | Infinity true => "-Infinity"
  | Int z => HexadecimalString.NilZero.string_of_int (Z.to_hex_int z)
  end.

(** [!n] *)
Definition falsy (n : number) : bool :=
  match n with
  | NaN => true
  | Int z => z =? 0
  | Infinity _ => false
  end.

(** The comparison of [Array.prototype.includes], under which [NaN] is
    itself. *)
Definition sameValueZero (a b : number) : bool :=
  match a, b with
  | NaN, NaN => true
  | Infinity s, Infinity s' => Bool.eqb s s'
  | Int x, Int y => x =? y
  | _, _ => false
  end.

End JsNumber.

(** ** The class [WalletManager]: the listeners and the networks *)

Module WalletManager.

Import JsNumber.

Inductive WalletProvider := metamask | walletconnect | coinbase | injected.

Record WalletState := {
  isConnected : bool;
  address : option string;
  balance : string;
  chainId : option number;
  provider : option WalletProvider;
  isConnecting : bool;
  error : option string
}.

Record NativeCurrency := {
  currencyName : string;
  symbol : string;
  decimals : Z
}.

Record NetworkConfig := {
  net_chainId : string;
  chainName : string;
  nativeCurrency : NativeCurrency;
  rpcUrls : list string;
  blockExplorerUrls : list string
}.

(** The three entries of [SUPPORTED_NETWORKS]. *)
Definition ethereum : NetworkConfig :=
  {| net_chainId := "0x1"; chainName := "Ethereum Mainnet";
     nativeCurrency := {| currencyName := "Ethereum"; symbol := "ETH"; decimals := 18 |};
     rpcUrls := ["https://mainnet.infura.io/v3/"];
     blockExplorerUrls := ["https://etherscan.io"] |}.

Definition sepolia : NetworkConfig :=
  {| net_chainId := "0xaa36a7"; chainName := "Sepolia Testnet";
     nativeCurrency := {| currencyName := "Ethereum"; symbol := "ETH"; decimals := 18 |};
     rpcUrls := ["https://sepolia.infura.io/v3/"];
     blockExplorerUrls := ["https://sepolia.etherscan.io"] |}.

Definition polygon : NetworkConfig :=
  {| net_chainId := "0x89"; chainName := "Polygon Mainnet";
     nativeCurrency := {| currencyName := "MATIC"; symbol := "MATIC"; decimals := 18 |};
     rpcUrls := ["https://polygon-rpc.com/"];
     blockExplorerUrls := ["https://polygonscan.com"] |}.

(** [SUPPORTED_NETWORKS], in the order of its keys. *)
Definition SUPPORTED_NETWORKS : list (string * NetworkConfig) :=
  [("ethereum", ethereum); ("sepolia", sepolia); ("polygon", polygon)].

(** [Object.values(SUPPORTED_NETWORKS)] *)
Definition networks : list NetworkConfig := List.map snd SUPPORTED_NETWORKS.

(** What a listener is called with. *)
Inductive Payload :=
| StateData (s : WalletState)
| NumberData (n : number)
| NoData.

(** The manager: a listener is a function object, told from the others by
    its identity, a number here; [calls] records the calls made on the
    listeners, in order, in place of running them. *)
Record Manager := {
  listeners : gmap string (list nat);
  state : WalletState;
  calls : list (nat * Payload)
}.

(** [this.listeners.get(event) || []] *)
Definition registered (event : string) (m : Manager) : list nat :=
  default [] (listeners m !! event).

(** [emit(event, data)] *)
Definition emit (event : string) (data : Payload) (m : Manager) : Manager :=
  {| listeners := listeners m; state := state m;
     calls := (calls m ++ List.map (fun listener => (listener, data)) (registered event m))%list |}.

(** [on(event, listener)] *)
Definition on (event : string) (listener : nat) (m : Manager) : Manager :=
  {| listeners := <[event := (registered event m ++ [listener])%list]> (listeners m);
     state := state m; calls := calls m |}.

(** [eventListeners.splice(eventListeners.indexOf(listener), 1)] when the
    listener is found: the first occurrence goes. *)
Fixpoint removeFirst (listener : nat) (eventListeners : list nat) : list nat :=
  match eventListeners with
  | [] => []
  | l :: rest => if Nat.eqb l listener then rest else l :: removeFirst listener rest
  end.

(** [off(event, listener)]: the array of the event is changed in place; for
    an event without an array nothing is stored. *)
Definition off (event : string) (listener : nat) (m : Manager) : Manager :=
  match listeners m !! event with
  | Some eventListeners =>
      {| listeners := <[event := removeFirst listener eventListeners]> (listeners m);
         state := state m; calls := calls m |}
  | None => m
  end.

(** [updateState(updates)], over the state the updates give. *)
Definition updateState (updates : WalletState -> WalletState) (m : Manager) : Manager :=
  let m := {| listeners := listeners m; state := updates (state m); calls := calls m |} in
  emit "stateChanged" (StateData (state m)) m.

(** [handleChainChanged(chainId)] *)
Definition handleChainChanged (chainId : string) (m : Manager) : Manager :=
  let numericChainId := parseInt16 chainId in
  let m :=
    updateState (fun s =>
                   {| isConnected := isConnected s; address := address s;
                      balance := balance s; chainId := Some numericChainId;
                      provider := provider s; isConnecting := isConnecting s;
                      error := error s |}) m in
  emit "chainChanged" (NumberData numericChainId) m.

(** [isValidNetwork(chainId)] *)
Definition isValidNetwork (chainId : number) : bool :=
  let supportedChainIds := List.map (fun network => parseInt16 (net_chainId network)) networks in
  existsb (sameValueZero chainId) supportedChainIds.

(** [getCurrentNetwork()] *)
Definition getCurrentNetwork (m : Manager) : option NetworkConfig :=
  match chainId (state m) with
  | None => None
  | Some n =>
      if falsy n then None
      else
        let hexChainId := "0x" ++ toString16 n in
        List.find (fun network => String.eqb (net_chainId network) hexChainId) networks
  end.

End WalletManager.

(** ** The base64 encoding of [Buffer] *)

Module Base64.

Definition alphabet : string :=
  "ABCDEFGHIJKLMNOPQRSTUVWXYZabcdefghijklmnopqrstuvwxyz0123456789+/".

Definition pad : ascii := "="%char.

(** The character of a sextet. *)
Definition b64char (i : nat) : ascii :=
  match String.get i alphabet with
  | Some c => c
  | None => pad
  end.

(** [buf.toString("base64")]: three bytes give four characters, and the
    last group is padded with [=]. *)
Fixpoint encode (s : string) : string :=
  match s with
  | EmptyString => EmptyString
  | String a EmptyString =>
      let x := nat_of_ascii a in
      String (b64char (x / 4))
        (String (b64char (x mod 4 * 16)) (String pad (String pad EmptyString)))
  | String a (String b EmptyString) =>
      let x := nat_of_ascii a in
      let y := nat_of_ascii b in
      String (b64char (x / 4))
        (String (b64char (x mod 4 * 16 + y / 16))
           (String (b64char (y mod 16 * 4)) (String pad EmptyString)))
  | String a (String b (String c r)) =>
      let x := nat_of_ascii a in
      let y := nat_of_ascii b in
      let z := nat_of_ascii c in
      String (b64char (x / 4))
        (String (b64char (x mod 4 * 16 + y / 16))
           (String (b64char (y mod 16 * 4 + z / 64))
              (String (b64char (z mod 64)) (encode r))))
  end%nat.

(** The sextet of a character; the decoder of Node also takes the
    URL-safe [-] and [_]. *)
Definition b64val (c : ascii) : option nat :=
  let n := nat_of_ascii c in
  (if Nat.leb 65 n && Nat.leb n 90 then Some (n - 65)
   else if Nat.leb 97 n && Nat.leb n 122 then Some (n - 71)
   else if Nat.leb 48 n && Nat.leb n 57 then Some (n + 4)
   else if Nat.eqb n 43 || Nat.eqb n 45 then Some 62
   else if Nat.eqb n 47 || Nat.eqb n 95 then Some 63
   else None)%nat.

(** The sextets of a text: decoding stops at the first [=] and skips every
    character outside the alphabet. *)
Fixpoint sextets (s : string) : list nat :=
  match s with
  | EmptyString => []
  | String c r =>
      if Ascii.eqb c pad then []
      else match b64val c with
           | Some v => v :: sextets r
           | None => sextets r
           end
  end.

Fixpoint bytesOf (l : list nat) : string :=
  match l with
  | p :: q :: r :: t :: rest =>
      String (ascii_of_nat (p * 4 + q / 16))
        (String (ascii_of_nat (q mod 16 * 16 + r / 4))
           (String (ascii_of_nat (r mod 4 * 64 + t)) (bytesOf rest)))
  | [p; q; r] =>
      String (ascii_of_nat (p * 4 + q / 16))
        (String (ascii_of_nat (q mod 16 * 16 + r / 4)) EmptyString)
  | [p; q] => String (ascii_of_nat (p * 4 + q / 16)) EmptyString
  | _ => EmptyString
  end%nat.

(** [Buffer.from(text, "base64")] *)
Definition decode (s : string) : string := bytesOf (sextets s).

End Base64.

(** ** JSON.stringify and JSON.parse *)

Module Json.

#[local] Set Warnings "-register-all".

Inductive value :=
| Null
| Bool (b : bool)
| Num (n : Z)
| Str (s : string)
| Arr (elements : list value)
| Obj (members : list (string * value)).

Definition dquote : ascii := "034"%char.
Definition backslash : ascii := "092"%char.

Definition hexDigit (d : nat) : ascii :=
  (if Nat.ltb d 10 then ascii_of_nat (48 + d) else ascii_of_nat (87 + d))%nat.

(** One character of a quoted string: the two-character escapes, a
    [\u00xx] escape for the other control characters, the character
    itself otherwise. *)
Definition escapeChar (c : ascii) : string :=
  let n := nat_of_ascii c in
  let esc (e : ascii) := String backslash (String e EmptyString) in
  (if Nat.eqb n 8 then esc "b"%char
   else if Nat.eqb n 9 then esc "t"%char
   else if Nat.eqb n 10 then esc "n"%char
   else if Nat.eqb n 12 then esc "f"%char
   else if Nat.eqb n 13 then esc "r"%char
   else if Nat.eqb n 34 then esc dquote
   else if Nat.eqb n 92 then esc backslash
   else if Nat.ltb n 32 then
     String backslash
       (String "u" (String "0" (String "0"
          (String (hexDigit (n / 16)) (String (hexDigit (n mod 16)) EmptyString)))))
   else String c EmptyString)%nat.

Fixpoint escape (s : string) : string :=
  match s with
  | EmptyString => EmptyString
  | String c r => escapeChar c ++ escape r
  end.

Definition quote (s : string) : string :=
  String dquote (escape s ++ String dquote EmptyString).

Fixpoint joinComma (l : list string) : string :=
  match l with
  | [] => EmptyString
  | [x] => x
  | x :: r => x ++ String "," (joinComma r)
  end.

(** [JSON.stringify(v)], without indentation. *)
Fixpoint stringify (v : value) : string :=
  match v with
  | Null => "null"
  | Bool true => "true"
  | Bool false => "false"
  | Num n => JsString.numberToString n
  | Str s => quote s
  | Arr l => String "[" (joinComma (List.map stringify l) ++ "]")
  | Obj ms =>
      String "{"
        (joinComma (List.map (fun kv => quote (fst kv) ++ String ":" (stringify (snd kv))) ms)
         ++ "}")
  end.

Definition isWs (c : ascii) : bool :=
  let n := nat_of_ascii c in
  Nat.eqb n 32 || Nat.eqb n 9 || Nat.eqb n 10 || Nat.eqb n 13.

Fixpoint skipWs (s : string) : string :=
  match s with
  | EmptyString => EmptyString
  | String c r => if isWs c then skipWs r else s
  end.

Definition hexVal (c : ascii) : option nat :=
  let n := nat_of_ascii c in
  (if Nat.leb 48 n && Nat.leb n 57 then Some (n - 48)
   else if Nat.leb 97 n && Nat.leb n 102 then Some (n - 87)
   else if Nat.leb 65 n && Nat.leb n 70 then Some (n - 55)
   else None)%nat.

(** The character of a [\uXXXX] escape; a code unit above U+007F is not
    ASCII text and is left out of the model. *)
Definition unicodeEscape (a b c d : ascii) : option ascii :=
  match hexVal a, hexVal b, hexVal c, hexVal d with
  | Some x, Some y, Some z, Some w =>
      let n := (((x * 16 + y) * 16 + z) * 16 + w)%nat in
      if Nat.ltb n 128 then Some (ascii_of_nat n) else None
  | _, _, _, _ => None
  end.

Definition simpleEscape (e : ascii) : option ascii :=
  let n := nat_of_ascii e in
  (if Nat.eqb n 34 then Some dquote
   else if Nat.eqb n 92 then Some backslash
   else if Nat.eqb n 47 then Some "/"%char
   else if Nat.eqb n 98 then Some (ascii_of_nat 8)
   else if Nat.eqb n 102 then Some (ascii_of_nat 12)
   else if Nat.eqb n 110 then Some (ascii_of_nat 10)
   else if Nat.eqb n 114 then Some (ascii_of_nat 13)
   else if Nat.eqb n 116 then Some (ascii_of_nat 9)
   else None)%nat.

(** The characters of a string literal after its opening quote, up to the
    closing one: the decoded text and what follows the literal. *)
Fixpoint parseChars (s : string) : option (string * string) :=
  match s with
  | EmptyString => None
  | String c r =>
      if Ascii.eqb c dquote then Some (EmptyString, r)
      else if Ascii.eqb c backslash then
        match r with
        | EmptyString => None
        | String e r1 =>
            if Ascii.eqb e "u"%char then
              match r1 with
              | String h1 (String h2 (String h3 (String h4 r2))) =>
                  match unicodeEscape h1 h2 h3 h4 with
                  | Some x =>
                      match parseChars r2 with
                      | Some (t, rest) => Some (String x t, rest)
                      | None => None
                      end
                  | None => None
                  end
              | _ => None
              end
            else
              match simpleEscape e with
              | Some x =>
                  match parseChars r1 with
                  | Some (t, rest) => Some (String x t, rest)
                  | None => None
                  end
              | None => None
              end
        end
      else if Nat.ltb (nat_of_ascii c) 32 then None
      else
        match parseChars r with
        | Some (t, rest) => Some (String c t, rest)
        | None => None
        end
  end.

Definition isDigit (c : ascii) : bool :=
  let n := nat_of_ascii c in Nat.leb 48 n && Nat.leb n 57.

Fixpoint spanDigits (s : string) : string * string :=
  match s with
  | EmptyString => (EmptyString, EmptyString)
  | String c r =>
      if isDigit c then let '(d, rest) := spanDigits r in (String c d, rest)
      else (EmptyString, s)
  end.

(** The digits of an integer: at least one, and no leading zero before
    another digit. *)
Definition wellFormedDigits (d : string) : bool :=
  match d with
  | EmptyString => false
  | String c EmptyString => true
  | String c _ => negb (Ascii.eqb c "0"%char)
  end.

(** An integer literal; a fraction or an exponent is not read (no number
    of this model is printed with one). *)
Definition parseNumber (s : string) : option (Z * string) :=
  let '(neg, body) :=
    match s with
    | String c r => if Ascii.eqb c "-"%char then (true, r) else (false, s)
    | EmptyString => (false, s)
    end in
  let '(d, rest) := spanDigits body in
  if wellFormedDigits d then
    match NilEmpty.uint_of_string d with
    | Some u => Some (if neg then - Z.of_uint u else Z.of_uint u, rest)
    | None => None
    end
  else None.

(** Recursive descent; [fuel] bounds the nesting and the number of
    members read in a row. *)
Fixpoint parseValue (fuel : nat) (s : string) : option (value * string) :=
  match fuel with
  | O => None
  | S f =>
      match skipWs s with
      | EmptyString => None
      | String c r =>
          if Ascii.eqb c dquote then
            match parseChars r with
            | Some (t, rest) => Some (Str t, rest)
            | None => None
            end
          else if Ascii.eqb c "{"%char then
            match skipWs r with
            | String c1 r1 =>
                if Ascii.eqb c1 "}"%char then Some (Obj [], r1)
                else match parseMembers f r with
                     | Some (ms, rest) => Some (Obj ms, rest)
                     | None => None
                     end
            | EmptyString => None
            end
          else if Ascii.eqb c "["%char then
            match skipWs r with
            | String c1 r1 =>
                if Ascii.eqb c1 "]"%char then Some (Arr [], r1)
                else match parseElements f r with
                     | Some (l, rest) => Some (Arr l, rest)
                     | None => None
                     end
            | EmptyString => None
            end
          else if JsString.startsWith "true" (String c r) then
            Some (Bool true, JsString.drop 4 (String c r))
          else if JsString.startsWith "false" (String c r) then
            Some (Bool false, JsString.drop 5 (String c r))
          else if JsString.startsWith "null" (String c r) then
            Some (Null, JsString.drop 4 (String c r))
          else
            match parseNumber (String c r) with
            | Some (n, rest) => Some (Num n, rest)
            | None => None
            end
      end
  end
with parseMembers (fuel : nat) (s : string) : option (list (string * value) * string) :=
  match fuel with
  | O => None
  | S f =>
      match skipWs s with
      | EmptyString => None
      | String q r =>
          if Ascii.eqb q dquote then
            match parseChars r with
            | Some (k, r1) =>
                match skipWs r1 with
                | String c2 r2 =>
                    if Ascii.eqb c2 ":"%char then
                      match parseValue f r2 with
                      | Some (v, r3) =>
                          match skipWs r3 with
                          | String c4 r4 =>
                              if Ascii.eqb c4 ","%char then
                                match parseMembers f r4 with
                                | Some (ms, rest) => Some ((k, v) :: ms, rest)
                                | None => None
                                end
                              else if Ascii.eqb c4 "}"%char then Some ([(k, v)], r4)
                              else None
                          | EmptyString => None
                          end
                      | None => None
                      end
                    else None
                | EmptyString => None
                end
            | None => None
            end
          else None
      end
  end
with parseElements (fuel : nat) (s : string) : option (list value * string) :=
  match fuel with
  | O => None
  | S f =>
      match parseValue f s with
      | Some (v, r1) =>
          match skipWs r1 with
          | String c2 r2 =>
              if Ascii.eqb c2 ","%char then
                match parseElements f r2 with
                | Some (l, rest) => Some (v :: l, rest)
                | None => None
                end
              else if Ascii.eqb c2 "]"%char then Some ([v], r2)
              else None
          | EmptyString => None
          end
      | None => None
      end
  end.

(** [JSON.parse(text)]: one value, then white space only. [None] is the
    [SyntaxError]. *)
Definition parse (text : string) : option value :=
  match parseValue (S (String.length text)) text with
  | Some (v, rest) =>
      match skipWs rest with
      | EmptyString => Some v
      | _ => None
      end
  | None => None
  end.

(** [obj[k]] on a parsed object: of two members with one key, the later
    one is kept by the parser of JS. *)
Fixpoint getProperty (k : string) (ms : list (string * value)) : option value :=
  match ms with
  | [] => None
  | (k', v) :: r =>
      match getProperty k r with
      | Some v' => Some v'
      | None => if String.eqb k' k then Some v else None
      end
  end.

End Json.

(** ** The contract [DataAnchoringToken]: the subscription ledger *)

Module DataAnchoringToken.

Record SubscriptionTier := {
  name : string;
  duration : Z;
  price : Z;
  usageQuota : Z;
  active : bool
}.

Record TokenMetadata := {
  tierId : Z;
  expiryTime : Z;
  remainingUsage : Z;
  contributors : list string;
  revenueShares : list Z
}.

(** The storage the three functions below read and write, with the owner of
    [Ownable], the balances of [ERC1155] and the time of the block. An
    address is the string of its lower-case hexadecimal form. *)
Record state := {
  subscriptionTiers : gmap Z SubscriptionTier;
  tokenMetadata : gmap Z TokenMetadata;
  userTokens : gmap string (list Z);
  balances : gmap (Z * string) Z;
  owner : string;
  block_timestamp : Z
}.

(** A mapping of Solidity reads as the zero value where nothing was
    written. *)
Definition tierAt (st : state) (id : Z) : SubscriptionTier :=
  default {| name := ""; duration := 0; price := 0; usageQuota := 0; active := false |}
    (subscriptionTiers st !! id).

Definition metadataAt (st : state) (id : Z) : TokenMetadata :=
  default {| tierId := 0; expiryTime := 0; remainingUsage := 0;
             contributors := []; revenueShares := [] |}
    (tokenMetadata st !! id).

Definition balanceOf (st : state) (user : string) (id : Z) : Z :=
  default 0 (balances st !! (id, user)).

Definition tokensOf (st : state) (user : string) : list Z :=
  default [] (userTokens st !! user).

(** The loop of [hasValidSubscription] over the tokens of the user. *)
Fixpoint firstValid (st : state) (user : string) (tokens : list Z) : bool * Z :=
  match tokens with
  | [] => (false, 0)
  | tokenId :: rest =>
      if balanceOf st user tokenId >? 0 then
        let metadata := metadataAt st tokenId in
        if (block_timestamp st <? expiryTime metadata)
           && (remainingUsage metadata >? 0)
        then (true, tokenId)
        else firstValid st user rest
      else firstValid st user rest
  end.

Definition hasValidSubscription (st : state) (user : string) : bool * Z :=
  firstValid st user (tokensOf st user).

(** [metadata.remainingUsage -= amount] on the token [tokenId]. *)
Definition debit (st : state) (tokenId amount : Z) : state :=
  let metadata := metadataAt st tokenId in
  {| subscriptionTiers := subscriptionTiers st;
     tokenMetadata :=
       <[tokenId := {| tierId := tierId metadata;
                       expiryTime := expiryTime metadata;
                       remainingUsage := remainingUsage metadata - amount;
                       contributors := contributors metadata;
                       revenueShares := revenueShares metadata |}]>
         (tokenMetadata st);
     userTokens := userTokens st;
     balances := balances st;
     owner := owner st;
     block_timestamp := block_timestamp st |}.

(** [consumeUsage(user, amount)] sent by [sender]; [None] is a revert
    ([onlyOwner] and the two [require]s). *)
Definition consumeUsage (st : state) (sender user : string) (amount : Z)
    : option state :=
  if negb (String.eqb sender (owner st)) then None
  else
    let '(hasValid, tokenId) := hasValidSubscription st user in
    if negb hasValid then None
    else if remainingUsage (metadataAt st tokenId) >=? amount
         then Some (debit st tokenId amount)
         else None.

(** [getUserSubscription(user)]:
    [(isValid, tokenId, expiryTime, remainingUsage, tierName)]. *)
Definition getUserSubscription (st : state) (user : string)
    : bool * Z * Z * Z * string :=
  let '(hasValid, validTokenId) := hasValidSubscription st user in
  if hasValid then
    let metadata := metadataAt st validTokenId in
    let tier := tierAt st (tierId metadata) in
    (true, validTokenId, expiryTime metadata, remainingUsage metadata, name tier)
  else (false, 0, 0, 0, "").

(** The largest [uint256]; an addition that passes it panics. *)
Definition MAX_UINT256 : Z := 2 ^ 256 - 1.

(** The storage of the contract in full: what the three functions above read
    and write, the two counters, and the ether held. *)
Record storage := {
  core : state;
  tierCount : Z;
  tokenIds : Z;
  funds : Z
}.

(** The loop that adds the shares, from [total]; [None] is the panic of an
    addition that overflows. *)
Fixpoint sumShares (total : Z) (revenueShares : list Z) : option Z :=
  match revenueShares with
  | [] => Some total
  | share :: rest =>
      if total + share >? MAX_UINT256 then None
      else sumShares (total + share) rest
  end.

(** [createSubscriptionTier(name, duration, price, usageQuota, contributors,
    revenueShares)] sent by [sender]; [None] is a revert. The contributors
    and their shares are checked and not stored. *)
Definition createSubscriptionTier (st : storage) (sender name : string)
    (tierDuration tierPrice quota : Z) (tierContributors : list string)
    (shares : list Z) : option storage :=
  if negb (String.eqb sender (owner (core st))) then None
  else if negb (Nat.eqb (List.length tierContributors) (List.length shares)) then None
  else
    match sumShares 0 shares with
    | None => None
    | Some totalShares =>
        if negb (totalShares =? 100) then None
        else if tierCount st + 1 >? MAX_UINT256 then None
        else
          let id := tierCount st + 1 in
          Some {| core :=
                    {| subscriptionTiers :=
                         <[id := {| name := name; duration := tierDuration;
                                    price := tierPrice; usageQuota := quota;
                                    active := true |}]>
                           (subscriptionTiers (core st));
                       tokenMetadata := tokenMetadata (core st);
                       userTokens := userTokens (core st);
                       balances := balances (core st);
                       owner := owner (core st);
                       block_timestamp := block_timestamp (core st) |};
                  tierCount := id;
                  tokenIds := tokenIds st;
                  funds := funds st |}
    end.

(** [mintDAT(tierId)] sent by [sender] with [value] wei; [None] is a revert.
    [_tokenIds.increment()] adds one to the counter without a check, so that
    it wraps; [_mint] adds one to the balance of the sender for the new
    token, with a check (the sender is taken to be an account without code,
    which [_mint] does not call back), and the value stays in the
    contract. *)
Definition mintDAT (st : storage) (sender : string) (value tier : Z)
    : option storage :=
  if negb ((tier >? 0) && (tier <=? tierCount st)) then None
  else
    let t := tierAt (core st) tier in
    if negb (active t) then None
    else if negb (value >=? price t) then None
    else
      let newTokenId := (tokenIds st + 1) mod (MAX_UINT256 + 1) in
      if block_timestamp (core st) + duration t >? MAX_UINT256 then None
      else if balanceOf (core st) sender newTokenId + 1 >? MAX_UINT256 then None
      else
        Some {| core :=
                  {| subscriptionTiers := subscriptionTiers (core st);
                     tokenMetadata :=
                       <[newTokenId :=
                           {| tierId := tier;
                              expiryTime := block_timestamp (core st) + duration t;
                              remainingUsage := usageQuota t;
                              contributors := [];
                              revenueShares := [] |}]>
                         (tokenMetadata (core st));
                     userTokens :=
                       <[sender := (tokensOf (core st) sender ++ [newTokenId])%list]>
                         (userTokens (core st));
                     balances :=
                       <[(newTokenId, sender) :=
                           balanceOf (core st) sender newTokenId + 1]>
                         (balances (core st));
                     owner := owner (core st);
                     block_timestamp := block_timestamp (core st) |};
                tierCount := tierCount st;
                tokenIds := newTokenId;
                funds := funds st + value |}.

(** The storage the constructor leaves: nothing but the owner, who is the
    deployer. *)
Definition deployed (deployer : string) (now : Z) : storage :=
  {| core := {| subscriptionTiers := ∅; tokenMetadata := ∅; userTokens := ∅;
                balances := ∅; owner := deployer; block_timestamp := now |};
     tierCount := 0; tokenIds := 0; funds := 0 |}.

(** The time of the block a transaction is mined in. *)
Definition atTime (st : storage) (now : Z) : storage :=
  {| core := {| subscriptionTiers := subscriptionTiers (core st);
                tokenMetadata := tokenMetadata (core st);
                userTokens := userTokens (core st);
                balances := balances (core st);
                owner := owner (core st);
                block_timestamp := now |};
     tierCount := tierCount st; tokenIds := tokenIds st; funds := funds st |}.

(** [consumeUsage] on the storage in full. *)
Definition consume (st : storage) (sender user : string) (amount : Z)
    : option storage :=
  match consumeUsage (core st) sender user amount with
  | Some c => Some {| core := c; tierCount := tierCount st;
                      tokenIds := tokenIds st; funds := funds st |}
  | None => None
  end.

(** A run of [consumeUsage] for one user, in order; the first revert ends
    it. *)
Fixpoint consumeAll (st : state) (sender user : string) (amounts : list Z)
    : option state :=
  match amounts with
  | [] => Some st
  | amount :: rest =>
      match consumeUsage st sender user amount with
      | Some st' => consumeAll st' sender user rest
      | None => None
      end
  end.

(** The test of the loop of [hasValidSubscription] on one token. *)
Definition usable (st : state) (user : string) (tokenId : Z) : bool :=
  (balanceOf st user tokenId >? 0)
  && (block_timestamp st <? expiryTime (metadataAt st tokenId))
  && (remainingUsage (metadataAt st tokenId) >? 0).

(** What the storage satisfies after any run of the functions above from
    the constructor, while the counter of the tokens has not wrapped: the
    tiers and the tokens are numbered from 1 up to their counters, every
    tier is active, a token is listed once, by one user, no quota is
    negative, and a token is of a tier that exists. *)
Record wellFormed (st : storage) : Prop := {
  wf_tierCount : 0 <= tierCount st;
  wf_tokenIds : 0 <= tokenIds st;
  wf_funds : 0 <= funds st;
  wf_tiers : forall id t,
    subscriptionTiers (core st) !! id = Some t ->
    1 <= id <= tierCount st /\ active t = true /\ 0 <= usageQuota t;
  wf_tiers_all : forall id,
    1 <= id <= tierCount st -> is_Some (subscriptionTiers (core st) !! id);
  wf_metadata : forall id m,
    tokenMetadata (core st) !! id = Some m ->
    1 <= id <= tokenIds st /\ 0 <= remainingUsage m /\ 1 <= tierId m <= tierCount st;
  wf_listed : forall user id,
    In id (tokensOf (core st) user) -> 1 <= id <= tokenIds st;
  wf_once : forall user, NoDup (tokensOf (core st) user);
  wf_one_user : forall user other id,
    In id (tokensOf (core st) user) -> In id (tokensOf (core st) other) -> user = other;
  wf_balances : forall id user b,
    balances (core st) !! (id, user) = Some b -> 1 <= id <= tokenIds st /\ 0 <= b
}.

End DataAnchoringToken.

(** ** The contract as the agent reaches it *)

(** What [getUserSubscription] resolves to. *)
Record Subscription := {
  isValid : bool;
  sub_tokenId : Z;
  sub_expiryTime : Z;
  sub_remainingUsage : Z;
  sub_tierName : string
}.

(** What the agent uses of [this.contract], over the state [L] of what is
    behind it. The two calls: [None] is a rejected promise: a revert, a
    transport failure, an argument the binding refuses; [consumeUsage]
    stands for the transaction and its [tx.wait()], and gives the hash of the
    receipt. [toNumber] is the [toNumber()] of the numbers that
    [getUserSubscription] resolves to; [None] when it throws. *)
Class Ledger (L : Type) := {
  getUserSubscription : L -> string -> option Subscription;
  consumeUsage : L -> string -> Z -> option (string * L);
  toNumber : L -> Z -> option Z
}.

(** The deployed contract behind a signer and a binding. The hash of a mined
    transaction is not computed anywhere in the repository: the transactions
    are numbered. The binding is not of the repository either. [addressOf]
    is what it makes of an address argument: [None] when it refuses the text
    and the call throws (a text that is no address, a spelling in mixed
    case with a wrong checksum, a name that does not resolve), else the
    address, in lower-case hexadecimal. [safe] holds of the numbers whose
    [toNumber()] goes through, and gives the number itself: the safe
    integers for the big numbers of ethers 5, none for the [bigint] of
    ethers 6, which has no such method. *)
Record Deployed := {
  chain : DataAnchoringToken.state;
  signer : string;
  nonce : Z;
  addressOf : string -> option string;
  safe : Z -> bool
}.

#[export] Instance Deployed_Ledger : Ledger Deployed := {
  getUserSubscription d user :=
    match addressOf d user with
    | Some account =>
        let '(v, tokenId, expiry, remaining, tier) :=
          DataAnchoringToken.getUserSubscription (chain d) account in
        Some {| isValid := v; sub_tokenId := tokenId; sub_expiryTime := expiry;
                sub_remainingUsage := remaining; sub_tierName := tier |}
    | None => None
    end;
  consumeUsage d user amount :=
    match addressOf d user with
    | Some account =>
        match DataAnchoringToken.consumeUsage (chain d) (signer d) account amount with
        | Some st =>
            Some ("0x" ++ JsString.numberToString (nonce d),
                  {| chain := st; signer := signer d; nonce := nonce d + 1;
                     addressOf := addressOf d; safe := safe d |})
        | None => None
        end
    | None => None
    end;
  toNumber d v := if safe d v then Some v else None
}.

(** A scripted contract, as a test double: the answers of the two calls and
    of the conversion are given as functions of their arguments. *)
Record Scripted := {
  reads : string -> option Subscription;
  commits : string -> Z -> option string;
  numbers : Z -> option Z
}.

#[export] Instance Scripted_Ledger : Ledger Scripted := {
  getUserSubscription s user := reads s user;
  consumeUsage s user amount :=
    match commits s user amount with
    | Some hash => Some (hash, s)
    | None => None
    end;
  toNumber s v := numbers s v
}.

(** ** The class [AIAgent] *)

Module AIAgent.

Inductive AccessLevel := basic | premium | enterprise.

Definition AccessLevel_eqb (a b : AccessLevel) : bool :=
  match a, b with
  | basic, basic | premium, premium | enterprise, enterprise => true
  | _, _ => false
  end.

Record VerificationProof := {
  proof : string;
  publicInputs : list string;
  vp_timestamp : Z
}.

(** [confidence] is held in hundredths: 0.7 is [70]. *)
Record AIResponse := {
  content : string;
  confidence : Z;
  sources : list string;
  verificationProof : option VerificationProof
}.

(** Every result the agent builds sets all the optional fields of the
    interface, so they are plain fields here. *)
Record AccessControlResult := {
  hasAccess : bool;
  tokenId : string;
  remainingUsage : Z;
  expiryTime : Z;
  tierName : string;
  accessLevel : AccessLevel
}.

Record QueryContext := {
  userAddress : string;
  query : string;
  ctx_timestamp : Z;
  sessionId : string
}.

(** An entry of [accessCache]. *)
Record CacheEntry := { result : AccessControlResult; timestamp : Z }.

(** What [processQuery] resolves to. *)
Record QueryResult := {
  success : bool;
  response : option AIResponse;
  error : option string;
  usageConsumed : option Z;
  transactionHash : option string
}.

Record ValidationResult := { valid : bool; validationError : option string }.

(** A ghost record of what a run does outside the agent: the calls on the
    contract, the call of the response generator and the lines of the log
    (of a line of the console, the fixed text without the values printed
    after it). *)
Inductive Event :=
| LedgerRead (user : string)
| LedgerCommit (user : string) (amount : Z) (ok : bool)
| Generate (q : string) (level : AccessLevel)
| SecurityLog (eventType : string) (at_ : Z) (ctx : QueryContext)
| QueryLog (at_ : Z) (ctx : QueryContext) (used : Z)
| Console (line : string).

Definition isLedgerCall (e : Event) : bool :=
  match e with
  | LedgerRead _ | LedgerCommit _ _ _ => true
  | _ => false
  end.

Definition isCommit (e : Event) : bool :=
  match e with
  | LedgerCommit _ _ _ => true
  | _ => false
  end.

Definition isGenerate (e : Event) : bool :=
  match e with
  | Generate _ _ => true
  | _ => false
  end.

Definition CACHE_DURATION : Z := 60000.

Section Agent.

Context {L : Type} `{Ledger L}.

(** The agent and what it talks to. [contract] is [Some] exactly when
    [this.contract] and [this.provider] are set and the provider is valid
    (they are set together by [initializeProvider]); it holds the state of
    the ledger behind the contract. [clock] gives the successive readings
    of [Date.now()], [ticks] counts the readings taken. *)
Record World := {
  contract : option L;
  accessCache : gmap string CacheEntry;
  clock : nat -> Z;
  ticks : nat;
  trace : list Event
}.

Definition M (A : Type) : Type := World -> A * World.

Definition ret {A} (a : A) : M A := fun w => (a, w).

Definition bind {A B} (m : M A) (k : A -> M B) : M B :=
  fun w => let '(a, w1) := m w in k a w1.

Notation "x <- m ;; k" := (bind m (fun x => k))
  (at level 63, m at next level, right associativity).
Notation "m ;;; k" := (bind m (fun _ => k))
  (at level 63, right associativity).

(** [Date.now()] *)
Definition Date_now : M Z := fun w =>
  (clock w (ticks w),
   {| contract := contract w; accessCache := accessCache w;
      clock := clock w; ticks := S (ticks w); trace := trace w |}).

Definition emit (e : Event) : M unit := fun w =>
  (tt, {| contract := contract w; accessCache := accessCache w;
          clock := clock w; ticks := ticks w; trace := trace w ++ [e] |}).

Definition getContract : M (option L) := fun w => (contract w, w).

Definition setContract (c : L) : M unit := fun w =>
  (tt, {| contract := Some c; accessCache := accessCache w;
          clock := clock w; ticks := ticks w; trace := trace w |}).

Definition cacheGet (k : string) : M (option CacheEntry) := fun w =>
  (accessCache w !! k, w).

Definition cacheSet (k : string) (e : CacheEntry) : M unit := fun w =>
  (tt, {| contract := contract w; accessCache := <[k := e]> (accessCache w);
          clock := clock w; ticks := ticks w; trace := trace w |}).

Definition cacheDelete (k : string) : M unit := fun w =>
  (tt, {| contract := contract w; accessCache := delete k (accessCache w);
          clock := clock w; ticks := ticks w; trace := trace w |}).

(** The level [verifyAccess] reads off the name of the tier. *)
Definition accessLevelOf (tier : string) : AccessLevel :=
  if JsString.includes tier "Lifetime" then enterprise
  else if JsString.includes tier "Monthly" then premium
  else basic.

(** The object [result] that [verifyAccess] builds from the answer of the
    contract; [tokenId.toString()] is the decimal text;
    [remainingUsage.toNumber()], then [expiryTime.toNumber()], may throw:
    [None]. *)
Definition resultOf (ledger : L) (sub : Subscription) : option AccessControlResult :=
  match toNumber ledger (sub_remainingUsage sub) with
  | Some remaining =>
      match toNumber ledger (sub_expiryTime sub) with
      | Some expiry =>
          Some {| hasAccess := isValid sub;
                  tokenId := JsString.numberToString (sub_tokenId sub);
                  remainingUsage := remaining;
                  expiryTime := expiry;
                  tierName := sub_tierName sub;
                  accessLevel := accessLevelOf (sub_tierName sub) |}
      | None => None
      end
  | None => None
  end.

(** The [try] block of [verifyAccess] up to its object [result]: the call
    of the contract, then the conversions; [None] when either throws. *)
Definition readResult (ledger : L) (userAddress : string)
    : option AccessControlResult :=
  match getUserSubscription ledger userAddress with
  | Some sub => resultOf ledger sub
  | None => None
  end.

(** The [mockResult] and the [fallbackResult] of [verifyAccess], for the
    reading [t] of the clock. *)
Definition mockResult (t : Z) : AccessControlResult :=
  {| hasAccess := true; tokenId := "demo-1"; remainingUsage := 10;
     expiryTime := t / 1000 + 86400 * 30;
     tierName := "Demo Access"; accessLevel := premium |}.

Definition fallbackResult (t : Z) : AccessControlResult :=
  {| hasAccess := true; tokenId := "fallback-1"; remainingUsage := 5;
     expiryTime := t / 1000 + 86400 * 7;
     tierName := "Demo Fallback"; accessLevel := basic |}.

(** [verifyAccess(userAddress, forceRefresh)]. The clock is read for the
    test of the cached entry only when there is one and no refresh is forced
    (the [&&] of the source stops before). *)
Definition verifyAccess (userAddress : string) (forceRefresh : bool)
    : M AccessControlResult :=
  let cacheKey := JsString.toLowerCase userAddress in
  cached <- cacheGet cacheKey ;;
  hit <- match cached with
         | Some c =>
             if forceRefresh then ret None
             else now <- Date_now ;;
                  ret (if now - timestamp c <? CACHE_DURATION
                       then Some (result c) else None)
         | None => ret None
         end ;;
  match hit with
  | Some r => ret r
  | None =>
      c <- getContract ;;
      match c with
      | None =>
          emit (Console "[AI Agent] No valid contract available, returning demo access") ;;;
          t <- Date_now ;;
          t' <- Date_now ;;
          cacheSet cacheKey {| result := mockResult t; timestamp := t' |} ;;;
          ret (mockResult t)
      | Some ledger =>
          emit (LedgerRead userAddress) ;;;
          match readResult ledger userAddress with
          | Some answer =>
              t <- Date_now ;;
              cacheSet cacheKey {| result := answer; timestamp := t |} ;;;
              ret answer
          | None =>
              emit (Console "Error verifying access:") ;;;
              t <- Date_now ;;
              t' <- Date_now ;;
              cacheSet cacheKey {| result := fallbackResult t; timestamp := t' |} ;;;
              ret (fallbackResult t)
          end
      end
  end.

(** [verifyAccess(userAddress)] called [n] times in a row. *)
Fixpoint verifyAccessTimes (n : nat) (userAddress : string)
    : M (list AccessControlResult) :=
  match n with
  | O => ret []
  | S k =>
      r <- verifyAccess userAddress false ;;
      rs <- verifyAccessTimes k userAddress ;;
      ret (r :: rs)
  end.

(** The entry a call of [verifyAccess] answers from, if any: the test
    [!forceRefresh && cached && Date.now() - cached.timestamp < CACHE_DURATION]. *)
Definition cacheHit (userAddress : string) (forceRefresh : bool) (w : World)
    : option AccessControlResult :=
  match accessCache w !! JsString.toLowerCase userAddress with
  | Some c =>
      if forceRefresh then None
      else if clock w (ticks w) - timestamp c <? CACHE_DURATION
           then Some (result c) else None
  | None => None
  end.

(** An [accessCache] in which no entry grants access with a quota of 0. *)
Definition quotaCoherent (cache : gmap string CacheEntry) : Prop :=
  forall k e, cache !! k = Some e ->
              hasAccess (result e) = true -> remainingUsage (result e) <> 0.

(** What a read of the ledger gives the agent now: nothing without a
    contract, nothing when the call throws. *)
Definition ledgerRead (userAddress : string) (w : World) : option Subscription :=
  match contract w with
  | Some ledger => getUserSubscription ledger userAddress
  | None => None
  end.

(** The record the agent makes of that read: nothing either when a
    conversion throws. *)
Definition ledgerResult (userAddress : string) (w : World)
    : option AccessControlResult :=
  match contract w with
  | Some ledger => readResult ledger userAddress
  | None => None
  end.

Definition prohibitedTerms : list string := ["hack"; "exploit"; "illegal"; "fraud"].


(** [validateQuery(query, accessLevel)] *)
Definition validateQuery (query : string) (level : AccessLevel) : ValidationResult :=
  if JsString.isEmpty (JsString.trim query) || (JsString.length query >? 1000) then
    {| valid := false;
       validationError := Some "Query must be between 1-1000 characters." |}
  else if existsb (fun term => JsString.includes (JsString.toLowerCase query) term)
            prohibitedTerms then
    {| valid := false; validationError := Some "Query contains prohibited content." |}
  else if AccessLevel_eqb level basic && (JsString.length query >? 200) then
    {| valid := false;
       validationError :=
         Some "Basic tier limited to 200 character queries. Upgrade for longer queries." |}
  else {| valid := true; validationError := None |}.

(** [processTEE(context, accessLevel)]: the attestation and the result
    are strings nobody reads; the call takes one reading of the clock. *)
Definition processTEE (context : QueryContext) (level : AccessLevel)
    : M (string * string) :=
  t <- Date_now ;;
  ret ("TEE_ATTESTATION_" ++ sessionId context ++ "_" ++ JsString.numberToString t,
       "ENCRYPTED_" ++ Base64.encode (query context)).

(** [generateSources(category, accessLevel)] *)
Definition generateSources (category : string) (level : AccessLevel) : list string :=
  let baseSources := ["DeFiPulse"; "CoinGecko"; "Etherscan"] in
  let premiumSources := (baseSources ++ ["Messari"; "Dune Analytics"; "DefiLlama"])%list in
  let enterpriseSources := (premiumSources ++ ["Chainalysis"; "Nansen"; "IntoTheBlock"])%list in
  match level with
  | enterprise => enterpriseSources
  | premium => premiumSources
  | basic => baseSources
  end.

Definition responses (category : string) (level : AccessLevel) : string :=
  if String.eqb category "defi" then
    match level with
    | basic => "Current DeFi opportunities include staking ETH (~4% APY) and providing liquidity on major DEXs."
    | premium => "Top DeFi yield strategies: 1) ETH staking on Lido (4.2% APY), 2) Uniswap V3 concentrated liquidity (8-15% APY), 3) Aave lending (3-6% APY). Risk assessment: Medium to high depending on strategy."
    | enterprise => "Comprehensive DeFi analysis: 1) Liquid staking derivatives (Lido, Rocket Pool) offering 4-5% with high liquidity, 2) Concentrated liquidity positions on Uniswap V3 with dynamic rebalancing (potential 10-20% APY), 3) Yield farming on Curve with CRV rewards (6-12% APY), 4) Leveraged strategies using Aave/Compound (15-30% APY, high risk). Include impermanent loss calculations and gas optimization strategies."
    end
  else if String.eqb category "nft" then
    match level with
    | basic => "NFT market shows mixed trends with blue-chip collections maintaining value."
    | premium => "NFT market analysis: Blue-chip collections (BAYC, CryptoPunks) showing 15% decline but strong floor support. Utility NFTs and gaming assets gaining traction. AI-generated art emerging as new category."
    | enterprise => "Detailed NFT market intelligence: 1) Blue-chip analysis with floor price predictions, 2) Emerging categories (AI art, utility tokens, gaming assets), 3) Market sentiment indicators, 4) Liquidity analysis across marketplaces, 5) Upcoming drops and mint strategies with ROI projections."
    end
  else
    match level with
    | basic => "I'm an AI agent powered by DAT subscriptions. I can help with basic crypto and blockchain questions."
    | premium => "I'm an advanced AI agent with access to real-time market data, DeFi protocols, and NFT analytics. I can provide detailed investment strategies and risk assessments."
    | enterprise => "I'm an enterprise-grade AI agent with comprehensive blockchain intelligence, advanced analytics, and institutional-level insights. I provide detailed market analysis, risk modeling, and strategic recommendations."
    end.

(** [generateEnhancedAIResponse(query, accessLevel)] *)
Definition generateEnhancedAIResponse (query : string) (level : AccessLevel)
    : AIResponse :=
  let lowerQuery := JsString.toLowerCase query in
  let '(responseCategory, conf) :=
    if JsString.includes lowerQuery "defi" || JsString.includes lowerQuery "yield"
    then ("defi", 90)
    else if JsString.includes lowerQuery "nft" then ("nft", 85)
    else ("default", 70) in
  {| content := responses responseCategory level;
     confidence := conf;
     sources := generateSources responseCategory level;
     verificationProof := None |}.

(** [confidence.toString()] for a number of hundredths between 0 and 1. *)
Definition confidenceToString (c : Z) : string :=
  if c =? 100 then "1"
  else if c =? 0 then "0"
  else if c mod 10 =? 0 then "0." ++ JsString.numberToString (c / 10)
  else if c <? 10 then "0.0" ++ JsString.numberToString c
  else "0." ++ JsString.numberToString c.

(** The object [proofData] of [generateVerificationProof]. *)
Definition proofData (context : QueryContext) (resp : AIResponse) : Json.value :=
  Json.Obj [("query", Json.Str (query context));
            ("response", Json.Str (content resp));
            ("timestamp", Json.Num (ctx_timestamp context));
            ("userAddress", Json.Str (userAddress context))].

(** The string [proof]: ZKP_ and the base64 of the JSON text. *)
Definition proofString (context : QueryContext) (resp : AIResponse) : string :=
  "ZKP_" ++ Base64.encode (Json.stringify (proofData context resp)).

(** [generateVerificationProof(context, response)] *)
Definition generateVerificationProof (context : QueryContext) (resp : AIResponse)
    : M VerificationProof :=
  let publicInputs :=
    [userAddress context; JsString.numberToString (ctx_timestamp context);
     confidenceToString (confidence resp)] in
  t <- Date_now ;;
  ret {| proof := proofString context resp; publicInputs := publicInputs;
         vp_timestamp := t |}.

(** [Math.floor] of a binary64 value as an integer (0 on NaN and on the
    infinities, which no call below produces). *)
Definition Math_floor (x : float) : Z :=
  match Prim2SF x with
  | S754_finite sign m e =>
      let q := if 0 <=? e then Z.pos m * 2 ^ e else Z.pos m / 2 ^ (- e) in
      let exact := if 0 <=? e then true else Z.pos m mod 2 ^ (- e) =? 0 in
      if sign then (if exact then - q else - q - 1) else q
  | _ => 0
  end.

Definition toFloat (n : Z) : float := PrimFloat.of_uint63 (Uint63.of_Z n).

(** The [baseCost] of [calculateUsageCost] before the discount. *)
Definition baseCostOf (query : string) : Z :=
  let baseCost := 1 in
  let baseCost := if JsString.length query >? 100 then baseCost + 1 else baseCost in
  let baseCost :=
    if JsString.includes query "analysis" || JsString.includes query "strategy"
    then baseCost + 1 else baseCost in
  baseCost.

(** [calculateUsageCost(query, accessLevel)]; [0x1.999999999999ap-1] is the
    binary64 value of the literal [0.8]. *)
Definition calculateUsageCost (query : string) (level : AccessLevel) : Z :=
  let baseCost := baseCostOf query in
  match level with
  | enterprise => Z.max 1 (Math_floor (toFloat baseCost * 0.5)%float)
  | premium => Z.max 1 (Math_floor (toFloat baseCost * 0x1.999999999999ap-1)%float)
  | basic => baseCost
  end.

(** Pricing in the words of the specification: a base unit, one unit more
    for a payload longer than the threshold, one more for an
    expensive-content keyword, then the discount of the tier as a fraction,
    rounded down and never below one unit. *)
Definition discountOf (level : AccessLevel) : Z * Z :=
  match level with
  | basic => (1, 1)
  | premium => (4, 5)
  | enterprise => (1, 2)
  end.

Definition priceBySpec (query : string) (level : AccessLevel) : Z :=
  let long := if 100 <? JsString.length query then 1 else 0 in
  let expensive :=
    if JsString.includes query "analysis" || JsString.includes query "strategy"
    then 1 else 0 in
  let '(num, den) := discountOf level in
  Z.max 1 ((1 + long + expensive) * num / den).

(** [consumeUsageWithLogging(userAddress, amount, context)] *)
Definition consumeUsageWithLogging (user : string) (amount : Z)
    (context : QueryContext) : M string :=
  c <- getContract ;;
  match c with
  | None =>
      emit (Console "[AI Agent] Demo mode - simulated usage consumed") ;;;
      t <- Date_now ;;
      ret ("demo_tx_" ++ JsString.numberToString t)
  | Some ledger =>
      match consumeUsage ledger user amount with
      | Some (hash, ledger') =>
          emit (LedgerCommit user amount true) ;;;
          setContract ledger' ;;;
          emit (Console "[AI Agent] Usage consumed") ;;;
          ret hash
      | None =>
          emit (LedgerCommit user amount false) ;;;
          emit (Console "Error consuming usage:") ;;;
          emit (Console "[AI Agent] Fallback - simulated usage consumed") ;;;
          t <- Date_now ;;
          ret ("fallback_tx_" ++ JsString.numberToString t)
      end
  end.

(** [logSecurityEvent(eventType, context, error)]; the time of the line
    is one more reading of the clock. *)
Definition logSecurityEvent (eventType : string) (context : QueryContext) : M unit :=
  t <- Date_now ;;
  emit (SecurityLog eventType t context).

(** [logSuccessfulQuery(context, response, usageConsumed)] *)
Definition logSuccessfulQuery (context : QueryContext) (resp : AIResponse)
    (used : Z) : M unit :=
  t <- Date_now ;;
  emit (QueryLog t context used).

Definition failure (msg : option string) : QueryResult :=
  {| success := false; response := None; error := msg;
     usageConsumed := None; transactionHash := None |}.

(** The body of [processQuery] over the response generator it calls:
    [respond] is [generateEnhancedAIResponse], with [None] for a call
    that throws. *)
Definition processQueryWith (respond : string -> AccessLevel -> option AIResponse)
    (user q session : string) : M QueryResult :=
  t0 <- Date_now ;;
  let queryContext :=
    {| userAddress := user; query := q; ctx_timestamp := t0; sessionId := session |} in
  accessCheck <- verifyAccess user false ;;
  if negb (hasAccess accessCheck) then
    logSecurityEvent "ACCESS_DENIED" queryContext ;;;
    ret (failure (Some "Access denied. Please purchase a valid DAT subscription to access the AI agent."))
  else if remainingUsage accessCheck =? 0 then
    logSecurityEvent "QUOTA_EXCEEDED" queryContext ;;;
    ret (failure (Some "Usage quota exceeded. Please upgrade your subscription or wait for renewal."))
  else
    let validationResult := validateQuery q (accessLevel accessCheck) in
    if negb (valid validationResult) then
      ret (failure (validationError validationResult))
    else
      teeResult <- processTEE queryContext (accessLevel accessCheck) ;;
      emit (Generate q (accessLevel accessCheck)) ;;;
      match respond q (accessLevel accessCheck) with
      | Some aiResponse =>
          vp <- generateVerificationProof queryContext aiResponse ;;
          let resp :=
            {| content := content aiResponse; confidence := confidence aiResponse;
               sources := sources aiResponse; verificationProof := Some vp |} in
          let usageAmount := calculateUsageCost q (accessLevel accessCheck) in
          txHash <- consumeUsageWithLogging user usageAmount queryContext ;;
          cacheDelete (JsString.toLowerCase user) ;;;
          logSuccessfulQuery queryContext resp usageAmount ;;;
          ret {| success := true; response := Some resp; error := None;
                 usageConsumed := Some usageAmount; transactionHash := Some txHash |}
      | None =>
          emit (Console "Error processing query:") ;;;
          logSecurityEvent "PROCESSING_ERROR" queryContext ;;;
          ret (failure (Some "Failed to process query. Please try again later."))
      end.

(** The first two steps of [processQuery]: the reading of the clock for the
    context of the query, then the access check. *)
Definition accessCheck (user : string) : M AccessControlResult :=
  t0 <- Date_now ;; verifyAccess user false.

(** [processQuery(userAddress, query, sessionId)] *)
Definition processQuery (user q session : string) : M QueryResult :=
  processQueryWith (fun q' level => Some (generateEnhancedAIResponse q' level))
    user q session.

(** [getUsageStats(userAddress)] *)
Definition getUsageStats (user : string) : M AccessControlResult :=
  verifyAccess user false.

(** [verifyResponse(proof, response)]: a text that does not parse, and a
    parsed [null], end in the [catch]; a property that is missing or is
    not that string fails the comparison. *)
Definition verifyResponse (p : VerificationProof) (resp : string) : bool :=
  match Json.parse (Base64.decode (JsString.replace "ZKP_" "" (proof p))) with
  | Some (Json.Obj ms) =>
      match Json.getProperty "response" ms with
      | Some (Json.Str s) => String.eqb s resp
      | _ => false
      end
  | _ => false
  end.

End Agent.

Arguments World : clear implicits.
Arguments M : clear implicits.

End AIAgent.

(** ** The class [BillingManager]: the usage events *)

Module BillingManager.

(** An event of the log as [queryFilter] gives it; [args] and its members
    may be missing. *)
Record EventArgs := {
  user : option string;
  tokenId : option Z;
  amount : option Z
}.

Record Log := {
  blockNumber : Z;
  args : option EventArgs;
  transactionHash : string
}.

(** [timestamp], the reading of the clock divided by 1000, is held by that
    reading, in milliseconds. *)
Record UsageEvent := {
  id : string;
  userAddress : string;
  usage_tokenId : string;
  usageAmount : Z;
  timestamp : Z;
  usage_transactionHash : string;
  queryType : string;
  cost : Z
}.

(** The manager and the chain behind it: [eventCache] under its keys
    [usage_...]; [logs] gives what the query number [n] of the log answers
    from a block on, [None] when the call throws; [asked] lists the queries
    made. *)
Record State := {
  eventCache : gmap string (list UsageEvent);
  clock : nat -> Z;
  ticks : nat;
  logs : nat -> Z -> option (list Log);
  asked : list Z
}.

Section Billing.

(** [amount.toNumber()] of the version of ethers in use; [None] when it
    throws. *)
Variable toNumber : Z -> option Z.

(** [event.args?.amount?.toNumber() || 0] *)
Definition amountOf (event : Log) : option Z :=
  match args event with
  | Some a =>
      match amount a with
      | Some v => toNumber v
      | None => Some 0
      end
  | None => Some 0
  end.

(** The callback of [events.map] in [getUsageEvents], run on the events from
    the index [index] on; every event built reads the clock once. The first
    component is [None] when a [toNumber] throws. *)
Fixpoint usageEventsOf (events : list Log) (index : nat) (now : nat -> Z) (t : nat)
    : option (list UsageEvent) * nat :=
  match events with
  | [] => (Some [], t)
  | event :: rest =>
      match amountOf event with
      | None => (None, t)
      | Some n =>
          let usageEvent :=
            {| id := "usage_" ++ JsString.numberToString (blockNumber event) ++ "_"
                     ++ JsString.numberToString (Z.of_nat index);
               userAddress :=
                 match args event with
                 | Some a => default "" (user a)
                 | None => ""
                 end;
               usage_tokenId :=
                 match args event with
                 | Some a =>
                     match tokenId a with
                     | Some i => JsString.numberToString i
                     | None => ""
                     end
                 | None => ""
                 end;
               usageAmount := n;
               timestamp := now t;
               usage_transactionHash := transactionHash event;
               queryType := "ai_query";
               cost := n |} in
          let '(built, t') := usageEventsOf rest (S index) now (S t) in
          (option_map (cons usageEvent) built, t')
      end
  end.

(** [getUsageEvents(fromBlock)] *)
Definition getUsageEvents (fromBlock : Z) (s : State) : list UsageEvent * State :=
  let cacheKey := "usage_" ++ JsString.numberToString fromBlock in
  match eventCache s !! cacheKey with
  | Some cached => (cached, s)
  | None =>
      let queried := (asked s ++ [fromBlock])%list in
      match logs s (List.length (asked s)) fromBlock with
      | Some events =>
          match usageEventsOf events 0 (clock s) (ticks s) with
          | (Some usageEvents, t) =>
              (usageEvents,
               {| eventCache := <[cacheKey := usageEvents]> (eventCache s);
                  clock := clock s; ticks := t; logs := logs s; asked := queried |})
          | (None, t) =>
              ([], {| eventCache := eventCache s; clock := clock s; ticks := t;
                      logs := logs s; asked := queried |})
          end
      | None =>
          ([], {| eventCache := eventCache s; clock := clock s; ticks := ticks s;
                  logs := logs s; asked := queried |})
      end
  end.

(** [getUserUsageEvents(userAddress)] *)
Definition getUserUsageEvents (address : string) (s : State)
    : list UsageEvent * State :=
  let '(allEvents, s) := getUsageEvents 0 s in
  (List.filter (fun event =>
                  String.eqb (JsString.toLowerCase (userAddress event))
                    (JsString.toLowerCase address)) allEvents,
   s).

(** [clearCache()] *)
Definition clearCache (s : State) : State :=
  {| eventCache := ∅; clock := clock s; ticks := ticks s; logs := logs s;
     asked := asked s |}.

End Billing.

End BillingManager.

(** ** Sample worlds *)

Module Samples.

Import AIAgent.

(** A clock that advances by one second from a reading to the next. *)
Definition tickClock (n : nat) : Z := 1000 * Z.of_nat n.

(** An agent that has answered nothing yet, on the contract [c]. *)
Definition freshWorld {L : Type} (c : option L) : World L :=
  {| contract := c; accessCache := ∅; clock := tickClock; ticks := 0; trace := [] |}.

Definition monthly (remaining : Z) : Subscription :=
  {| isValid := true; sub_tokenId := 7; sub_expiryTime := 1900000000;
     sub_remainingUsage := remaining; sub_tierName := "Monthly Access" |}.

(** The record [verifyAccess] builds from [monthly remaining]. *)
Definition monthlyRecord (remaining : Z) : AccessControlResult :=
  {| hasAccess := true; tokenId := "7"; remainingUsage := remaining;
     expiryTime := 1900000000; tierName := "Monthly Access";
     accessLevel := premium |}.

Definition noSubscription : Subscription :=
  {| isValid := false; sub_tokenId := 0; sub_expiryTime := 0;
     sub_remainingUsage := 0; sub_tierName := "" |}.

(** [toNumber] of a [BigNumber]: it throws above the largest safe
    integer. *)
Definition safeNumber (v : Z) : option Z :=
  if v <=? 2 ^ 53 - 1 then Some v else None.

(** A scripted contract whose transactions all succeed, with the numbers of
    ethers 5. *)
Definition scripted (answer : string -> option Subscription) : Scripted :=
  {| reads := answer; commits := fun _ _ => Some "0xfeed"; numbers := safeNumber |}.

(** A contract that throws on every read. *)
Definition unreachable : Scripted := scripted (fun _ => None).

(** A contract whose binding takes an address in lower case only and throws
    on any other spelling, as a binding that checks the mixed-case checksum
    of an address does. *)
Definition strictCase : Scripted :=
  scripted (fun user =>
              if String.eqb user (JsString.toLowerCase user)
              then Some (monthly 100) else None).

(** An address, in lower case and in upper case; the binding takes both
    spellings. *)
Definition holder : string := "0x52908400098527886e0f7030069857d2e4169ee7".

Definition HOLDER : string := "0x52908400098527886E0F7030069857D2E4169EE7".

Fixpoint anyChar (test : ascii -> bool) (text : string) : bool :=
  match text with
  | EmptyString => false
  | String c rest => test c || anyChar test rest
  end.

(** A binding for the samples: it takes the texts made of [0x] and 40
    hexadecimal digits whose letters are all in one case, and refuses every
    other text. (The binding of ethers takes in mixed case the one spelling
    that carries the checksum of the address, which asks for a hash that the
    repository does not hold.) *)
Definition plainAddress (text : string) : option string :=
  let isUpper c := let n := nat_of_ascii c in Nat.leb 65 n && Nat.leb n 70 in
  let isLower c := let n := nat_of_ascii c in Nat.leb 97 n && Nat.leb n 102 in
  let digits := JsString.drop 2 text in
  if SecurityManager.isValidAddress text
     && negb (anyChar isUpper digits && anyChar isLower digits)
  then Some (JsString.toLowerCase text) else None.

(** The deployed contract with one tier and one token of it, held by
    [holder], with [remaining] units left, at block time [now]; the agent
    signs as the owner, through the sample binding and the numbers of
    ethers 5. *)
Definition trialChain (remaining now : Z) : DataAnchoringToken.state :=
  {| DataAnchoringToken.subscriptionTiers :=
       {[ 1 := {| DataAnchoringToken.name := "7-Day Trial";
                  DataAnchoringToken.duration := 604800;
                  DataAnchoringToken.price := 10 ^ 16;
                  DataAnchoringToken.usageQuota := 50;
                  DataAnchoringToken.active := true |} ]};
     DataAnchoringToken.tokenMetadata :=
       {[ 1 := {| DataAnchoringToken.tierId := 1;
                  DataAnchoringToken.expiryTime := 604800;
                  DataAnchoringToken.remainingUsage := remaining;
                  DataAnchoringToken.contributors := [];
                  DataAnchoringToken.revenueShares := [] |} ]};
     DataAnchoringToken.userTokens := {[ holder := [1] ]};
     DataAnchoringToken.balances := {[ (1, holder) := 1 ]};
     DataAnchoringToken.owner := "0x0a";
     DataAnchoringToken.block_timestamp := now |}.

Definition trialLedger (remaining now : Z) : Deployed :=
  {| chain := trialChain remaining now; signer := "0x0a"; nonce := 0;
     addressOf := plainAddress; safe := fun v => v <=? 2 ^ 53 - 1 |}.

(** The same through the [bigint] of ethers 6: no conversion goes
    through. *)
Definition bigintLedger (remaining now : Z) : Deployed :=
  {| chain := trialChain remaining now; signer := "0x0a"; nonce := 0;
     addressOf := plainAddress; safe := fun _ => false |}.

(** A response generator that throws. *)
Definition failingResponder (q : string) (level : AccessLevel) : option AIResponse := None.

(** A billing manager that has asked nothing yet, on a log of two usage
    events, by one user under two spellings of its address; [second] is the
    amount of the second event. *)
Definition billing (second : Z) : BillingManager.State :=
  {| BillingManager.eventCache := ∅;
     BillingManager.clock := tickClock;
     BillingManager.ticks := 0;
     BillingManager.logs := fun _ _ =>
       Some [ {| BillingManager.blockNumber := 12;
                 BillingManager.args :=
                   Some {| BillingManager.user := Some "0xAbC";
                           BillingManager.tokenId := Some 1;
                           BillingManager.amount := Some 2 |};
                 BillingManager.transactionHash := "0x01" |};
              {| BillingManager.blockNumber := 15;
                 BillingManager.args :=
                   Some {| BillingManager.user := Some "0xabc";
                           BillingManager.tokenId := Some 1;
                           BillingManager.amount := Some second |};
                 BillingManager.transactionHash := "0x02" |} ];
     BillingManager.asked := [] |}.

(** A wallet manager connected to the main network, with one listener of
    [chainChanged]. *)
Definition connected : WalletManager.Manager :=
  {| WalletManager.listeners := {[ "chainChanged" := [7%nat] ]};
     WalletManager.state :=
       {| WalletManager.isConnected := true;
          WalletManager.address := Some "0xabc";
          WalletManager.balance := "0";
          WalletManager.chainId := Some (JsNumber.Int 1);
          WalletManager.provider := Some WalletManager.metamask;
          WalletManager.isConnecting := false;
          WalletManager.error := None |};
     WalletManager.calls := [] |}.

(** The contract deployed by [0x0a] at time 100, after the creation of one
    tier of 30 days and 100 units at 0.1 ether. *)
Definition shop : DataAnchoringToken.storage :=
  default (DataAnchoringToken.deployed "0x0a" 100)
    (DataAnchoringToken.createSubscriptionTier (DataAnchoringToken.deployed "0x0a" 100)
       "0x0a" "Monthly Access" 2592000 (10 ^ 17) 100 ["0xc1"; "0xc2"] [60; 40]).

(** The same after a mint by [0xabc], and after a second one. *)
Definition minted : DataAnchoringToken.storage :=
  default shop (DataAnchoringToken.mintDAT shop "0xabc" (10 ^ 17) 1).

Definition mintedTwice : DataAnchoringToken.storage :=
  default minted (DataAnchoringToken.mintDAT minted "0xabc" (2 * 10 ^ 17) 1).

End Samples.

(** * Properties *)

(** ** Strings *)

Lemma lowerChar_idempotent (c : ascii) :
  JsString.lowerChar (JsString.lowerChar c) = JsString.lowerChar c.
Proof. destruct c as [[] [] [] [] [] [] [] []]; reflexivity. Qed.

Lemma toLowerCase_idempotent (s : string) :
  JsString.toLowerCase (JsString.toLowerCase s) = JsString.toLowerCase s.
Proof.
  induction s as [|c s IH]; simpl; [reflexivity|].
  now rewrite lowerChar_idempotent, IH.
Qed.

(** ** The rate limiter *)

Section RateLimiter.

Import SecurityManager.

Variables (userAddress : string) (maxRequests windowMs : Z).

Let key := JsString.toLowerCase userAddress.

(** A check that finds no entry, or an entry whose window is over, opens a
    window and is allowed. *)
Lemma checkRateLimit_opens now (m : gmap string RateEntry) :
  windowOpen now userAddress m = false ->
  checkRateLimit now userAddress maxRequests windowMs m
  = ({| allowed := true; remaining := maxRequests - 1; resetAt := now + windowMs |},
     <[key := {| count := 1; resetTime := now + windowMs |}]> m).
Proof.
  unfold checkRateLimit, windowOpen. fold key.
  destruct (m !! key) as [e|]; [|reflexivity].
  destruct (now >? resetTime e); [reflexivity | discriminate].
Qed.

(** Inside a window the answer is the comparison of the count with the
    limit, and the window itself stays. *)
Lemma checkRateLimit_inside now (m : gmap string RateEntry) c R :
  m !! key = Some {| count := c; resetTime := R |} ->
  now <= R ->
  let '(r, m') := checkRateLimit now userAddress maxRequests windowMs m in
  allowed r = (c <? maxRequests)
  /\ m' !! key = Some {| count := if c <? maxRequests then c + 1 else c; resetTime := R |}.
Proof.
  intros Hm Hle. unfold checkRateLimit. fold key. rewrite Hm. simpl.
  destruct (Z.gtb_spec now R); [lia|].
  destruct (Z.geb_spec c maxRequests), (Z.ltb_spec c maxRequests); try lia; simpl.
  - split; [reflexivity | exact Hm].
  - split; [reflexivity | apply lookup_insert_eq].
Qed.

Lemma checkAll_inside (times : list Z) :
  forall (m : gmap string RateEntry) c R,
    m !! key = Some {| count := c; resetTime := R |} ->
    Forall (fun t => t <= R) times ->
    (exists c', snd (checkAll userAddress maxRequests windowMs times m) !! key
                = Some {| count := c'; resetTime := R |})
    /\ forall i, (i < List.length times)%nat ->
         fst (checkAll userAddress maxRequests windowMs times m) !! i
         = Some (c + Z.of_nat i <? maxRequests).
Proof.
  induction times as [|t ts IH]; intros m c R Hm Hall; simpl.
  - split; [eauto | intros i Hi; lia].
  - inversion Hall as [|? ? Ht Hts]; subst.
    pose proof (checkRateLimit_inside t m c R Hm Ht) as Hstep.
    destruct (checkRateLimit t userAddress maxRequests windowMs m) as [r m1].
    destruct Hstep as [Hal Hm1].
    destruct (IH m1 _ R Hm1 Hts) as [[c' Hfin] Hflags].
    destruct (checkAll userAddress maxRequests windowMs ts m1) as [rs m2]; simpl in *.
    split; [eauto|].
    intros [|i] Hi; simpl.
    + rewrite Hal. do 2 f_equal. lia.
    + rewrite Hflags by lia. f_equal.
      destruct (Z.ltb_spec c maxRequests);
        destruct (Z.ltb_spec (c + 1 + Z.of_nat i) maxRequests);
        destruct (Z.ltb_spec (c + Z.of_nat i) maxRequests);
        destruct (Z.ltb_spec (c + Z.of_nat (S i)) maxRequests); try reflexivity; lia.
Qed.

(** C5 (amended). For a limit of at least one request: a check that finds no
    window, or a window that is over, opens one; of the checks made until the
    reset time of that window (the opening one included, the reset time
    itself included), the first [maxRequests] are allowed and every later one
    is denied; a check strictly after the reset time is allowed again and
    opens a new window with the count restarted at one. *)
Theorem rate_limit_window (m : gmap string RateEntry) (now : Z) (later : list Z) :
  1 <= maxRequests ->
  windowOpen now userAddress m = false ->
  Forall (fun t => t <= now + windowMs) later ->
  let run := checkAll userAddress maxRequests windowMs (now :: later) m in
  (forall i, (i < S (List.length later))%nat ->
     fst run !! i = Some (Z.of_nat i <? maxRequests))
  /\ forall t, t > now + windowMs ->
       checkRateLimit t userAddress maxRequests windowMs (snd run)
       = ({| allowed := true; remaining := maxRequests - 1; resetAt := t + windowMs |},
          <[key := {| count := 1; resetTime := t + windowMs |}]> (snd run)).
Proof.
  intros Hmax Hopen Hall. simpl.
  rewrite (checkRateLimit_opens now m Hopen).
  set (m1 := <[key := {| count := 1; resetTime := now + windowMs |}]> m).
  assert (Hm1 : m1 !! key = Some {| count := 1; resetTime := now + windowMs |})
    by apply lookup_insert_eq.
  destruct (checkAll_inside later m1 1 (now + windowMs) Hm1 Hall) as [[c' Hfin] Hflags].
  destruct (checkAll userAddress maxRequests windowMs later m1) as [rs m2]; simpl in *.
  split.
  - intros [|i] Hi; simpl.
    + f_equal. symmetry. apply Z.ltb_lt. lia.
    + rewrite Hflags by lia. do 2 f_equal. lia.
  - intros t Ht. apply checkRateLimit_opens.
    unfold windowOpen. fold key. rewrite Hfin. simpl.
    destruct (Z.gtb_spec t (now + windowMs)); [reflexivity | lia].
Qed.

End RateLimiter.

(** [rate_limit_window] on a run: a limit of two, three checks in the window
    (the last one at the reset time), and a check after it. *)
Lemma rate_limit_window_witness :
  fst (SecurityManager.checkAll "0xAbC" 2 1000 [0; 5; 1000]
         (∅ : gmap string SecurityManager.RateEntry)) !! 2%nat = Some false
  /\ SecurityManager.allowed
       (fst (SecurityManager.checkRateLimit 1001 "0xAbC" 2 1000
               (snd (SecurityManager.checkAll "0xAbC" 2 1000 [0; 5; 1000]
                       (∅ : gmap string SecurityManager.RateEntry))))) = true.
Proof.
  assert (Hall : Forall (fun t => t <= 0 + 1000) [5; 1000])
    by (repeat constructor; lia).
  assert (Hopen : SecurityManager.windowOpen 0 "0xAbC"
                    (∅ : gmap string SecurityManager.RateEntry) = false)
    by (vm_compute; reflexivity).
  destruct (rate_limit_window "0xAbC" 2 1000 ∅ 0 [5; 1000]
              ltac:(lia) Hopen Hall) as [Hflags Hreset].
  split.
  - exact (Hflags 2%nat ltac:(simpl; lia)).
  - rewrite (Hreset 1001 ltac:(lia)). reflexivity.
Defined.

(** C5 as stated fails at the reset time itself: with a limit of one request
    and a window of 1000 ms opened at 0, the check at [now = 1000], where
    [now >= windowStart + windowLengthMs], is denied. *)
Lemma rate_limit_boundary_counterexample :
  let m1 := snd (SecurityManager.checkRateLimit 0 "0xabc" 1 1000 ∅) in
  SecurityManager.allowed (fst (SecurityManager.checkRateLimit 0 "0xabc" 1 1000 ∅)) = true
  /\ m1 !! "0xabc" = Some {| SecurityManager.count := 1; SecurityManager.resetTime := 0 + 1000 |}
  /\ SecurityManager.allowed (fst (SecurityManager.checkRateLimit 1000 "0xabc" 1 1000 m1)) = false.
Proof. vm_compute. repeat split; reflexivity. Qed.

(** ** Pricing *)

Lemma baseCostOf_range (q : string) :
  AIAgent.baseCostOf q = 1 \/ AIAgent.baseCostOf q = 2 \/ AIAgent.baseCostOf q = 3.
Proof.
  unfold AIAgent.baseCostOf.
  destruct (JsString.length q >? 100),
    (JsString.includes q "analysis" || JsString.includes q "strategy"); auto.
Qed.

(** C6. The cost is a function of the payload and the tier alone: it is the
    price of the specification (base unit 1, one more above 100 characters,
    one more for a keyword, times 1, 4/5 or 1/2 by tier, rounded down, at
    least 1), and it is a positive integer, between 1 and 3. *)
Theorem pricing_deterministic_positive (q : string) (level : AIAgent.AccessLevel) :
  AIAgent.calculateUsageCost q level = AIAgent.priceBySpec q level
  /\ 1 <= AIAgent.calculateUsageCost q level <= 3.
Proof.
  unfold AIAgent.calculateUsageCost, AIAgent.priceBySpec, AIAgent.baseCostOf.
  rewrite Z.gtb_ltb.
  destruct (100 <? JsString.length q),
    (JsString.includes q "analysis" || JsString.includes q "strategy"), level;
    vm_compute; (split; [reflexivity | split; discriminate]).
Qed.
(** ** The contract *)

Section Contract.

Import DataAnchoringToken.

(** A revert apart, [consumeUsage] debits the first valid token of the user,
    which holds at least [amount]. *)
Lemma consumeUsage_inv st sender user amount st' :
  consumeUsage st sender user amount = Some st' ->
  exists id, hasValidSubscription st user = (true, id)
             /\ amount <= remainingUsage (metadataAt st id)
             /\ st' = debit st id amount.
Proof.
  unfold consumeUsage.
  destruct (negb (String.eqb sender (owner st))); [discriminate|].
  destruct (hasValidSubscription st user) as [[] id]; simpl; [|discriminate].
  destruct (Z.geb_spec (remainingUsage (metadataAt st id)) amount); [|discriminate].
  intros [= <-]. exists id. split; [reflexivity | split; [lia | reflexivity]].
Qed.

(** The first valid token stays the first valid token while units remain on
    it after the debit. *)
Lemma firstValid_debit st user id amount (tokens : list Z) :
  firstValid st user tokens = (true, id) ->
  0 < remainingUsage (metadataAt st id) - amount ->
  firstValid (debit st id amount) user tokens = (true, id).
Proof.
  intros Hfirst Hleft. induction tokens as [|t ts IH]; [discriminate|].
  simpl in *. unfold balanceOf in *. simpl.
  destruct (default 0 (balances st !! (t, user)) >? 0); [|auto].
  destruct (Z.eq_dec t id) as [->|Hne].
  - unfold metadataAt at 1 2. simpl. rewrite lookup_insert_eq. simpl.
    destruct ((block_timestamp st <? expiryTime (metadataAt st id))
              && (remainingUsage (metadataAt st id) >? 0)) eqn:Hvalid.
    + apply andb_true_iff in Hvalid as [-> _]. simpl.
      destruct (Z.gtb_spec (remainingUsage (metadataAt st id) - amount) 0);
        [reflexivity | lia].
    + destruct (block_timestamp st <? expiryTime (metadataAt st id)); simpl.
      * destruct (Z.gtb_spec (remainingUsage (metadataAt st id) - amount) 0);
          [reflexivity | lia].
      * auto.
  - assert (Hsame : metadataAt (debit st id amount) t = metadataAt st t).
    { unfold metadataAt. simpl. now rewrite lookup_insert_ne. }
    rewrite Hsame.
    destruct ((block_timestamp st <? expiryTime (metadataAt st t))
              && (remainingUsage (metadataAt st t) >? 0)); [|auto].
    congruence.
Qed.

(** After a debit that leaves units on the token, the subscription reads as
    before with [amount] units less: the quota goes down by the cost and
    stays positive. *)
Lemma consumeUsage_debits st sender user amount st' id expiry remaining tier :
  consumeUsage st sender user amount = Some st' ->
  getUserSubscription st user = (true, id, expiry, remaining, tier) ->
  0 < remaining - amount ->
  getUserSubscription st' user = (true, id, expiry, remaining - amount, tier).
Proof.
  intros Hdebit Hbefore Hleft.
  destruct (consumeUsage_inv _ _ _ _ _ Hdebit) as (id' & Hvalid & Henough & ->).
  unfold getUserSubscription in *. rewrite Hvalid in Hbefore.
  injection Hbefore as <- <- <- <-.
  unfold hasValidSubscription in *.
  change (tokensOf (debit st id' amount) user) with (tokensOf st user).
  rewrite (firstValid_debit st user id' amount _ Hvalid Hleft).
  unfold metadataAt at 1 2 3. simpl. rewrite lookup_insert_eq. reflexivity.
Qed.

End Contract.

(** The same through the binding of the agent. *)
Lemma Deployed_consumeUsage_debits (d d' : Deployed) user amount hash sub :
  consumeUsage d user amount = Some (hash, d') ->
  getUserSubscription d user = Some sub ->
  0 < sub_remainingUsage sub - amount ->
  getUserSubscription d' user
  = Some {| isValid := isValid sub; sub_tokenId := sub_tokenId sub;
            sub_expiryTime := sub_expiryTime sub;
            sub_remainingUsage := sub_remainingUsage sub - amount;
            sub_tierName := sub_tierName sub |}.
Proof.
  simpl. intros Hdebit Hbefore Hleft.
  destruct (addressOf d user) as [account|] eqn:Haccount; [|discriminate].
  destruct (DataAnchoringToken.consumeUsage (chain d) (signer d) account amount)
    as [st'|] eqn:Hc; [|discriminate].
  injection Hdebit as _ <-. simpl. rewrite Haccount.
  destruct (DataAnchoringToken.getUserSubscription (chain d) account)
    as [[[[v id] expiry] remaining] tier] eqn:Hg.
  injection Hbefore as <-. simpl in *.
  destruct v.
  - now rewrite (consumeUsage_debits _ _ _ _ _ _ _ _ _ Hc Hg Hleft).
  - unfold DataAnchoringToken.getUserSubscription in Hg.
    destruct (consumeUsage_inv _ _ _ _ _ Hc) as (id' & Hvalid & _).
    rewrite Hvalid in Hg. discriminate.
Qed.

(** ** The agent *)

Import AIAgent.

Arguments verifyAccess : simpl never.

Ltac run_monad :=
  unfold bind, ret, Date_now, emit, getContract, setContract, cacheGet, cacheSet,
    cacheDelete; simpl.

Ltac run_access := unfold verifyAccess, cacheHit, ledgerRead, ledgerResult; run_monad.

Ltac run_query :=
  unfold processQuery, processQueryWith, accessCheck, consumeUsageWithLogging,
    generateVerificationProof, processTEE, logSecurityEvent, logSuccessfulQuery;
  run_monad.

Ltac filter_events :=
  rewrite ?List.filter_app; simpl; rewrite ?app_nil_r.

Section AgentProperties.

Context {L : Type} `{Ledger L}.

Implicit Types (w : World L) (user q session : string).
Implicit Types (respond : string -> AccessLevel -> option AIResponse).

(** *** The access check *)

Lemma verifyAccess_contract user f w :
  contract (snd (verifyAccess user f w)) = contract w.
Proof. run_access. repeat case_match; simplify_eq/=; reflexivity. Qed.

(** A hit costs one reading of the clock and nothing else. *)
Lemma verifyAccess_hit user w r :
  cacheHit user false w = Some r ->
  verifyAccess user false w = (r, snd (Date_now w)).
Proof.
  run_access. repeat case_match; simplify_eq/=; intros; simplify_eq; reflexivity.
Qed.

(** Only the entry of the address in lower case is ever written. *)
Lemma verifyAccess_other user f w k :
  k <> JsString.toLowerCase user ->
  accessCache (snd (verifyAccess user f w)) !! k = accessCache w !! k.
Proof.
  intros Hk. run_access.
  repeat case_match; simplify_eq/=; try reflexivity; by rewrite lookup_insert_ne.
Qed.

(** The access check commits nothing and generates nothing. *)
Lemma verifyAccess_events user f w :
  List.filter isCommit (trace (snd (verifyAccess user f w)))
  = List.filter isCommit (trace w)
  /\ List.filter isGenerate (trace (snd (verifyAccess user f w)))
     = List.filter isGenerate (trace w).
Proof.
  run_access. repeat case_match; simplify_eq/=; filter_events; auto.
Qed.

(** Without a hit: the contract, when there is one, is called exactly once,
    the answer is stored under the address in lower case, and it is the
    record made of the answer of the contract, or a demo record without a
    contract, or a fallback record when the call or a conversion throws. *)
Lemma verifyAccess_miss user f w :
  cacheHit user f w = None ->
  let r := verifyAccess user f w in
  List.filter isLedgerCall (trace (snd r))
  = (List.filter isLedgerCall (trace w)
     ++ match contract w with Some _ => [LedgerRead user] | None => [] end)%list
  /\ result <$> (accessCache (snd r) !! JsString.toLowerCase user) = Some (fst r)
  /\ match contract w with
     | None => exists t, fst r = mockResult t
     | Some _ =>
         match ledgerResult user w with
         | Some answer => fst r = answer
         | None => exists t, fst r = fallbackResult t
         end
     end.
Proof.
  run_access.
  repeat case_match; simplify_eq/=; intros; simplify_eq;
    filter_events; rewrite ?lookup_insert_eq; simpl; eauto.
Qed.

(** A read that throws leaves no record. *)
Lemma ledgerRead_fails user w :
  ledgerRead user w = None -> ledgerResult user w = None.
Proof.
  unfold ledgerRead, ledgerResult, readResult.
  destruct (contract w); [|reflexivity]. now intros ->.
Qed.

(** What the first two steps of [processQuery] leave as they were. *)
Lemma accessCheck_keeps user w :
  contract (snd (accessCheck user w)) = contract w
  /\ List.filter isCommit (trace (snd (accessCheck user w)))
     = List.filter isCommit (trace w)
  /\ List.filter isGenerate (trace (snd (accessCheck user w)))
     = List.filter isGenerate (trace w).
Proof.
  unfold accessCheck. run_monad.
  rewrite verifyAccess_contract.
  destruct (verifyAccess_events user false (snd (Date_now w))) as [Hc Hg].
  unfold Date_now in Hc, Hg. simpl in Hc, Hg. auto.
Qed.

(** *** The four ways out of [processQuery] before the commit *)

Lemma query_denied respond user q session w :
  hasAccess (fst (accessCheck user w)) = false ->
  let r := processQueryWith respond user q session w in
  fst r = failure (Some "Access denied. Please purchase a valid DAT subscription to access the AI agent.")
  /\ contract (snd r) = contract w
  /\ accessCache (snd r) = accessCache (snd (accessCheck user w))
  /\ List.filter isCommit (trace (snd r)) = List.filter isCommit (trace w)
  /\ List.filter isGenerate (trace (snd r)) = List.filter isGenerate (trace w).
Proof.
  pose proof (accessCheck_keeps user w) as (Hc & Hcm & Hg). revert Hc Hcm Hg.
  run_query. destruct (verifyAccess user false _) as [acc w2]; simpl.
  intros Hc Hcm Hg ->. simpl. filter_events. auto.
Qed.

Lemma query_exhausted respond user q session w :
  hasAccess (fst (accessCheck user w)) = true ->
  remainingUsage (fst (accessCheck user w)) = 0 ->
  let r := processQueryWith respond user q session w in
  fst r = failure (Some "Usage quota exceeded. Please upgrade your subscription or wait for renewal.")
  /\ contract (snd r) = contract w
  /\ accessCache (snd r) = accessCache (snd (accessCheck user w))
  /\ List.filter isCommit (trace (snd r)) = List.filter isCommit (trace w)
  /\ List.filter isGenerate (trace (snd r)) = List.filter isGenerate (trace w).
Proof.
  pose proof (accessCheck_keeps user w) as (Hc & Hcm & Hg). revert Hc Hcm Hg.
  run_query. destruct (verifyAccess user false _) as [acc w2]; simpl.
  intros Hc Hcm Hg -> ->. simpl. filter_events. auto.
Qed.

Lemma query_invalid respond user q session w :
  hasAccess (fst (accessCheck user w)) = true ->
  remainingUsage (fst (accessCheck user w)) <> 0 ->
  valid (validateQuery q (accessLevel (fst (accessCheck user w)))) = false ->
  processQueryWith respond user q session w
  = (failure (validationError (validateQuery q (accessLevel (fst (accessCheck user w))))),
     snd (accessCheck user w)).
Proof.
  run_query. destruct (verifyAccess user false _) as [acc w2]; simpl.
  intros -> Hrem ->. simpl.
  destruct (Z.eqb_spec (remainingUsage acc) 0); [contradiction | reflexivity].
Qed.

Lemma query_failed respond user q session w :
  hasAccess (fst (accessCheck user w)) = true ->
  remainingUsage (fst (accessCheck user w)) <> 0 ->
  valid (validateQuery q (accessLevel (fst (accessCheck user w)))) = true ->
  respond q (accessLevel (fst (accessCheck user w))) = None ->
  let r := processQueryWith respond user q session w in
  fst r = failure (Some "Failed to process query. Please try again later.")
  /\ contract (snd r) = contract w
  /\ accessCache (snd r) = accessCache (snd (accessCheck user w))
  /\ List.filter isCommit (trace (snd r)) = List.filter isCommit (trace w).
Proof.
  pose proof (accessCheck_keeps user w) as (Hc & Hcm & Hg). revert Hc Hcm Hg.
  run_query. destruct (verifyAccess user false _) as [acc w2]; simpl.
  intros Hc Hcm Hg -> Hrem -> ->. simpl.
  destruct (Z.eqb_spec (remainingUsage acc) 0); [contradiction|]. simpl.
  filter_events. auto.
Qed.

(** A query that succeeds has deleted the entry of the address in lower
    case; the ledger it leaves is the one the commit left. *)
Lemma query_success respond user q session w :
  success (fst (processQueryWith respond user q session w)) = true ->
  let r := processQueryWith respond user q session w in
  accessCache (snd r) !! JsString.toLowerCase user = None
  /\ forall ledger c, contract w = Some ledger -> usageConsumed (fst r) = Some c ->
       match consumeUsage ledger user c with
       | Some (hash, ledger') =>
           contract (snd r) = Some ledger' /\ transactionHash (fst r) = Some hash
       | None => contract (snd r) = Some ledger
       end.
Proof.
  pose proof (accessCheck_keeps user w) as (Hc & _). revert Hc.
  run_query. destruct (verifyAccess user false _) as [acc w2]; simpl.
  intros Hc.
  repeat (case_match; simplify_eq/=); try discriminate; intros _;
    (split; [apply lookup_delete_eq|]); intros ledger c Hl Hu;
    rewrite Hl in Hc; simplify_eq/=.
  all: match goal with
       | E : consumeUsage _ _ _ = _ |- _ => rewrite E; auto
       end.
Qed.


(** Reads in a row that find the entry young answer from it and touch
    nothing but the clock. *)
Lemma verifyAccessTimes_hit n : forall user w e,
  accessCache w !! JsString.toLowerCase user = Some e ->
  (forall i, (i < n)%nat ->
     clock w (ticks w + i)%nat - timestamp e < CACHE_DURATION) ->
  let r := verifyAccessTimes n user w in
  fst r = repeat (result e) n
  /\ trace (snd r) = trace w
  /\ accessCache (snd r) = accessCache w
  /\ contract (snd r) = contract w.
Proof.
  induction n as [|n IH]; intros user w e He Hyoung; simpl.
  - auto.
  - assert (Hhit : cacheHit user false w = Some (result e)).
    { unfold cacheHit. rewrite He.
      specialize (Hyoung 0%nat ltac:(lia)). rewrite Nat.add_0_r in Hyoung.
      destruct (Z.ltb_spec (clock w (ticks w) - timestamp e) CACHE_DURATION);
        [reflexivity | lia]. }
    unfold bind, ret. rewrite (verifyAccess_hit user w _ Hhit).
    set (w1 := snd (Date_now w)).
    destruct (IH user w1 e He) as (Hr & Ht & Hc & Hl).
    { intros i Hi. subst w1. simpl.
      replace (S (ticks w + i)) with (ticks w + S i)%nat by lia.
      apply Hyoung. lia. }
    destruct (verifyAccessTimes n user w1) as [rs w2].
    simpl in *. subst rs. auto.
Qed.

(** C1 (amended). A request against an entitlement that grants access with a
    remaining quota of 0 is rejected with the quota-exceeded error: the
    response generator is not called, no usage is committed and the ledger
    is as it was. *)
Theorem exhausted_quota_rejected respond user q session w :
  hasAccess (fst (accessCheck user w)) = true ->
  remainingUsage (fst (accessCheck user w)) = 0 ->
  let r := processQueryWith respond user q session w in
  success (fst r) = false
  /\ error (fst r)
     = Some "Usage quota exceeded. Please upgrade your subscription or wait for renewal."
  /\ response (fst r) = None
  /\ List.filter isGenerate (trace (snd r)) = List.filter isGenerate (trace w)
  /\ List.filter isCommit (trace (snd r)) = List.filter isCommit (trace w)
  /\ contract (snd r) = contract w.
Proof.
  intros Ha Hq. destruct (query_exhausted respond user q session w Ha Hq)
    as (Hr & Hc & _ & Hcm & Hg).
  simpl. rewrite Hr. simpl. repeat split; auto.
Qed.

(** C2 (amended). When no cached entry answers and the read of the ledger
    fails, [verifyAccess] returns an entitlement that grants access and
    stores it: the demo record (10 units, premium) without a valid contract,
    the fallback record (5 units, basic) when the call throws. *)
Theorem failed_read_grants_fallback user f w :
  cacheHit user f w = None ->
  ledgerRead user w = None ->
  let r := verifyAccess user f w in
  hasAccess (fst r) = true
  /\ (exists t, fst r = match contract w with
                        | None => mockResult t
                        | Some _ => fallbackResult t
                        end)
  /\ result <$> (accessCache (snd r) !! JsString.toLowerCase user) = Some (fst r).
Proof.
  intros Hmiss Hread.
  destruct (verifyAccess_miss user f w Hmiss) as (_ & Hstored & Hres).
  simpl. rewrite (ledgerRead_fails user w Hread) in Hres.
  destruct (contract w); destruct Hres as [t Ht]; rewrite Ht in *; eauto.
Qed.

(** C3. When the response generator throws, [processQuery] answers with a
    failure that carries no response and no usage; no commit is sent, the
    ledger is as it was, and the cache is as the access check left it: the
    entry of the subscriber is neither rewritten nor deleted. *)
Theorem execution_failure_keeps_quota respond user q session w :
  hasAccess (fst (accessCheck user w)) = true ->
  remainingUsage (fst (accessCheck user w)) <> 0 ->
  valid (validateQuery q (accessLevel (fst (accessCheck user w)))) = true ->
  respond q (accessLevel (fst (accessCheck user w))) = None ->
  let r := processQueryWith respond user q session w in
  success (fst r) = false
  /\ error (fst r) = Some "Failed to process query. Please try again later."
  /\ response (fst r) = None
  /\ usageConsumed (fst r) = None
  /\ List.filter isCommit (trace (snd r)) = List.filter isCommit (trace w)
  /\ contract (snd r) = contract w
  /\ accessCache (snd r) = accessCache (snd (accessCheck user w)).
Proof.
  intros Ha Hq Hv Hthrow.
  destruct (query_failed respond user q session w Ha Hq Hv Hthrow)
    as (Hr & Hc & Hcache & Hcm).
  simpl. rewrite Hr. simpl. repeat split; auto.
Qed.

(** C4 (amended). (1) Reads in a row without [forceRefresh], each less than
    60 s after the entry was stored, return the cached entitlement and call
    the ledger zero times (nothing is added to the trace; the cache and the
    ledger are untouched). (2) A query that succeeds leaves no entry for the
    subscriber, whatever the age of the entry. (3) After a commit that
    succeeded, the next read calls the ledger exactly once; it returns the
    record made of what the ledger holds after the debit when the call and
    the two conversions of its answer go through, and the fallback record
    when one of them throws. (4) On the deployed contract the answer of the
    ledger is the answer before the commit with the cost taken off its
    remaining quota, as long as units remain on the token. *)
Theorem cache_hits_and_invalidation :
  (forall n user w e,
     accessCache w !! JsString.toLowerCase user = Some e ->
     (forall i, (i < n)%nat ->
        clock w (ticks w + i)%nat - timestamp e < CACHE_DURATION) ->
     let r := verifyAccessTimes n user w in
     fst r = repeat (result e) n
     /\ trace (snd r) = trace w
     /\ accessCache (snd r) = accessCache w
     /\ contract (snd r) = contract w)
  /\ (forall respond user q session w,
       success (fst (processQueryWith respond user q session w)) = true ->
       accessCache (snd (processQueryWith respond user q session w))
         !! JsString.toLowerCase user = None)
  /\ (forall respond user q session w ledger c hash ledger',
       success (fst (processQueryWith respond user q session w)) = true ->
       contract w = Some ledger ->
       usageConsumed (fst (processQueryWith respond user q session w)) = Some c ->
       consumeUsage ledger user c = Some (hash, ledger') ->
       let w' := snd (processQueryWith respond user q session w) in
       let next := verifyAccess user false w' in
       contract w' = Some ledger'
       /\ List.filter isLedgerCall (trace (snd next))
          = (List.filter isLedgerCall (trace w') ++ [LedgerRead user])%list
       /\ (forall sub remaining expiry,
             getUserSubscription ledger' user = Some sub ->
             toNumber ledger' (sub_remainingUsage sub) = Some remaining ->
             toNumber ledger' (sub_expiryTime sub) = Some expiry ->
             fst next
             = {| hasAccess := isValid sub;
                  tokenId := JsString.numberToString (sub_tokenId sub);
                  remainingUsage := remaining;
                  expiryTime := expiry;
                  tierName := sub_tierName sub;
                  accessLevel := accessLevelOf (sub_tierName sub) |})
       /\ (forall sub,
             getUserSubscription ledger' user = Some sub ->
             toNumber ledger' (sub_remainingUsage sub) = None
             \/ toNumber ledger' (sub_expiryTime sub) = None ->
             exists t, fst next = fallbackResult t)
       /\ (getUserSubscription ledger' user = None ->
           exists t, fst next = fallbackResult t))
  /\ (forall (d d' : Deployed) user c hash sub,
       consumeUsage d user c = Some (hash, d') ->
       getUserSubscription d user = Some sub ->
       0 < sub_remainingUsage sub - c ->
       getUserSubscription d' user
       = Some {| isValid := isValid sub; sub_tokenId := sub_tokenId sub;
                 sub_expiryTime := sub_expiryTime sub;
                 sub_remainingUsage := sub_remainingUsage sub - c;
                 sub_tierName := sub_tierName sub |}).
Proof.
  split; [|split; [|split]]; [| | | exact Deployed_consumeUsage_debits].
  - intros n user w e He Hyoung.
    apply (verifyAccessTimes_hit n user w e He Hyoung).
  - intros respond user q session w Hs.
    apply (query_success respond user q session w Hs).
  - intros respond user q session w ledger c hash ledger' Hs Hl Hu Hcommit.
    destruct (query_success respond user q session w Hs) as [Hgone Hledger].
    specialize (Hledger ledger c Hl Hu). rewrite Hcommit in Hledger.
    destruct Hledger as [Hl' _]. simpl.
    set (w' := snd (processQueryWith respond user q session w)) in *.
    assert (Hmiss : cacheHit user false w' = None)
      by (unfold cacheHit; now rewrite Hgone).
    destruct (verifyAccess_miss user false w' Hmiss) as (Hcalls & _ & Hres).
    rewrite Hl' in Hcalls, Hres. unfold ledgerResult, readResult, resultOf in Hres.
    rewrite Hl' in Hres.
    split; [exact Hl' | split; [exact Hcalls|]].
    split; [|split].
    + intros sub remaining expiry Hsub Hremaining Hexpiry.
      now rewrite Hsub, Hremaining, Hexpiry in Hres.
    + intros sub Hsub Hthrow. rewrite Hsub in Hres.
      destruct (toNumber ledger' (sub_remainingUsage sub)); [|exact Hres].
      destruct Hthrow as [|Hexpiry]; [discriminate|]. now rewrite Hexpiry in Hres.
    + intros Hsub. now rewrite Hsub in Hres.
Qed.


(** C9 (amended). When the access check reads the ledger (a valid contract,
    and no cached entry young enough to answer), the ledger reports no valid
    subscription and the two numbers of its answer are converted without a
    throw, the query is rejected with the access-denied error: the response
    generator is not called, no usage is committed and the ledger is as it
    was. *)
Theorem no_subscription_no_access respond user q session w ledger sub :
  cacheHit user false (snd (Date_now w)) = None ->
  contract w = Some ledger ->
  ledgerRead user w = Some sub ->
  isValid sub = false ->
  toNumber ledger (sub_remainingUsage sub) <> None ->
  toNumber ledger (sub_expiryTime sub) <> None ->
  let r := processQueryWith respond user q session w in
  success (fst r) = false
  /\ error (fst r)
     = Some "Access denied. Please purchase a valid DAT subscription to access the AI agent."
  /\ response (fst r) = None
  /\ List.filter isGenerate (trace (snd r)) = List.filter isGenerate (trace w)
  /\ List.filter isCommit (trace (snd r)) = List.filter isCommit (trace w)
  /\ contract (snd r) = contract w.
Proof.
  intros Hmiss Hledger Hread Hinvalid Hremaining Hexpiry.
  assert (Ha : hasAccess (fst (accessCheck user w)) = false).
  { destruct (verifyAccess_miss user false (snd (Date_now w)) Hmiss) as (_ & _ & Hres).
    change (ledgerResult user (snd (Date_now w))) with (ledgerResult user w) in Hres.
    change (contract (snd (Date_now w))) with (contract w) in Hres.
    unfold ledgerRead in Hread. unfold ledgerResult, readResult, resultOf in Hres.
    rewrite Hledger in Hread, Hres. rewrite Hread in Hres.
    destruct (toNumber ledger (sub_remainingUsage sub)); [|contradiction].
    destruct (toNumber ledger (sub_expiryTime sub)); [|contradiction].
    change (accessCheck user w) with (verifyAccess user false (snd (Date_now w))).
    rewrite Hres. exact Hinvalid. }
  destruct (query_denied respond user q session w Ha) as (Hr & Hc & _ & Hcm & Hg).
  simpl. rewrite Hr. simpl. repeat split; auto.
Qed.

(** The access check of an address and of its lower-case spelling agree as
    soon as the contract answers the same for both. *)
Lemma verifyAccess_lower user f w :
  (forall ledger, contract w = Some ledger ->
     getUserSubscription ledger user
     = getUserSubscription ledger (JsString.toLowerCase user)) ->
  fst (verifyAccess user f w) = fst (verifyAccess (JsString.toLowerCase user) f w)
  /\ accessCache (snd (verifyAccess user f w))
     = accessCache (snd (verifyAccess (JsString.toLowerCase user) f w))
  /\ contract (snd (verifyAccess user f w))
     = contract (snd (verifyAccess (JsString.toLowerCase user) f w)).
Proof.
  intros Hsame. run_access. rewrite toLowerCase_idempotent.
  assert (Hread : forall ledger, contract w = Some ledger ->
            readResult ledger (JsString.toLowerCase user) = readResult ledger user).
  { intros ledger Hl. unfold readResult. now rewrite <- (Hsame ledger Hl). }
  destruct (accessCache w !! JsString.toLowerCase user) as [e|]; simpl.
  - destruct f; simpl.
    + destruct (contract w) as [ledger|] eqn:Hl; simpl; [|auto].
      rewrite (Hread ledger eq_refl).
      destruct (readResult ledger user); simpl; auto.
    + destruct (clock w (ticks w) - timestamp e <? CACHE_DURATION); simpl; [auto|].
      destruct (contract w) as [ledger|] eqn:Hl; simpl; [|auto].
      rewrite (Hread ledger eq_refl).
      destruct (readResult ledger user); simpl; auto.
  - destruct (contract w) as [ledger|] eqn:Hl; simpl; [|auto].
    rewrite (Hread ledger eq_refl).
    destruct (readResult ledger user); simpl; auto.
Qed.

(** C10 (amended). The keys are normalized, the argument of the contract is
    not. (1) [checkRateLimit] on an address is [checkRateLimit] on its
    lower-case spelling. (2) [verifyAccess] writes no entry but the one of the
    lower-case spelling, and stores there what it answers on a miss. (3) A
    query that succeeds deletes that same entry. (4) [verifyAccess] on an
    address and on its lower-case spelling give the same answer, cache and
    ledger when the contract answers the same for the two spellings (as it
    does on a hit, or without a contract, where it is not called). *)
Theorem address_keys_normalized :
  (forall now user maxRequests windowMs m,
     SecurityManager.checkRateLimit now user maxRequests windowMs m
     = SecurityManager.checkRateLimit now (JsString.toLowerCase user)
         maxRequests windowMs m)
  /\ (forall user f w,
       (forall k, k <> JsString.toLowerCase user ->
          accessCache (snd (verifyAccess user f w)) !! k = accessCache w !! k)
       /\ (cacheHit user f w = None ->
           result <$> (accessCache (snd (verifyAccess user f w))
                         !! JsString.toLowerCase user)
           = Some (fst (verifyAccess user f w))))
  /\ (forall respond user q session w,
       success (fst (processQueryWith respond user q session w)) = true ->
       accessCache (snd (processQueryWith respond user q session w))
         !! JsString.toLowerCase user = None)
  /\ (forall user f w,
       (forall ledger, contract w = Some ledger ->
          getUserSubscription ledger user
          = getUserSubscription ledger (JsString.toLowerCase user)) ->
       fst (verifyAccess user f w) = fst (verifyAccess (JsString.toLowerCase user) f w)
       /\ accessCache (snd (verifyAccess user f w))
          = accessCache (snd (verifyAccess (JsString.toLowerCase user) f w))
       /\ contract (snd (verifyAccess user f w))
          = contract (snd (verifyAccess (JsString.toLowerCase user) f w))).
Proof.
  split; [|split; [|split]].
  - intros now user maxRequests windowMs m. unfold SecurityManager.checkRateLimit.
    now rewrite toLowerCase_idempotent.
  - intros user f w. split.
    + intros k Hk. now apply verifyAccess_other.
    + intros Hmiss. apply (verifyAccess_miss user f w Hmiss).
  - intros respond user q session w Hs.
    apply (query_success respond user q session w Hs).
  - intros user f w Hsame. now apply verifyAccess_lower.
Qed.

End AgentProperties.

(** *** The theorems on sample worlds *)

Import Samples.

(** C1 as stated fails: on the deployed contract, a subscriber with 1 unit
    left sends a query priced 2; the query is executed and answered with
    success (the commit reverts and a fallback hash is returned). *)
Lemma quota_below_cost_counterexample :
  let w := freshWorld (Some (trialLedger 1 1000)) in
  let r := processQuery holder "market analysis" "s1" w in
  remainingUsage (fst (accessCheck holder w)) = 1
  /\ calculateUsageCost "market analysis" (accessLevel (fst (accessCheck holder w))) = 2
  /\ success (fst r) = true
  /\ usageConsumed (fst r) = Some 2
  /\ content <$> response (fst r)
     = Some "I'm an AI agent powered by DAT subscriptions. I can help with basic crypto and blockchain questions."
  /\ List.filter isGenerate (trace (snd r)) = [Generate "market analysis" basic]
  /\ List.filter isCommit (trace (snd r)) = [LedgerCommit holder 2 false].
Proof. vm_compute. repeat split; reflexivity. Qed.

(** [exhausted_quota_rejected] on a scripted contract that reports a valid
    subscription with no unit left. *)
Lemma exhausted_quota_rejected_witness :
  let w := freshWorld (Some (scripted (fun _ => Some (monthly 0)))) in
  let r := processQuery "0xAbC" "What is yield farming?" "s1" w in
  remainingUsage (fst (accessCheck "0xAbC" w)) = 0
  /\ success (fst r) = false
  /\ List.filter isGenerate (trace (snd r)) = [].
Proof.
  cbv zeta.
  destruct (@exhausted_quota_rejected Scripted Scripted_Ledger
              (fun q level => Some (generateEnhancedAIResponse q level))
              "0xAbC" "What is yield farming?" "s1"
              (freshWorld (Some (scripted (fun _ => Some (monthly 0)))))
              ltac:(vm_compute; reflexivity) ltac:(vm_compute; reflexivity))
    as (Hs & _ & _ & Hg & _).
  split; [vm_compute; reflexivity | split; [exact Hs | exact Hg]].
Defined.

(** C2 as stated fails: with an empty cache, both without a contract and
    with a contract whose read throws, the access check returns an
    entitlement that grants access. *)
Lemma ledger_failure_counterexample :
  let demo := freshWorld (None : option Scripted) in
  let down := freshWorld (Some unreachable) in
  accessCache demo !! "0xabc" = None
  /\ ledgerRead "0xabc" demo = None
  /\ hasAccess (fst (verifyAccess "0xabc" false demo)) = true
  /\ accessCache down !! "0xabc" = None
  /\ ledgerRead "0xabc" down = None
  /\ hasAccess (fst (verifyAccess "0xabc" false down)) = true.
Proof. vm_compute. repeat split; reflexivity. Qed.

(** [failed_read_grants_fallback] on a contract whose read throws. *)
Lemma failed_read_grants_fallback_witness :
  let w := freshWorld (Some unreachable) in
  hasAccess (fst (verifyAccess "0xabc" false w)) = true
  /\ remainingUsage (fst (verifyAccess "0xabc" false w)) = 5.
Proof.
  cbv zeta.
  destruct (@failed_read_grants_fallback Scripted Scripted_Ledger "0xabc" false
              (freshWorld (Some unreachable))
              ltac:(vm_compute; reflexivity) ltac:(vm_compute; reflexivity))
    as (Ha & [t Ht] & _).
  split; [exact Ha | rewrite Ht; reflexivity].
Defined.

(** [execution_failure_keeps_quota] on a response generator that throws, for
    a subscriber with 100 units. *)
Lemma execution_failure_keeps_quota_witness :
  let w := freshWorld (Some (scripted (fun _ => Some (monthly 100)))) in
  let r := processQueryWith failingResponder "0xAbC" "What is yield farming?" "s1" w in
  success (fst r) = false
  /\ List.filter isCommit (trace (snd r)) = []
  /\ contract (snd r) = contract w.
Proof.
  cbv zeta.
  destruct (@execution_failure_keeps_quota Scripted Scripted_Ledger failingResponder
              "0xAbC" "What is yield farming?" "s1"
              (freshWorld (Some (scripted (fun _ => Some (monthly 100)))))
              ltac:(vm_compute; reflexivity) ltac:(vm_compute; discriminate)
              ltac:(vm_compute; reflexivity) ltac:(reflexivity))
    as (Hs & _ & _ & _ & Hcm & Hl & _).
  split; [exact Hs | split; [exact Hcm | exact Hl]].
Defined.

(** C4 as stated fails: the subscriber holds more units than a number of
    JS holds exactly; the conversion of the quota throws, so the access
    check answers with the fallback record of 5 units; the query is
    executed, its commit of 2 units succeeds on the ledger and the entry is
    deleted; the next read calls the ledger and answers with the fallback
    record again, where the ledger holds 2 units less. Through the [bigint]
    of ethers 6 the same happens with 50 units. *)
Lemma unread_debit_counterexample :
  let w := freshWorld (Some (trialLedger (2 ^ 53 + 5) 1000)) in
  let r := processQuery HOLDER "market analysis" "s1" w in
  let next := verifyAccess HOLDER false (snd r) in
  let w' := freshWorld (Some (bigintLedger 50 1000)) in
  let r' := processQuery HOLDER "market analysis" "s1" w' in
  let next' := verifyAccess HOLDER false (snd r') in
  success (fst r) = true
  /\ List.filter isCommit (trace (snd r)) = [LedgerCommit HOLDER 2 true]
  /\ accessCache (snd r) !! holder = None
  /\ sub_remainingUsage <$> ledgerRead HOLDER (snd r) = Some (2 ^ 53 + 3)
  /\ List.filter isLedgerCall (trace (snd next))
     = [LedgerRead HOLDER; LedgerCommit HOLDER 2 true; LedgerRead HOLDER]
  /\ tokenId (fst next) = "fallback-1"
  /\ remainingUsage (fst next) = 5
  /\ success (fst r') = true
  /\ List.filter isCommit (trace (snd r')) = [LedgerCommit HOLDER 2 true]
  /\ sub_remainingUsage <$> ledgerRead HOLDER (snd r') = Some 48
  /\ tokenId (fst next') = "fallback-1"
  /\ remainingUsage (fst next') = 5.
Proof. vm_compute. repeat split; reflexivity. Qed.

(** [cache_hits_and_invalidation] on the deployed contract, for an address
    given in upper case: a first read caches 5 units, three reads hit the
    entry, a query priced 2 deletes it, and the next read asks the ledger
    and finds 3 units. *)
Lemma cache_hits_and_invalidation_witness :
  let w0 := freshWorld (Some (trialLedger 5 1000)) in
  let w1 := snd (getUsageStats HOLDER w0) in
  let w2 := snd (processQuery HOLDER "market analysis" "s1" w1) in
  remainingUsage <$> fst (verifyAccessTimes 3 holder w1) = [5; 5; 5]
  /\ List.filter isLedgerCall (trace (snd (verifyAccessTimes 3 holder w1)))
     = [LedgerRead HOLDER]
  /\ accessCache w2 !! holder = None
  /\ remainingUsage (fst (verifyAccess HOLDER false w2)) = 3
  /\ List.filter isLedgerCall (trace (snd (verifyAccess HOLDER false w2)))
     = [LedgerRead HOLDER; LedgerCommit HOLDER 2 true; LedgerRead HOLDER].
Proof.
  cbv zeta.
  destruct (@cache_hits_and_invalidation Deployed Deployed_Ledger)
    as (Hhits & Hgone & Hnext & _).
  set (w0 := freshWorld (Some (trialLedger 5 1000))).
  set (w1 := snd (getUsageStats HOLDER w0)).
  set (respond := fun q level => Some (generateEnhancedAIResponse q level)).
  set (e := {| result := {| hasAccess := true; tokenId := "1"; remainingUsage := 5;
                            expiryTime := 604800; tierName := "7-Day Trial";
                            accessLevel := basic |};
               timestamp := 0 |}).
  assert (He : accessCache w1 !! JsString.toLowerCase holder = Some e)
    by (vm_compute; reflexivity).
  assert (Hyoung : forall i, (i < 3)%nat ->
            clock w1 (ticks w1 + i)%nat - timestamp e < CACHE_DURATION).
  { intros [|[|[|i]]] Hi; [vm_compute; reflexivity .. | lia]. }
  destruct (Hhits 3%nat holder w1 e He Hyoung) as (Hr & Hcalls & _ & _).
  assert (Hs : success (fst (processQueryWith respond HOLDER "market analysis" "s1" w1))
               = true) by (vm_compute; reflexivity).
  pose proof (Hgone respond HOLDER "market analysis" "s1" w1 Hs) as Hdel.
  destruct (Hnext respond HOLDER "market analysis" "s1" w1 (trialLedger 5 1000) 2
              "0x0" {| chain := trialChain 3 1000; signer := "0x0a"; nonce := 1;
                       addressOf := plainAddress; safe := fun v => v <=? 2 ^ 53 - 1 |} Hs
              ltac:(reflexivity) ltac:(vm_compute; reflexivity) ltac:(reflexivity))
    as (_ & Hone & Hrec & _).
  split; [rewrite Hr; reflexivity|].
  split; [rewrite Hcalls; vm_compute; reflexivity|].
  split; [exact Hdel|].
  split.
  - unfold processQuery. fold respond.
    rewrite (Hrec {| isValid := true; sub_tokenId := 1; sub_expiryTime := 604800;
                     sub_remainingUsage := 3; sub_tierName := "7-Day Trial" |}
               3 604800
               ltac:(vm_compute; reflexivity) ltac:(vm_compute; reflexivity)
               ltac:(vm_compute; reflexivity)).
    reflexivity.
  - unfold processQuery. fold respond. rewrite Hone. vm_compute. reflexivity.
Defined.



(** C9 as stated fails: the subscription is read and cached while valid; the
    block time then passes its expiry, so the ledger reports no valid
    subscription; a query sent within the life of the cached entry is
    executed and answered with success. *)
Lemma stale_entry_counterexample :
  let w0 := freshWorld (Some (trialLedger 5 1000)) in
  let w1 := snd (getUsageStats holder w0) in
  let w2 := snd (setContract (trialLedger 5 700000) w1) in
  let r := processQuery holder "hello" "s1" w2 in
  isValid <$> ledgerRead holder w2 = Some false
  /\ success (fst r) = true
  /\ content <$> response (fst r)
     = Some "I'm an AI agent powered by DAT subscriptions. I can help with basic crypto and blockchain questions."
  /\ List.filter isGenerate (trace (snd r)) = [Generate "hello" basic].
Proof. vm_compute. repeat split; reflexivity. Qed.

(** Where a conversion throws, the answer of the ledger is not looked at:
    a contract that reports no valid subscription, with an expiry that is no
    safe integer, leaves the subscriber with the fallback record, and the
    query is executed. Through the [bigint] of ethers 6 the same happens on
    the deployed contract after the expiry of the only token of the
    subscriber. *)
Lemma unconverted_answer_grants_access :
  let answer := {| isValid := false; sub_tokenId := 0; sub_expiryTime := 2 ^ 60;
                   sub_remainingUsage := 0; sub_tierName := "" |} in
  let w := freshWorld (Some (scripted (fun _ => Some answer))) in
  let r := processQuery holder "hello" "s1" w in
  let w' := freshWorld (Some (bigintLedger 5 700000)) in
  let r' := processQuery holder "hello" "s1" w' in
  isValid <$> ledgerRead holder w = Some false
  /\ tokenId (fst (accessCheck holder w)) = "fallback-1"
  /\ success (fst r) = true
  /\ List.filter isGenerate (trace (snd r)) = [Generate "hello" basic]
  /\ isValid <$> ledgerRead holder w' = Some false
  /\ tokenId (fst (accessCheck holder w')) = "fallback-1"
  /\ success (fst r') = true
  /\ List.filter isGenerate (trace (snd r')) = [Generate "hello" basic]
  /\ List.filter isCommit (trace (snd r')) = [LedgerCommit holder 1 false].
Proof. vm_compute. repeat split; reflexivity. Qed.

(** [no_subscription_no_access] on the deployed contract, after the expiry
    of the only token of the subscriber. *)
Lemma no_subscription_no_access_witness :
  let w := freshWorld (Some (trialLedger 5 700000)) in
  let r := processQuery holder "hello" "s1" w in
  success (fst r) = false
  /\ List.filter isGenerate (trace (snd r)) = []
  /\ List.filter isCommit (trace (snd r)) = [].
Proof.
  cbv zeta.
  destruct (@no_subscription_no_access Deployed Deployed_Ledger
              (fun q level => Some (generateEnhancedAIResponse q level))
              holder "hello" "s1" (freshWorld (Some (trialLedger 5 700000)))
              (trialLedger 5 700000) noSubscription
              ltac:(vm_compute; reflexivity) eq_refl ltac:(vm_compute; reflexivity)
              ltac:(reflexivity) ltac:(vm_compute; discriminate)
              ltac:(vm_compute; discriminate))
    as (Hs & _ & _ & Hg & Hcm & _).
  split; [exact Hs | split; [exact Hg | exact Hcm]].
Defined.

(** C10 as stated fails: on a contract whose binding refuses an address
    that is not in lower case, [verifyAccess] on a mixed-case address falls
    back to the demo record (5 units), and on its lower-case spelling returns
    the record of the ledger (100 units). *)
Lemma address_case_counterexample :
  let w := freshWorld (Some strictCase) in
  remainingUsage (fst (verifyAccess "0xAbC" false w)) = 5
  /\ remainingUsage (fst (verifyAccess (JsString.toLowerCase "0xAbC") false w)) = 100.
Proof. vm_compute. split; reflexivity. Qed.

(** [address_keys_normalized] on a mixed-case address and a contract that
    answers the same for every spelling. *)
Lemma address_keys_normalized_witness :
  let w := freshWorld (Some (scripted (fun _ => Some (monthly 100)))) in
  SecurityManager.checkRateLimit 0 "0xAbC" 10 60000 ∅
  = SecurityManager.checkRateLimit 0 "0xabc" 10 60000 ∅
  /\ fst (verifyAccess "0xAbC" false w) = fst (verifyAccess "0xabc" false w)
  /\ accessCache (snd (processQuery "0xAbC" "hello" "s1" w)) !! "0xabc" = None.
Proof.
  cbv zeta.
  destruct (@address_keys_normalized Scripted Scripted_Ledger) as (Hrate & _ & Hdel & Hsame).
  split; [exact (Hrate 0 "0xAbC" 10 60000 ∅)|].
  split.
  - apply (Hsame "0xAbC" false
             (freshWorld (Some (scripted (fun _ => Some (monthly 100)))))).
    intros ledger Hl. injection Hl as <-. reflexivity.
  - apply (Hdel (fun q level => Some (generateEnhancedAIResponse q level))
             "0xAbC" "hello" "s1"
             (freshWorld (Some (scripted (fun _ => Some (monthly 100)))))).
    vm_compute. reflexivity.
Defined.

(** ** The base64 encoding *)

Lemma b64val_b64char (i : nat) :
  (i < 64)%nat -> Base64.b64val (Base64.b64char i) = Some i.
Proof.
  intros Hi.
  do 64 (destruct i as [|i]; [reflexivity|]). lia.
Qed.

Lemma b64char_not_pad (i : nat) :
  (i < 64)%nat -> Ascii.eqb (Base64.b64char i) Base64.pad = false.
Proof.
  intros Hi.
  do 64 (destruct i as [|i]; [reflexivity|]). lia.
Qed.

Lemma sextets_b64char (i : nat) (r : string) :
  (i < 64)%nat ->
  Base64.sextets (String (Base64.b64char i) r) = i :: Base64.sextets r.
Proof.
  intros Hi. simpl. now rewrite b64char_not_pad, b64val_b64char.
Qed.

Lemma nat_of_ascii_lt (c : ascii) : (nat_of_ascii c < 256)%nat.
Proof. destruct c as [[] [] [] [] [] [] [] []]; vm_compute; lia. Qed.

Lemma sextets_pad r : Base64.sextets (String Base64.pad r) = [].
Proof. reflexivity. Qed.

Ltac lia_div := zify; Z.to_euclidean_division_equations; lia.

(** The four sextets of three bytes and back. *)
Lemma sextet_arith (x y z : nat) :
  (x < 256 -> y < 256 -> z < 256 ->
   (x / 4 < 64 /\ x mod 4 * 16 + y / 16 < 64 /\ y mod 16 * 4 + z / 64 < 64 /\ z mod 64 < 64
    /\ x mod 4 * 16 < 64 /\ y mod 16 * 4 < 64)
   /\ x / 4 * 4 + (x mod 4 * 16 + y / 16) / 16 = x
   /\ (x mod 4 * 16 + y / 16) mod 16 * 16 + (y mod 16 * 4 + z / 64) / 4 = y
   /\ (y mod 16 * 4 + z / 64) mod 4 * 64 + z mod 64 = z
   /\ x / 4 * 4 + x mod 4 * 16 / 16 = x
   /\ (x mod 4 * 16 + y / 16) mod 16 * 16 + y mod 16 * 4 / 4 = y)%nat.
Proof. intros Hx Hy Hz. repeat split; lia_div. Qed.

Lemma decode_encode_le (n : nat) : forall s,
  (String.length s <= n)%nat -> Base64.decode (Base64.encode s) = s.
Proof.
  unfold Base64.decode.
  induction n as [n IH] using lt_wf_ind. intros s Hn.
  destruct s as [|a [|b [|c r]]]; [reflexivity | | |]; cbn [Base64.encode].
  - destruct (sextet_arith (nat_of_ascii a) 0 0 (nat_of_ascii_lt a) ltac:(lia) ltac:(lia))
      as ((H1 & _ & _ & _ & H2 & _) & _ & _ & _ & E1 & _).
    rewrite !sextets_b64char, sextets_pad by assumption.
    cbn [Base64.bytesOf]. now rewrite E1, ascii_nat_embedding.
  - destruct (sextet_arith (nat_of_ascii a) (nat_of_ascii b) 0
                (nat_of_ascii_lt a) (nat_of_ascii_lt b) ltac:(lia))
      as ((H1 & H2 & _ & _ & _ & H3) & E1 & _ & _ & _ & E2).
    rewrite !sextets_b64char, sextets_pad by assumption.
    cbn [Base64.bytesOf]. now rewrite E1, E2, !ascii_nat_embedding.
  - destruct (sextet_arith (nat_of_ascii a) (nat_of_ascii b) (nat_of_ascii c)
                (nat_of_ascii_lt a) (nat_of_ascii_lt b) (nat_of_ascii_lt c))
      as ((H1 & H2 & H3 & H4 & _) & E1 & E2 & E3 & _).
    rewrite !sextets_b64char by assumption.
    cbn [Base64.bytesOf]. rewrite E1, E2, E3, !ascii_nat_embedding.
    do 3 f_equal. apply (IH (String.length r)); simpl in Hn; lia.
Qed.

Lemma decode_encode (s : string) : Base64.decode (Base64.encode s) = s.
Proof. now apply (decode_encode_le (String.length s)). Qed.

(** ** JSON *)

#[local] Arguments String.append : simpl nomatch.

Lemma append_assoc (a b c : string) : (a ++ b) ++ c = a ++ (b ++ c).
Proof. induction a as [|x a IH]; [reflexivity | simpl; f_equal; exact IH]. Qed.

(** A quoted text is read back up to its closing quote. *)
Lemma parseChars_escape (s rest : string) :
  Json.parseChars (Json.escape s ++ String Json.dquote rest) = Some (s, rest).
Proof.
  induction s as [|c s IH]; [reflexivity|].
  change (Json.escape (String c s)) with (Json.escapeChar c ++ Json.escape s).
  rewrite append_assoc.
  destruct c as [[] [] [] [] [] [] [] []];
    match goal with
    | |- context [Json.escapeChar ?c] =>
        let e := eval vm_compute in (Json.escapeChar c) in
        change (Json.escapeChar c) with e
    end;
    simpl; rewrite IH; reflexivity.
Qed.

(** The digits of a decimal number. *)
Lemma spanDigits_uint (u : Decimal.uint) (c : ascii) (rest : string) :
  Json.isDigit c = false ->
  Json.spanDigits (NilEmpty.string_of_uint u ++ String c rest)
  = (NilEmpty.string_of_uint u, String c rest).
Proof.
  intros Hc. induction u; simpl; rewrite ?IHu; try reflexivity.
  now rewrite Hc.
Qed.

Lemma wellFormedDigits_unorm (u : Decimal.uint) :
  Json.wellFormedDigits (NilEmpty.string_of_uint (Decimal.unorm u)) = true.
Proof.
  unfold Decimal.unorm.
  pose proof (DecimalFacts.nzhead_nonzero u) as Hnz.
  destruct (Decimal.nzhead u) as [|d|d|d|d|d|d|d|d|d|d]; try reflexivity;
    try (destruct d; reflexivity).
  now destruct (Hnz d).
Qed.

Lemma to_uint_unorm (p : positive) : Decimal.unorm (Pos.to_uint p) = Pos.to_uint p.
Proof.
  rewrite <- (DecimalPos.Unsigned.to_of (Pos.to_uint p)).
  now rewrite DecimalPos.Unsigned.of_to.
Qed.

(** The decimal text of an integer: an optional sign, then digits that read
    back as its absolute value. *)
Lemma numberToString_shape (n : Z) :
  exists u,
    JsString.numberToString n
    = (if n <? 0 then String "-" EmptyString else EmptyString) ++ NilEmpty.string_of_uint u
    /\ Json.wellFormedDigits (NilEmpty.string_of_uint u) = true
    /\ Z.of_uint u = Z.abs n.
Proof.
  unfold JsString.numberToString.
  destruct n as [|p|p]; simpl.
  - exists (Decimal.D0 Decimal.Nil). auto.
  - exists (Pos.to_uint p). split; [|split].
    + unfold NilZero.string_of_uint.
      pose proof (DecimalPos.Unsigned.to_uint_nonnil p).
      destruct (Pos.to_uint p); congruence.
    + rewrite <- to_uint_unorm. apply wellFormedDigits_unorm.
    + unfold Z.of_uint. now rewrite DecimalPos.Unsigned.of_to.
  - exists (Pos.to_uint p). split; [|split].
    + unfold NilZero.string_of_uint.
      pose proof (DecimalPos.Unsigned.to_uint_nonnil p).
      destruct (Pos.to_uint p); congruence.
    + rewrite <- to_uint_unorm. apply wellFormedDigits_unorm.
    + unfold Z.of_uint. now rewrite DecimalPos.Unsigned.of_to.
Qed.

Lemma parseNumber_numberToString (n : Z) (c : ascii) (rest : string) :
  Json.isDigit c = false ->
  Json.parseNumber (JsString.numberToString n ++ String c rest)
  = Some (n, String c rest).
Proof.
  intros Hc. destruct (numberToString_shape n) as (u & -> & Hwf & Hval).
  unfold Json.parseNumber.
  destruct (Z.ltb_spec n 0) as [Hneg|Hpos].
  - cbn [append Ascii.eqb Bool.eqb].
    rewrite (spanDigits_uint u c rest Hc), Hwf, NilEmpty.usu, Hval.
    do 2 f_equal. lia.
  - cbn [append].
    assert (Hfirst : match NilEmpty.string_of_uint u ++ String c rest with
                     | String a r =>
                         (if Ascii.eqb a "-" then (true, r)
                          else (false, NilEmpty.string_of_uint u ++ String c rest))
                     | EmptyString => (false, NilEmpty.string_of_uint u ++ String c rest)
                     end = (false, NilEmpty.string_of_uint u ++ String c rest)).
    { destruct u; simpl; try reflexivity.
      destruct c as [[] [] [] [] [] [] [] []]; try reflexivity; discriminate. }
    rewrite Hfirst.
    rewrite (spanDigits_uint u c rest Hc), Hwf, NilEmpty.usu, Hval.
    do 2 f_equal. lia.
Qed.

Lemma numberToString_head (n : Z) :
  exists h t, JsString.numberToString n = String h t
              /\ (Json.isDigit h = true \/ h = "-"%char).
Proof.
  destruct (numberToString_shape n) as (u & -> & Hwf & _).
  destruct (n <? 0); simpl.
  - eauto.
  - destruct u; simpl in *; try discriminate; eauto.
Qed.

(** A value that starts with a digit or a sign is read as a number. *)
Lemma parseValue_numeric_head (f : nat) (c : ascii) (r : string) :
  Json.isDigit c = true \/ c = "-"%char ->
  Json.parseValue (S f) (String c r)
  = match Json.parseNumber (String c r) with
    | Some (n, rest) => Some (Json.Num n, rest)
    | None => None
    end.
Proof.
  intros [Hc | ->]; [|reflexivity].
  destruct c as [[] [] [] [] [] [] [] []]; try discriminate Hc; reflexivity.
Qed.

Lemma parseValue_number (f : nat) (n : Z) (c : ascii) (rest : string) :
  Json.isDigit c = false ->
  Json.parseValue (S f) (JsString.numberToString n ++ String c rest)
  = Some (Json.Num n, String c rest).
Proof.
  intros Hc. destruct (numberToString_head n) as (h & t & Heq & Hnum).
  pose proof (parseNumber_numberToString n c rest Hc) as Hparse.
  rewrite Heq in *.
  change (String h t ++ String c rest) with (String h (t ++ String c rest)) in *.
  now rewrite (parseValue_numeric_head f h _ Hnum), Hparse.
Qed.

Lemma quote_append (s rest : string) :
  Json.quote s ++ rest = String Json.dquote (Json.escape s ++ String Json.dquote rest).
Proof. unfold Json.quote. simpl. now rewrite append_assoc. Qed.

(** A quoted text is read as that string. *)
Lemma parseValue_string (f : nat) (s rest : string) :
  Json.parseValue (S f) (Json.quote s ++ rest) = Some (Json.Str s, rest).
Proof. rewrite quote_append. simpl. now rewrite parseChars_escape. Qed.

(** A member followed by a comma, and the last member of an object. *)
Lemma parseMembers_more (f : nat) (k text rest rest' : string) v ms :
  Json.parseValue f (text ++ String "," rest) = Some (v, String "," rest) ->
  Json.parseMembers f rest = Some (ms, rest') ->
  Json.parseMembers (S f) (Json.quote k ++ String ":" (text ++ String "," rest))
  = Some ((k, v) :: ms, rest').
Proof.
  intros Hv Hms. rewrite quote_append. simpl.
  rewrite parseChars_escape. simpl. rewrite Hv. simpl. now rewrite Hms.
Qed.

Lemma parseMembers_last (f : nat) (k text rest : string) v :
  Json.parseValue f (text ++ String "}" rest) = Some (v, String "}" rest) ->
  Json.parseMembers (S f) (Json.quote k ++ String ":" (text ++ String "}" rest))
  = Some ([(k, v)], rest).
Proof.
  intros Hv. rewrite quote_append. simpl.
  rewrite parseChars_escape. simpl. now rewrite Hv.
Qed.

(** An object with a first member. *)
Lemma parseValue_object (f : nat) (k rest rest' : string) ms :
  Json.parseMembers f (Json.quote k ++ rest) = Some (ms, rest') ->
  Json.parseValue (S f) (String "{" (Json.quote k ++ rest)) = Some (Json.Obj ms, rest').
Proof.
  intros Hms. rewrite quote_append in *. simpl. now rewrite Hms.
Qed.

Lemma stringify_proofData (ctx : QueryContext) (resp : AIResponse) :
  Json.stringify (proofData ctx resp)
  = String "{"
      (Json.quote "query" ++ String ":"
         (Json.quote (query ctx) ++ String ","
            (Json.quote "response" ++ String ":"
               (Json.quote (content resp) ++ String ","
                  (Json.quote "timestamp" ++ String ":"
                     (JsString.numberToString (ctx_timestamp ctx) ++ String ","
                        (Json.quote "userAddress" ++ String ":"
                           (Json.quote (userAddress ctx) ++ String "}" EmptyString)))))))).
Proof.
  unfold proofData. simpl. unfold Json.quote. simpl.
  repeat (rewrite !append_assoc; simpl). reflexivity.
Qed.

(** The text of [proofData] is read back as [proofData]. *)
Lemma parse_proofData (ctx : QueryContext) (resp : AIResponse) :
  Json.parse (Json.stringify (proofData ctx resp)) = Some (proofData ctx resp).
Proof.
  unfold Json.parse.
  assert (Hlen : exists f, String.length (Json.stringify (proofData ctx resp))
                           = S (S (S (S (S f))))).
  { rewrite stringify_proofData. simpl. eauto. }
  destruct Hlen as [f ->]. rewrite stringify_proofData.
  rewrite (parseValue_object _ _ _ EmptyString
             [("query", Json.Str (query ctx)); ("response", Json.Str (content resp));
              ("timestamp", Json.Num (ctx_timestamp ctx));
              ("userAddress", Json.Str (userAddress ctx))]); [reflexivity|].
  apply parseMembers_more; [apply parseValue_string|].
  apply parseMembers_more; [apply parseValue_string|].
  apply parseMembers_more; [now apply parseValue_number|].
  apply parseMembers_last. apply parseValue_string.
Qed.

(** ** The receipt *)

Lemma replace_prefix (text : string) :
  JsString.replace "ZKP_" "" ("ZKP_" ++ text) = text.
Proof. reflexivity. Qed.

(** C7. The proof issued for a request context and a response verifies
    against the content of that response, and against no other text. *)
Theorem receipt_roundtrip {L : Type} `{Ledger L} (ctx : QueryContext)
    (resp : AIResponse) (w : World L) :
  let issued := fst (generateVerificationProof ctx resp w) in
  verifyResponse issued (content resp) = true
  /\ forall tampered, tampered <> content resp -> verifyResponse issued tampered = false.
Proof.
  assert (Hv : forall text,
            verifyResponse (fst (generateVerificationProof ctx resp w)) text
            = String.eqb (content resp) text).
  { intros text. unfold verifyResponse, generateVerificationProof, bind, ret, Date_now.
    cbn [fst proof]. unfold proofString.
    rewrite replace_prefix, decode_encode, parse_proofData. reflexivity. }
  simpl. split.
  - rewrite Hv. apply String.eqb_refl.
  - intros tampered Hne. rewrite Hv. apply String.eqb_neq. congruence.
Qed.

(** [receipt_roundtrip] on a query that holds quotes, and a response other
    than the one issued. *)
Lemma receipt_roundtrip_witness :
  let ctx := {| userAddress := "0xAbC"; query := "What about " ++ String Json.dquote "yield" ++ String Json.dquote "?";
                ctx_timestamp := 1700000000123; sessionId := "s1" |} in
  let resp := generateEnhancedAIResponse (query ctx) premium in
  let issued := fst (generateVerificationProof ctx resp (Samples.freshWorld (None : option Scripted))) in
  verifyResponse issued (content resp) = true
  /\ verifyResponse issued "I'm an AI agent." = false.
Proof.
  cbv zeta.
  destruct (@receipt_roundtrip Scripted Scripted_Ledger
              {| userAddress := "0xAbC"; query := "What about " ++ String Json.dquote "yield" ++ String Json.dquote "?";
                 ctx_timestamp := 1700000000123; sessionId := "s1" |}
              (generateEnhancedAIResponse ("What about " ++ String Json.dquote "yield" ++ String Json.dquote "?") premium)
              (Samples.freshWorld None)) as [Hsame Hother].
  split; [exact Hsame | apply Hother; vm_compute; discriminate].
Defined.

(** * Further properties *)

(** ** The security manager *)

(** X1. After an address is flagged, [isSuspiciousAddress] answers true for
    every spelling of it in upper and lower case, and answers as before for
    every other address: a flag is never lost and never spreads. *)
Theorem suspicious_flag_lookup (address reason other : string)
    (flagged : gset string) :
  SecurityManager.isSuspiciousAddress other
    (SecurityManager.flagSuspiciousAddress address reason flagged)
  = String.eqb (JsString.toLowerCase other) (JsString.toLowerCase address)
    || SecurityManager.isSuspiciousAddress other flagged.
Proof.
  unfold SecurityManager.isSuspiciousAddress, SecurityManager.flagSuspiciousAddress.
  destruct (String.eqb_spec (JsString.toLowerCase other) (JsString.toLowerCase address))
    as [->|Hne]; simpl.
  - apply bool_decide_eq_true, elem_of_union. left. now apply elem_of_singleton.
  - apply bool_decide_ext. rewrite elem_of_union, elem_of_singleton. tauto.
Qed.

Lemma isHexDigit_lower (c : ascii) :
  SecurityManager.isHexDigit c = true ->
  SecurityManager.isHexDigit (JsString.lowerChar c) = true.
Proof.
  destruct c as [[] [] [] [] [] [] [] []]; simpl; intros Hc;
    first [discriminate Hc | reflexivity].
Qed.

Lemma hexDigits_lower (n : nat) : forall s,
  SecurityManager.hexDigits n s = true ->
  SecurityManager.hexDigits n (JsString.toLowerCase s) = true
  /\ String.length s = n.
Proof.
  induction n as [|n IH]; intros [|c s]; simpl; try discriminate; auto.
  intros [Hc Hs]%andb_true_iff. destruct (IH s Hs) as [-> <-].
  now rewrite (isHexDigit_lower c Hc).
Qed.

(** X2. An address that [isValidAddress] accepts has 42 characters, and its
    lower-case spelling, the key of the rate limiter and of the set of
    flagged addresses, is accepted too. *)
Theorem valid_address_lower_case (address : string) :
  SecurityManager.isValidAddress address = true ->
  JsString.length address = 42
  /\ SecurityManager.isValidAddress (JsString.toLowerCase address) = true.
Proof.
  unfold SecurityManager.isValidAddress, JsString.length.
  intros [Hp Hd]%andb_true_iff.
  destruct address as [|a [|b rest]]; cbn [JsString.startsWith] in Hp.
  - discriminate Hp.
  - rewrite andb_false_r in Hp. discriminate Hp.
  - apply andb_true_iff in Hp as [Ha Hb]. rewrite andb_true_r in Hb.
    apply Ascii.eqb_eq in Ha, Hb. subst a b.
    cbn [JsString.drop] in Hd. unfold JsString.toLowerCase. fold JsString.toLowerCase.
    change (JsString.lowerChar "0") with "0"%char.
    change (JsString.lowerChar "x") with "x"%char.
    cbn [JsString.startsWith JsString.drop String.length].
    rewrite !Ascii.eqb_refl. simpl andb.
    destruct (hexDigits_lower 40 rest Hd) as [Hl Hlen].
    split; [rewrite Hlen; reflexivity | exact Hl].
Qed.


Lemma valid_address_lower_case_witness :
  SecurityManager.isValidAddress "0x52908400098527886E0F7030069857D2E4169EE7" = true
  /\ SecurityManager.isValidAddress "0x52908400098527886e0f7030069857d2e4169ee7" = true.
Proof.
  split; [reflexivity|].
  apply (valid_address_lower_case "0x52908400098527886E0F7030069857D2E4169EE7").
  reflexivity.
Defined.

Section RateLimiterMore.

Import SecurityManager.

Variables (maxRequests windowMs : Z).

(** X3. A check for one address leaves the window of every other address as
    it was, and its answer does not depend on them. *)
Theorem rate_limit_isolation (now : Z) (userAddress : string)
    (m m' : gmap string RateEntry) :
  (forall k, k <> JsString.toLowerCase userAddress ->
     snd (checkRateLimit now userAddress maxRequests windowMs m) !! k = m !! k)
  /\ (m !! JsString.toLowerCase userAddress = m' !! JsString.toLowerCase userAddress ->
      fst (checkRateLimit now userAddress maxRequests windowMs m)
      = fst (checkRateLimit now userAddress maxRequests windowMs m')).
Proof.
  unfold checkRateLimit. split.
  - intros k Hk.
    destruct (m !! JsString.toLowerCase userAddress) as [e|]; simpl;
      repeat case_match; simpl; try reflexivity; now rewrite lookup_insert_ne.
  - intros <-.
    destruct (m !! JsString.toLowerCase userAddress) as [e|]; simpl;
      repeat case_match; reflexivity.
Qed.

(** X4. Under one configuration with a limit of at least one, the counts
    stay between one and the limit whatever the checks, the number of
    requests left that a check reports is never negative and is below the
    limit, and a check that is denied reports zero and changes nothing. *)
Theorem rate_limit_counts_bounded (now : Z) (userAddress : string)
    (m : gmap string RateEntry) :
  1 <= maxRequests ->
  countsWithin maxRequests m ->
  let r := checkRateLimit now userAddress maxRequests windowMs m in
  countsWithin maxRequests (snd r)
  /\ 0 <= remaining (fst r) < maxRequests
  /\ (allowed (fst r) = false -> remaining (fst r) = 0 /\ snd r = m).
Proof.
  intros Hmax Hwf. unfold checkRateLimit.
  set (key := JsString.toLowerCase userAddress).
  assert (Hfresh : forall c R, 1 <= c <= maxRequests ->
            countsWithin maxRequests (<[key := {| count := c; resetTime := R |}]> m)).
  { intros c R Hc k e. destruct (decide (key = k)) as [<-|Hne].
    - rewrite lookup_insert_eq. now intros [= <-].
    - rewrite lookup_insert_ne by assumption. apply Hwf. }
  destruct (m !! key) as [e|] eqn:He; simpl.
  - pose proof (Hwf key e He) as Hce.
    destruct (now >? resetTime e); simpl.
    + split; [apply Hfresh; lia | split; [lia | discriminate]].
    + destruct (Z.geb_spec (count e) maxRequests); simpl.
      * split; [exact Hwf | split; [lia | auto]].
      * split; [apply Hfresh; lia | split; [lia | discriminate]].
  - split; [apply Hfresh; lia | split; [lia | discriminate]].
Qed.

End RateLimiterMore.

Lemma rate_limit_isolation_witness :
  let m := snd (SecurityManager.checkRateLimit 0 "0xAbC" 1 1000 ∅) in
  snd (SecurityManager.checkRateLimit 5 "0xdef" 1 1000 m) !! "0xabc" = m !! "0xabc"
  /\ SecurityManager.allowed (fst (SecurityManager.checkRateLimit 5 "0xdef" 1 1000 m)) = true.
Proof.
  cbv zeta.
  destruct (rate_limit_isolation 1 1000 5 "0xdef"
              (snd (SecurityManager.checkRateLimit 0 "0xAbC" 1 1000 ∅)) ∅)
    as [Hother Hsame].
  split.
  - apply Hother. vm_compute. discriminate.
  - rewrite Hsame by (vm_compute; reflexivity). vm_compute. reflexivity.
Defined.

Lemma rate_limit_counts_bounded_witness :
  let m := snd (SecurityManager.checkRateLimit 0 "0xAbC" 1 1000 ∅) in
  SecurityManager.remaining (fst (SecurityManager.checkRateLimit 5 "0xabc" 1 1000 m)) = 0
  /\ snd (SecurityManager.checkRateLimit 5 "0xabc" 1 1000 m) = m.
Proof.
  cbv zeta.
  assert (Hwf : SecurityManager.countsWithin 1 (snd (SecurityManager.checkRateLimit 0 "0xAbC" 1 1000 ∅))).
  { assert (Hm : snd (SecurityManager.checkRateLimit 0 "0xAbC" 1 1000 ∅)
                 = {[ "0xabc" := {| SecurityManager.count := 1;
                                    SecurityManager.resetTime := 1000 |} ]})
      by (vm_compute; reflexivity).
    rewrite Hm. intros k e [_ <-]%lookup_singleton_Some. simpl. lia. }
  destruct (rate_limit_counts_bounded 1 1000 5 "0xabc"
              (snd (SecurityManager.checkRateLimit 0 "0xAbC" 1 1000 ∅))
              ltac:(lia) Hwf) as (_ & _ & Hdenied).
  apply Hdenied. vm_compute. reflexivity.
Defined.

(** ** The validation and the pricing of a query *)

Lemma isWhiteSpace_lower (c : ascii) :
  JsString.isWhiteSpace (JsString.lowerChar c) = JsString.isWhiteSpace c.
Proof. destruct c as [[] [] [] [] [] [] [] []]; reflexivity. Qed.

Lemma trimStart_lower (s : string) :
  JsString.trimStart (JsString.toLowerCase s)
  = JsString.toLowerCase (JsString.trimStart s).
Proof.
  induction s as [|c s IH]; [reflexivity|]. simpl.
  rewrite isWhiteSpace_lower. now destruct (JsString.isWhiteSpace c).
Qed.

Lemma trimEnd_lower (s : string) :
  JsString.trimEnd (JsString.toLowerCase s)
  = JsString.toLowerCase (JsString.trimEnd s).
Proof.
  induction s as [|c s IH]; [reflexivity|]. simpl. rewrite IH.
  destruct (JsString.trimEnd s); simpl; [|reflexivity].
  rewrite isWhiteSpace_lower. now destruct (JsString.isWhiteSpace c).
Qed.

Lemma length_lower (s : string) :
  JsString.length (JsString.toLowerCase s) = JsString.length s.
Proof.
  unfold JsString.length. f_equal.
  induction s as [|c s IH]; simpl; [reflexivity | now rewrite IH].
Qed.

Lemma trimEnd_keeps (c : ascii) (s : string) :
  JsString.isWhiteSpace c = false ->
  JsString.isEmpty (JsString.trimEnd (String c s)) = false.
Proof.
  intros Hc. simpl. destruct (JsString.trimEnd s); [now rewrite Hc | reflexivity].
Qed.

(** [trim] leaves nothing exactly of the texts made of white space. *)
Lemma trim_empty (s : string) :
  JsString.isEmpty (JsString.trim s) = JsString.allWhiteSpace s.
Proof.
  unfold JsString.trim. induction s as [|c s IH]; [reflexivity|].
  cbn [JsString.trimStart JsString.allWhiteSpace].
  destruct (JsString.isWhiteSpace c) eqn:Hc; simpl andb; [exact IH|].
  now apply trimEnd_keeps.
Qed.

Lemma isAscii_lower (s : string) :
  JsString.isAscii s = true -> JsString.isAscii (JsString.toLowerCase s) = true.
Proof.
  induction s as [|c s IH]; [reflexivity|].
  cbn [JsString.isAscii JsString.toLowerCase].
  intros [Hc Hs]%andb_prop. rewrite (IH Hs), andb_true_r.
  revert Hc. destruct c as [[] [] [] [] [] [] [] []]; vm_compute; congruence.
Qed.

(** X5. On a query of ASCII characters the validation does not look at the
    case of the letters: the lower-case spelling of the query is a text of
    ASCII characters again, and it gets the same verdict and the same
    message as the query. (Outside ASCII the lower-case spelling of a text
    of JS may have another length.) *)
Theorem validateQuery_case_insensitive (q : string) (level : AccessLevel) :
  JsString.isAscii q = true ->
  JsString.isAscii (JsString.toLowerCase q) = true
  /\ validateQuery (JsString.toLowerCase q) level = validateQuery q level.
Proof.
  intros Hascii. split; [now apply isAscii_lower|].
  assert (Hempty : forall s, JsString.isEmpty (JsString.toLowerCase s)
                              = JsString.isEmpty s) by (now intros []).
  unfold validateQuery, JsString.trim.
  now rewrite trimStart_lower, trimEnd_lower, Hempty, length_lower,
    toLowerCase_idempotent.
Qed.

Lemma validateQuery_case_insensitive_witness :
  JsString.isAscii (JsString.toLowerCase "How to HACK a Wallet?") = true
  /\ validateQuery (JsString.toLowerCase "How to HACK a Wallet?") basic
     = validateQuery "How to HACK a Wallet?" basic.
Proof.
  exact (validateQuery_case_insensitive "How to HACK a Wallet?" basic eq_refl).
Defined.

(** X6. A query that is accepted holds a character that is not white space,
    has at most 1000 characters (200 at the basic level) and holds none of
    the prohibited terms, in whatever case they are written. *)
Theorem validateQuery_accepts (q : string) (level : AccessLevel) :
  valid (validateQuery q level) = true ->
  JsString.allWhiteSpace q = false
  /\ 1 <= JsString.length q <= (if AccessLevel_eqb level basic then 200 else 1000)
  /\ Forall (fun term => JsString.includes (JsString.toLowerCase q) term = false)
       prohibitedTerms.
Proof.
  unfold validateQuery. rewrite trim_empty.
  destruct (JsString.allWhiteSpace q) eqn:Hblank; [discriminate|].
  destruct (Z.gtb_spec (JsString.length q) 1000) as [|Hlen]; [discriminate|]. simpl orb.
  destruct (existsb _ prohibitedTerms) eqn:Hterms; [discriminate|].
  assert (Hpos : 1 <= JsString.length q).
  { destruct q; [discriminate Hblank|]. unfold JsString.length. simpl. lia. }
  assert (Hnone : Forall (fun term => JsString.includes (JsString.toLowerCase q) term = false)
                    prohibitedTerms).
  { apply Forall_forall. intros term Hin.
    destruct (JsString.includes (JsString.toLowerCase q) term) eqn:Hinc; [|reflexivity].
    rewrite <- Hterms. symmetry. apply existsb_exists. exists term.
    split; [now apply list_elem_of_In | exact Hinc]. }
  destruct (AccessLevel_eqb level basic); simpl andb.
  - destruct (Z.gtb_spec (JsString.length q) 200); [discriminate|].
    intros _. repeat split; auto; lia.
  - intros _. repeat split; auto; lia.
Qed.

Lemma validateQuery_accepts_witness :
  JsString.allWhiteSpace "What is staking?" = false
  /\ JsString.length "What is staking?" <= 200.
Proof.
  destruct (validateQuery_accepts "What is staking?" basic ltac:(vm_compute; reflexivity))
    as (Hblank & [_ Hlen] & _).
  split; [exact Hblank | exact Hlen].
Defined.

(** X7. What a lower level accepts a higher level accepts, premium and
    enterprise validate alike, and what they accept is accepted at the basic
    level as soon as it has at most 200 characters. *)
Theorem validateQuery_levels (q : string) :
  validateQuery q premium = validateQuery q enterprise
  /\ (valid (validateQuery q basic) = true -> valid (validateQuery q premium) = true)
  /\ (valid (validateQuery q premium) = true -> JsString.length q <= 200 ->
      valid (validateQuery q basic) = true).
Proof.
  unfold validateQuery.
  destruct (JsString.isEmpty (JsString.trim q) || (JsString.length q >? 1000));
    [repeat split; auto|].
  destruct (existsb _ prohibitedTerms); [repeat split; auto|]. simpl.
  repeat split; auto.
  intros _ Hlen. destruct (Z.gtb_spec (JsString.length q) 200); [lia | reflexivity].
Qed.

Lemma validateQuery_levels_witness :
  valid (validateQuery "What is staking?" premium) = true
  /\ valid (validateQuery "What is staking?" basic) = true.
Proof.
  destruct (validateQuery_levels "What is staking?") as (_ & Hup & Hdown).
  assert (Hb : valid (validateQuery "What is staking?" basic) = true)
    by (vm_compute; reflexivity).
  split; [exact (Hup Hb) | apply Hdown; [exact (Hup Hb) | vm_compute; discriminate]].
Defined.

(** X8. For one query a higher level never pays more: the cost at the
    enterprise level is at most the cost at the premium level, which is at
    most the cost at the basic level. *)
Theorem pricing_monotone_in_level (q : string) :
  calculateUsageCost q enterprise <= calculateUsageCost q premium
  /\ calculateUsageCost q premium <= calculateUsageCost q basic.
Proof.
  unfold calculateUsageCost, baseCostOf.
  destruct (JsString.length q >? 100),
    (JsString.includes q "analysis" || JsString.includes q "strategy");
    vm_compute; split; discriminate.
Qed.

(** ** The outcome of a query *)

Section QueryOutcome.

Context {L : Type} `{Ledger L}.

Implicit Types (w : World L) (user q session : string).
Implicit Types (respond : string -> AccessLevel -> option AIResponse).

(** What [verifyResponse] answers on a proof string built by
    [generateVerificationProof], whatever the other fields. *)
Lemma verifyResponse_proofString (ctx : QueryContext) (resp : AIResponse)
    (inputs : list string) (t : Z) (text : string) :
  verifyResponse {| proof := proofString ctx resp; publicInputs := inputs;
                    vp_timestamp := t |} text
  = String.eqb (content resp) text.
Proof.
  unfold verifyResponse, proofString. cbn [proof].
  rewrite replace_prefix, decode_encode, parse_proofData. reflexivity.
Qed.

(** The way out of [processQuery] through the commit: what is returned and
    what is left behind, by the contract the agent holds and the fate of
    the transaction. *)
Lemma query_completed respond user q session w generated :
  hasAccess (fst (accessCheck user w)) = true ->
  remainingUsage (fst (accessCheck user w)) <> 0 ->
  valid (validateQuery q (accessLevel (fst (accessCheck user w)))) = true ->
  respond q (accessLevel (fst (accessCheck user w))) = Some generated ->
  let level := accessLevel (fst (accessCheck user w)) in
  let cost := calculateUsageCost q level in
  let ctx := {| userAddress := user; query := q; ctx_timestamp := clock w (ticks w);
                sessionId := session |} in
  let r := processQueryWith respond user q session w in
  exists t hash,
    fst r = {| success := true;
               response :=
                 Some {| content := content generated;
                         confidence := confidence generated;
                         sources := sources generated;
                         verificationProof :=
                           Some {| proof := proofString ctx generated;
                                   publicInputs :=
                                     [user; JsString.numberToString (clock w (ticks w));
                                      confidenceToString (confidence generated)];
                                   vp_timestamp := t |} |};
               error := None;
               usageConsumed := Some cost;
               transactionHash := Some hash |}
    /\ accessCache (snd r)
       = delete (JsString.toLowerCase user) (accessCache (snd (accessCheck user w)))
    /\ List.filter isGenerate (trace (snd r))
       = (List.filter isGenerate (trace w) ++ [Generate q level])%list
    /\ match contract w with
       | None =>
           contract (snd r) = None
           /\ (exists t', hash = "demo_tx_" ++ JsString.numberToString t')
           /\ List.filter isCommit (trace (snd r)) = List.filter isCommit (trace w)
           /\ List.filter isLedgerCall (trace (snd r))
              = List.filter isLedgerCall (trace (snd (accessCheck user w)))
       | Some ledger =>
           match consumeUsage ledger user cost with
           | Some (mined, ledger') =>
               contract (snd r) = Some ledger' /\ hash = mined
               /\ List.filter isCommit (trace (snd r))
                  = (List.filter isCommit (trace w) ++ [LedgerCommit user cost true])%list
           | None =>
               contract (snd r) = Some ledger
               /\ (exists t', hash = "fallback_tx_" ++ JsString.numberToString t')
               /\ List.filter isCommit (trace (snd r))
                  = (List.filter isCommit (trace w) ++ [LedgerCommit user cost false])%list
           end
       end.
Proof.
  pose proof (accessCheck_keeps user w) as (Hc & Hcm & Hg). revert Hc Hcm Hg.
  run_query. destruct (verifyAccess user false _) as [acc w2]; simpl.
  intros Hc Hcm Hg -> Hrem -> ->. simpl.
  destruct (Z.eqb_spec (remainingUsage acc) 0); [contradiction|]. simpl.
  rewrite <- Hc.
  destruct (contract w2) as [ledger|]; simpl.
  - destruct (consumeUsage ledger user (calculateUsageCost q (accessLevel acc)))
      as [[mined ledger']|]; simpl; do 2 eexists;
      (split; [reflexivity|]); (split; [reflexivity|]);
      filter_events; rewrite Hcm, Hg; eauto.
  - do 2 eexists. (split; [reflexivity|]). (split; [reflexivity|]).
    filter_events. rewrite Hcm, Hg. eauto 10.
Qed.

(** X9. With the response generator of the source, [processQuery] never
    ends in the generic failure of its [catch]: a query succeeds exactly
    when the access check grants access with a quota other than 0 and the
    query is valid at the level of the access. A success carries the priced
    cost, a hash and the generated content and no error; a failure carries
    a message other than the generic one, and nothing else. *)
Theorem processQuery_outcome user q session w :
  let acc := fst (accessCheck user w) in
  let r := fst (processQuery user q session w) in
  success r = hasAccess acc && negb (remainingUsage acc =? 0)
              && valid (validateQuery q (accessLevel acc))
  /\ (if success r
      then error r = None
           /\ usageConsumed r = Some (calculateUsageCost q (accessLevel acc))
           /\ content <$> response r
              = Some (content (generateEnhancedAIResponse q (accessLevel acc)))
           /\ is_Some (transactionHash r)
      else response r = None /\ usageConsumed r = None /\ transactionHash r = None
           /\ is_Some (error r)
           /\ error r <> Some "Failed to process query. Please try again later.").
Proof.
  cbv zeta. unfold processQuery.
  set (respond := fun q' level => Some (generateEnhancedAIResponse q' level)).
  destruct (hasAccess (fst (accessCheck user w))) eqn:Hacc.
  - destruct (Z.eqb_spec (remainingUsage (fst (accessCheck user w))) 0) as [Hzero|Hrem].
    + destruct (query_exhausted respond user q session w Hacc Hzero) as (-> & _).
      simpl. repeat split; eauto; discriminate.
    + destruct (valid (validateQuery q (accessLevel (fst (accessCheck user w))))) eqn:Hvalid.
      * destruct (query_completed respond user q session w _ Hacc Hrem Hvalid eq_refl)
          as (t & hash & -> & _).
        simpl. repeat split; eauto.
      * rewrite (query_invalid respond user q session w Hacc Hrem Hvalid). simpl.
        revert Hvalid. unfold validateQuery.
        repeat case_match; simpl; intros; repeat split; eauto; discriminate.
  - destruct (query_denied respond user q session w Hacc) as (-> & _).
    simpl. repeat split; eauto; discriminate.
Qed.

(** X10. The proof attached to the response of a query that succeeded
    verifies against the content of that response and against no other
    text, and its public inputs are the address as it was given, the time of
    the request and the confidence of the response. *)
Theorem served_response_verifies respond user q session w :
  success (fst (processQueryWith respond user q session w)) = true ->
  exists resp vp,
    response (fst (processQueryWith respond user q session w)) = Some resp
    /\ verificationProof resp = Some vp
    /\ (forall text, verifyResponse vp text = String.eqb (content resp) text)
    /\ publicInputs vp
       = [user; JsString.numberToString (clock w (ticks w));
          confidenceToString (confidence resp)].
Proof.
  destruct (hasAccess (fst (accessCheck user w))) eqn:Hacc.
  - destruct (Z.eqb_spec (remainingUsage (fst (accessCheck user w))) 0) as [Hzero|Hrem].
    + destruct (query_exhausted respond user q session w Hacc Hzero) as (-> & _).
      discriminate.
    + destruct (valid (validateQuery q (accessLevel (fst (accessCheck user w))))) eqn:Hvalid.
      * destruct (respond q (accessLevel (fst (accessCheck user w))))
          as [generated|] eqn:Hgen.
        -- destruct (query_completed respond user q session w _ Hacc Hrem Hvalid Hgen)
             as (t & hash & -> & _).
           intros _. do 2 eexists. cbn [fst response verificationProof publicInputs].
           split; [reflexivity|]. split; [reflexivity|]. split; [|reflexivity].
           intros text. now rewrite verifyResponse_proofString.
        -- destruct (query_failed respond user q session w Hacc Hrem Hvalid Hgen)
             as (-> & _).
           discriminate.
      * rewrite (query_invalid respond user q session w Hacc Hrem Hvalid). discriminate.
  - destruct (query_denied respond user q session w Hacc) as (-> & _). discriminate.
Qed.

(** X11. A query that fails, whatever the reason, is not billed: no
    transaction is sent and the ledger is the one the agent held before. *)
Theorem failed_query_not_billed respond user q session w :
  success (fst (processQueryWith respond user q session w)) = false ->
  let r := processQueryWith respond user q session w in
  contract (snd r) = contract w
  /\ List.filter isCommit (trace (snd r)) = List.filter isCommit (trace w)
  /\ response (fst r) = None
  /\ usageConsumed (fst r) = None.
Proof.
  destruct (hasAccess (fst (accessCheck user w))) eqn:Hacc.
  - destruct (Z.eqb_spec (remainingUsage (fst (accessCheck user w))) 0) as [Hzero|Hrem].
    + destruct (query_exhausted respond user q session w Hacc Hzero)
        as (Hr & Hc & _ & Hcm & _).
      cbv zeta in *. rewrite Hr. auto.
    + destruct (valid (validateQuery q (accessLevel (fst (accessCheck user w))))) eqn:Hvalid.
      * destruct (respond q (accessLevel (fst (accessCheck user w))))
          as [generated|] eqn:Hgen.
        -- destruct (query_completed respond user q session w _ Hacc Hrem Hvalid Hgen)
             as (t & hash & -> & _).
           discriminate.
        -- destruct (query_failed respond user q session w Hacc Hrem Hvalid Hgen)
             as (Hr & Hc & _ & Hcm).
           cbv zeta in *. rewrite Hr. auto.
      * rewrite (query_invalid respond user q session w Hacc Hrem Hvalid).
        destruct (accessCheck_keeps user w) as (Hc & Hcm & _). simpl. auto.
  - destruct (query_denied respond user q session w Hacc) as (Hr & Hc & _ & Hcm & _).
    cbv zeta in *. rewrite Hr. auto.
Qed.

(** X12. A transaction that fails does not fail the query: when the
    contract rejects the commit, the query still succeeds and reports the
    cost as consumed, under a hash made up from the clock, while the ledger
    is the one the agent held before. *)
Theorem failed_commit_still_served respond user q session w ledger generated :
  contract w = Some ledger ->
  hasAccess (fst (accessCheck user w)) = true ->
  remainingUsage (fst (accessCheck user w)) <> 0 ->
  valid (validateQuery q (accessLevel (fst (accessCheck user w)))) = true ->
  respond q (accessLevel (fst (accessCheck user w))) = Some generated ->
  consumeUsage ledger user (calculateUsageCost q (accessLevel (fst (accessCheck user w))))
  = None ->
  let r := processQueryWith respond user q session w in
  success (fst r) = true
  /\ usageConsumed (fst r)
     = Some (calculateUsageCost q (accessLevel (fst (accessCheck user w))))
  /\ (exists t, transactionHash (fst r)
                = Some ("fallback_tx_" ++ JsString.numberToString t))
  /\ contract (snd r) = Some ledger.
Proof.
  intros Hledger Hacc Hrem Hvalid Hgen Hrevert.
  destruct (query_completed respond user q session w _ Hacc Hrem Hvalid Hgen)
    as (t & hash & Hr & _ & _ & Hcommit).
  rewrite Hledger, Hrevert in Hcommit. destruct Hcommit as (Hc & [t' ->] & _).
  cbv zeta. rewrite Hr. simpl. eauto.
Qed.

(** X13. Without a contract every query is served from the demo record:
    a valid query succeeds at the premium level under a hash made up from
    the clock, no call is made on any ledger, and the agent is left without
    an entry for the address, so that the next query finds the 10 units of
    the demo record again. *)
Theorem demo_mode_unmetered user q session w :
  contract w = None ->
  (forall e, accessCache w !! JsString.toLowerCase user = Some e ->
             exists t, result e = mockResult t) ->
  valid (validateQuery q premium) = true ->
  let r := processQuery user q session w in
  success (fst r) = true
  /\ usageConsumed (fst r) = Some (calculateUsageCost q premium)
  /\ (exists t, transactionHash (fst r)
                = Some ("demo_tx_" ++ JsString.numberToString t))
  /\ contract (snd r) = None
  /\ accessCache (snd r) !! JsString.toLowerCase user = None
  /\ List.filter isLedgerCall (trace (snd r)) = List.filter isLedgerCall (trace w).
Proof.
  intros Hnone Hdemo Hvalid.
  assert (Hcheck : (exists t, fst (accessCheck user w) = mockResult t)
                   /\ List.filter isLedgerCall (trace (snd (accessCheck user w)))
                      = List.filter isLedgerCall (trace w)).
  { unfold accessCheck, bind.
    destruct (Date_now w) as [t0 w1] eqn:Hnow.
    assert (Hw1 : w1 = snd (Date_now w)) by now rewrite Hnow.
    destruct (cacheHit user false w1) as [hit|] eqn:Hhit.
    - rewrite (verifyAccess_hit user w1 hit Hhit). simpl. split.
      + revert Hhit. unfold cacheHit. subst w1. simpl.
        destruct (accessCache w !! JsString.toLowerCase user) as [e|] eqn:He;
          [|discriminate].
        destruct (_ <? _); [|discriminate]. intros [= <-]. now apply Hdemo.
      + subst w1. reflexivity.
    - destruct (verifyAccess_miss user false w1 Hhit) as (Hcalls & _ & Hres).
      assert (Hc1 : contract w1 = None) by (subst w1; exact Hnone).
      rewrite Hc1 in Hcalls, Hres. split; [exact Hres|].
      rewrite Hcalls, app_nil_r. subst w1. reflexivity. }
  destruct Hcheck as ([t Hmock] & Hcalls).
  assert (Hacc : hasAccess (fst (accessCheck user w)) = true) by now rewrite Hmock.
  assert (Hrem : remainingUsage (fst (accessCheck user w)) <> 0) by now rewrite Hmock.
  assert (Hlevel : accessLevel (fst (accessCheck user w)) = premium) by now rewrite Hmock.
  unfold processQuery.
  rewrite <- Hlevel in Hvalid.
  destruct (query_completed
              (fun q' level => Some (generateEnhancedAIResponse q' level))
              user q session w _ Hacc Hrem Hvalid eq_refl)
    as (t' & hash & Hr & Hcache & _ & Hcommit).
  rewrite Hnone in Hcommit. destruct Hcommit as (Hc & [t'' ->] & _ & Hl).
  cbv zeta. rewrite Hr, Hcache, Hlevel. simpl.
  repeat split; eauto. - apply lookup_delete_eq. - congruence.
Qed.

(** X14. An entry is used only while it is younger than 60 seconds: when
    a refresh is forced, or the entry is 60000 milliseconds old or older,
    the contract is called once and the entry is replaced. Where the two
    conversions of the answer succeed, the record built from the answer is
    returned and stored, stamped with the next reading of the clock; where
    one of them throws, the fallback record is returned and stored, built
    from the next reading of the clock and stamped with the one after. *)
Theorem stale_entry_reread user (forceRefresh : bool) w ledger sub e :
  contract w = Some ledger ->
  getUserSubscription ledger user = Some sub ->
  accessCache w !! JsString.toLowerCase user = Some e ->
  forceRefresh = true \/ CACHE_DURATION <= clock w (ticks w) - timestamp e ->
  let r := verifyAccess user forceRefresh w in
  let n := if forceRefresh then ticks w else S (ticks w) in
  List.filter isLedgerCall (trace (snd r))
  = (List.filter isLedgerCall (trace w) ++ [LedgerRead user])%list
  /\ match resultOf ledger sub with
     | Some answer =>
         fst r = answer
         /\ accessCache (snd r) !! JsString.toLowerCase user
            = Some {| result := answer; timestamp := clock w n |}
     | None =>
         fst r = fallbackResult (clock w n)
         /\ accessCache (snd r) !! JsString.toLowerCase user
            = Some {| result := fallbackResult (clock w n);
                      timestamp := clock w (S n) |}
     end.
Proof.
  intros Hledger Hsub He Hstale.
  run_access. rewrite He.
  destruct forceRefresh; simpl.
  - rewrite Hledger. unfold readResult. rewrite Hsub. simpl.
    destruct (resultOf ledger sub); simpl; filter_events;
      now rewrite lookup_insert_eq.
  - destruct Hstale as [|Hold]; [discriminate|].
    destruct (Z.ltb_spec (clock w (ticks w) - timestamp e) CACHE_DURATION); [lia|].
    simpl. rewrite Hledger. unfold readResult. rewrite Hsub. simpl.
    destruct (resultOf ledger sub); simpl; filter_events;
      now rewrite lookup_insert_eq.
Qed.

End QueryOutcome.

Lemma served_response_verifies_witness :
  let w := freshWorld (Some (scripted (fun _ => Some (monthly 3)))) in
  exists resp vp,
    response (fst (processQuery "0xAbC" "What is the yield?" "s1" w)) = Some resp
    /\ verificationProof resp = Some vp
    /\ (forall text, verifyResponse vp text = String.eqb (content resp) text)
    /\ publicInputs vp = ["0xAbC"; "0"; "0.9"].
Proof.
  cbv zeta.
  destruct (@served_response_verifies Scripted Scripted_Ledger
              (fun q' level => Some (generateEnhancedAIResponse q' level))
              "0xAbC" "What is the yield?" "s1"
              (freshWorld (Some (scripted (fun _ => Some (monthly 3)))))
              ltac:(vm_compute; reflexivity))
    as (resp & vp & Hresp & Hvp & Hverify & Hinputs).
  exists resp, vp. repeat split; auto.
  rewrite Hinputs. vm_compute in Hresp. injection Hresp as <-. reflexivity.
Defined.

Lemma failed_query_not_billed_witness :
  let w := freshWorld (Some (scripted (fun _ => Some (monthly 3)))) in
  let r := processQueryWith failingResponder "0xabc" "What is the yield?" "s1" w in
  contract (snd r) = contract w
  /\ List.filter isCommit (trace (snd r)) = []
  /\ response (fst r) = None
  /\ usageConsumed (fst r) = None.
Proof.
  cbv zeta.
  exact (@failed_query_not_billed Scripted Scripted_Ledger failingResponder
           "0xabc" "What is the yield?" "s1"
           (freshWorld (Some (scripted (fun _ => Some (monthly 3)))))
           ltac:(vm_compute; reflexivity)).
Defined.

Lemma failed_commit_still_served_witness :
  let ledger := {| reads := fun _ => Some (monthly 3); commits := fun _ _ => None;
                   numbers := safeNumber |} in
  let r := processQuery "0xabc" "What is the yield?" "s1" (freshWorld (Some ledger)) in
  success (fst r) = true
  /\ usageConsumed (fst r) = Some 1
  /\ (exists t, transactionHash (fst r)
                = Some ("fallback_tx_" ++ JsString.numberToString t))
  /\ contract (snd r) = Some ledger.
Proof.
  cbv zeta.
  exact (@failed_commit_still_served Scripted Scripted_Ledger
           (fun q' level => Some (generateEnhancedAIResponse q' level))
           "0xabc" "What is the yield?" "s1"
           (freshWorld (Some {| reads := fun _ => Some (monthly 3);
                                commits := fun _ _ => None; numbers := safeNumber |}))
           {| reads := fun _ => Some (monthly 3); commits := fun _ _ => None;
              numbers := safeNumber |}
           (generateEnhancedAIResponse "What is the yield?" premium)
           eq_refl ltac:(vm_compute; reflexivity) ltac:(vm_compute; discriminate)
           ltac:(vm_compute; reflexivity) ltac:(vm_compute; reflexivity)
           ltac:(vm_compute; reflexivity)).
Defined.

Lemma demo_mode_unmetered_witness :
  let r := processQuery "0xabc" "What is the yield?" "s1"
             (freshWorld (None : option Scripted)) in
  success (fst r) = true
  /\ usageConsumed (fst r) = Some 1
  /\ (exists t, transactionHash (fst r)
                = Some ("demo_tx_" ++ JsString.numberToString t))
  /\ contract (snd r) = None
  /\ accessCache (snd r) !! "0xabc" = None
  /\ List.filter isLedgerCall (trace (snd r)) = [].
Proof.
  cbv zeta.
  apply (@demo_mode_unmetered Scripted Scripted_Ledger
           "0xabc" "What is the yield?" "s1" (freshWorld None) eq_refl).
  - intros e He. simpl in He. rewrite lookup_empty in He. discriminate.
  - vm_compute. reflexivity.
Defined.

Lemma stale_entry_reread_witness :
  let w := {| contract := Some (scripted (fun _ => Some (monthly 3)));
              accessCache :=
                {[ "0xabc" := {| result := monthlyRecord 5; timestamp := 0 |} ]};
              clock := fun n => 60000 + Z.of_nat n; ticks := 0; trace := [] |} in
  let r := verifyAccess "0xAbC" false w in
  List.filter isLedgerCall (trace (snd r)) = [LedgerRead "0xAbC"]
  /\ fst r = monthlyRecord 3
  /\ accessCache (snd r) !! "0xabc"
     = Some {| result := monthlyRecord 3; timestamp := 60001 |}.
Proof.
  cbv zeta.
  refine (@stale_entry_reread Scripted Scripted_Ledger "0xAbC" false
            {| contract := Some (scripted (fun _ => Some (monthly 3)));
               accessCache :=
                 {[ "0xabc" := {| result := monthlyRecord 5; timestamp := 0 |} ]};
               clock := fun n => 60000 + Z.of_nat n; ticks := 0; trace := [] |}
            (scripted (fun _ => Some (monthly 3))) (monthly 3)
            {| result := monthlyRecord 5; timestamp := 0 |}
            eq_refl eq_refl _ _).
  - vm_compute. reflexivity.
  - right. vm_compute. discriminate.
Defined.

(** ** The agent on the deployed contract *)

Lemma firstValid_positive st user (tokens : list Z) id :
  DataAnchoringToken.firstValid st user tokens = (true, id) ->
  0 < DataAnchoringToken.remainingUsage (DataAnchoringToken.metadataAt st id).
Proof.
  induction tokens as [|t ts IH]; simpl; [discriminate|].
  destruct (DataAnchoringToken.balanceOf st user t >? 0); [|exact IH].
  destruct (DataAnchoringToken.block_timestamp st
            <? DataAnchoringToken.expiryTime (DataAnchoringToken.metadataAt st t)); simpl;
    [|exact IH].
  destruct (Z.gtb_spec (DataAnchoringToken.remainingUsage
                          (DataAnchoringToken.metadataAt st t)) 0); [|exact IH].
  now intros [= <-].
Qed.

(** The contract never reports a valid subscription without units. *)
Lemma getUserSubscription_positive st user v id expiry remaining tier :
  DataAnchoringToken.getUserSubscription st user = (v, id, expiry, remaining, tier) ->
  v = true -> 0 < remaining.
Proof.
  unfold DataAnchoringToken.getUserSubscription,
    DataAnchoringToken.hasValidSubscription.
  destruct (DataAnchoringToken.firstValid _ _ _) as [[] id'] eqn:Hfirst;
    intros [= <- <- <- <- <-]; [|discriminate].
  intros _. exact (firstValid_positive _ _ _ _ Hfirst).
Qed.

(** Neither does the record the agent builds from its answer: a conversion
    that succeeds returns the number it is given. *)
Lemma readResult_positive (d : Deployed) user answer :
  readResult d user = Some answer ->
  hasAccess answer = true -> remainingUsage answer <> 0.
Proof.
  unfold readResult, resultOf. cbn [getUserSubscription toNumber Deployed_Ledger].
  destruct (addressOf d user) as [account|]; [|discriminate].
  destruct (DataAnchoringToken.getUserSubscription (chain d) account)
    as [[[[v id] expiry] remaining] tier] eqn:E.
  cbn [isValid sub_remainingUsage sub_expiryTime sub_tokenId sub_tierName].
  destruct (safe d remaining); [|discriminate].
  destruct (safe d expiry); [|discriminate].
  intros [= <-]. cbn [hasAccess remainingUsage]. intros Hv.
  pose proof (getUserSubscription_positive _ _ _ _ _ _ _ E Hv). lia.
Qed.

Lemma verifyAccess_coherent user f (w : World Deployed) :
  quotaCoherent (accessCache w) ->
  let r := verifyAccess user f w in
  quotaCoherent (accessCache (snd r))
  /\ (hasAccess (fst r) = true -> remainingUsage (fst r) <> 0).
Proof.
  intros Hco. unfold quotaCoherent in *. run_access.
  assert (Hins : forall key r t,
            (hasAccess r = true -> remainingUsage r <> 0) ->
            forall k e, <[key := {| result := r; timestamp := t |}]> (accessCache w) !! k
                        = Some e ->
                        hasAccess (result e) = true -> remainingUsage (result e) <> 0).
  { intros key r t Hr k e [[<- <-]|[_ Hk]]%lookup_insert_Some; simpl; eauto. }
  repeat case_match; simplify_eq/=; split; eauto; try (apply Hins); simpl;
    try discriminate;
    intros Hv;
    match goal with
    | E : readResult _ _ = Some _ |- _ => exact (readResult_positive _ _ _ E Hv)
    end.
Qed.

Section DeployedAgent.

Implicit Types (w : World Deployed) (user q session : string).

(** X15. On the deployed contract the quota error cannot be reached: the
    contract reports a subscription as valid only while units remain on
    it, so that a subscriber whose units are used up is refused as having
    no access. Every entry the agent stores grants access only with a quota
    other than 0, and a query never ends in the quota error. *)
Theorem deployed_quota_error_unreachable user q session w :
  quotaCoherent (accessCache w) ->
  let r := processQuery user q session w in
  quotaCoherent (accessCache (snd r))
  /\ quotaCoherent (accessCache (snd (getUsageStats user w)))
  /\ error (fst r)
     <> Some "Usage quota exceeded. Please upgrade your subscription or wait for renewal.".
Proof.
  intros Hco. cbv zeta.
  assert (Hcheck : quotaCoherent (accessCache (snd (accessCheck user w)))
                   /\ (hasAccess (fst (accessCheck user w)) = true ->
                       remainingUsage (fst (accessCheck user w)) <> 0)).
  { unfold accessCheck, bind. destruct (Date_now w) as [t0 w1] eqn:Hnow.
    apply verifyAccess_coherent.
    replace w1 with (snd (Date_now w)) by now rewrite Hnow. exact Hco. }
  destruct Hcheck as [Hco' Hpos].
  split; [|split; [apply (verifyAccess_coherent user false w Hco)|]].
  - unfold processQuery.
    set (respond := fun q' level => Some (generateEnhancedAIResponse q' level)).
    destruct (hasAccess (fst (accessCheck user w))) eqn:Hacc.
    + specialize (Hpos eq_refl).
      destruct (valid (validateQuery q (accessLevel (fst (accessCheck user w)))))
        eqn:Hvalid.
      * destruct (query_completed respond user q session w _ Hacc Hpos Hvalid eq_refl)
          as (t & hash & _ & -> & _).
        intros k e [_ Hk]%lookup_delete_Some. eauto.
      * now rewrite (query_invalid respond user q session w Hacc Hpos Hvalid).
    + destruct (query_denied respond user q session w Hacc) as (_ & _ & Hcache & _).
      cbv zeta in Hcache. now rewrite Hcache.
  - unfold processQuery.
    set (respond := fun q' level => Some (generateEnhancedAIResponse q' level)).
    destruct (hasAccess (fst (accessCheck user w))) eqn:Hacc.
    + specialize (Hpos eq_refl).
      destruct (valid (validateQuery q (accessLevel (fst (accessCheck user w)))))
        eqn:Hvalid.
      * destruct (query_completed respond user q session w _ Hacc Hpos Hvalid eq_refl)
          as (t & hash & -> & _).
        discriminate.
      * rewrite (query_invalid respond user q session w Hacc Hpos Hvalid). simpl.
        revert Hvalid. unfold validateQuery. repeat case_match; discriminate.
    + destruct (query_denied respond user q session w Hacc) as (-> & _). discriminate.
Qed.

End DeployedAgent.


Lemma deployed_quota_error_unreachable_witness :
  let r := processQuery holder "What is the yield?" "s1"
             (freshWorld (Some (trialLedger 0 100))) in
  quotaCoherent (accessCache (snd r))
  /\ quotaCoherent (accessCache (snd (getUsageStats holder
                                        (freshWorld (Some (trialLedger 0 100))))))
  /\ error (fst r)
     <> Some "Usage quota exceeded. Please upgrade your subscription or wait for renewal.".
Proof.
  cbv zeta.
  apply (deployed_quota_error_unreachable holder "What is the yield?" "s1"
           (freshWorld (Some (trialLedger 0 100)))).
  intros k e Hk. simpl in Hk. rewrite lookup_empty in Hk. discriminate.
Defined.

(** ** The contract, further *)

Section ContractMore.

Import DataAnchoringToken.

Implicit Types (st : state) (user sender other : string) (tokens : list Z).

Lemma firstValid_skip st user (before rest : list Z) :
  Forall (fun t => usable st user t = false) before ->
  firstValid st user (before ++ rest) = firstValid st user rest.
Proof.
  induction 1 as [|t ts Ht _ IH]; [reflexivity|].
  simpl. revert Ht. unfold usable.
  destruct (balanceOf st user t >? 0); [|auto].
  simpl. now intros ->.
Qed.

Lemma firstValid_head st user id (rest : list Z) :
  usable st user id = true -> firstValid st user (id :: rest) = (true, id).
Proof.
  unfold usable. simpl. destruct (balanceOf st user id >? 0); [|discriminate].
  simpl. now intros ->.
Qed.

Lemma firstValid_none st user tokens :
  Forall (fun t => usable st user t = false) tokens ->
  firstValid st user tokens = (false, 0).
Proof.
  intros Hall. rewrite <- (app_nil_r tokens). now rewrite firstValid_skip.
Qed.

(** A valid token is a token of the list that passes the test, and no
    token before it does. *)
Lemma firstValid_split st user tokens id :
  firstValid st user tokens = (true, id) ->
  exists before after,
    tokens = (before ++ id :: after)%list
    /\ Forall (fun t => usable st user t = false) before
    /\ usable st user id = true.
Proof.
  induction tokens as [|t ts IH]; [discriminate|].
  destruct (usable st user t) eqn:Ht.
  - rewrite (firstValid_head _ _ _ _ Ht). intros [= <-].
    exists [], ts. auto.
  - change (t :: ts) with ([t] ++ ts)%list. rewrite firstValid_skip by auto.
    intros (before & after & -> & Hb & Hid)%IH.
    exists (t :: before), after. split; [reflexivity | split; [now constructor | exact Hid]].
Qed.

Lemma firstValid_invalid st user tokens id :
  firstValid st user tokens = (false, id) ->
  id = 0 /\ Forall (fun t => usable st user t = false) tokens.
Proof.
  induction tokens as [|t ts IH]; [intros [= <-]; auto|].
  destruct (usable st user t) eqn:Ht.
  - rewrite (firstValid_head _ _ _ _ Ht). discriminate.
  - change (t :: ts) with ([t] ++ ts)%list. rewrite firstValid_skip by auto.
    intros [-> Hts]%IH. split; [reflexivity | now constructor].
Qed.

(** The loop looks at the time, the owner of nothing, and, token by token,
    at the balance and the metadata. *)
Lemma firstValid_ext st st' user tokens :
  block_timestamp st' = block_timestamp st ->
  (forall t, In t tokens ->
     balanceOf st' user t = balanceOf st user t /\ metadataAt st' t = metadataAt st t) ->
  firstValid st' user tokens = firstValid st user tokens.
Proof.
  intros Htime. induction tokens as [|t ts IH]; [reflexivity|].
  intros Hsame. simpl.
  destruct (Hsame t (or_introl eq_refl)) as [-> ->]. rewrite Htime.
  rewrite IH by (intros; apply Hsame; now right). reflexivity.
Qed.

(** X16. The subscription of a user is the first of the tokens listed for the
    user, in the order of their minting, that the user still holds, that
    has not expired and that has units left; the tokens after it are not
    looked at. A user none of whose tokens passes has no subscription. *)
Theorem subscription_is_first_usable st user :
  (Forall (fun t => usable st user t = false) (tokensOf st user) ->
   getUserSubscription st user = (false, 0, 0, 0, ""))
  /\ (forall before id after,
        tokensOf st user = (before ++ id :: after)%list ->
        Forall (fun t => usable st user t = false) before ->
        usable st user id = true ->
        getUserSubscription st user
        = (true, id, expiryTime (metadataAt st id), remainingUsage (metadataAt st id),
           name (tierAt st (tierId (metadataAt st id))))).
Proof.
  unfold getUserSubscription, hasValidSubscription. split.
  - intros Hall. now rewrite firstValid_none.
  - intros before id after -> Hbefore Hid.
    now rewrite firstValid_skip, firstValid_head.
Qed.

(** A commit by the owner of no more than the units of the subscription
    goes through. *)
Lemma consumeUsage_goes st user amount id expiry remaining tier :
  getUserSubscription st user = (true, id, expiry, remaining, tier) ->
  amount <= remaining ->
  is_Some (consumeUsage st (owner st) user amount).
Proof.
  unfold consumeUsage, getUserSubscription. rewrite String.eqb_refl. simpl.
  destruct (hasValidSubscription st user) as [[] id']; simpl; [|discriminate].
  intros [= <- <- <- <-] Hle.
  destruct (Z.geb_spec (remainingUsage (metadataAt st id')) amount); [eauto | lia].
Qed.

(** X17. [consumeUsage] goes through exactly when it is sent by the owner
    for a user with a subscription that holds at least the amount: the units
    of the other tokens of the user are not counted. *)
Theorem consumeUsage_reverts_unless st sender user amount :
  is_Some (consumeUsage st sender user amount)
  <-> sender = owner st
      /\ exists id expiry remaining tier,
           getUserSubscription st user = (true, id, expiry, remaining, tier)
           /\ amount <= remaining.
Proof.
  unfold consumeUsage, getUserSubscription.
  destruct (String.eqb_spec sender (owner st)) as [->|Hne]; simpl.
  - destruct (hasValidSubscription st user) as [[] id]; simpl.
    + destruct (Z.geb_spec (remainingUsage (metadataAt st id)) amount).
      * split; [|eauto]. intros _. split; [reflexivity|].
        do 4 eexists. split; [reflexivity | lia].
      * split; [intros [? [=]]|]. intros (_ & ? & ? & ? & ? & [= <- <- <- <-] & ?). lia.
    + split; [intros [? [=]]|]. intros (_ & ? & ? & ? & ? & [=] & _).
  - split; [intros [? [=]] | intros [? _]; contradiction].
Qed.

Lemma debit_metadata_other st id amount t :
  t <> id -> metadataAt (debit st id amount) t = metadataAt st t.
Proof. intros Hne. unfold metadataAt. simpl. now rewrite lookup_insert_ne. Qed.

Lemma debit_remaining st id amount :
  remainingUsage (metadataAt (debit st id amount) id)
  = remainingUsage (metadataAt st id) - amount.
Proof. unfold metadataAt at 1. simpl. now rewrite lookup_insert_eq. Qed.

Lemma usable_exhausted st user id :
  usable (debit st id (remainingUsage (metadataAt st id))) user id = false.
Proof.
  unfold usable. rewrite debit_remaining, Z.sub_diag. apply andb_false_r.
Qed.

(** X18. A commit of all the units left on the token of the subscription
    goes through and retires the token: the subscription passes to the next
    token of the user that is usable, if there is one. *)
Theorem exhausted_token_passes_on st user (before after : list Z) id :
  tokensOf st user = (before ++ id :: after)%list ->
  Forall (fun t => usable st user t = false) before ->
  usable st user id = true ->
  ~ In id after ->
  exists st',
    consumeUsage st (owner st) user (remainingUsage (metadataAt st id)) = Some st'
    /\ hasValidSubscription st' user = firstValid st user after.
Proof.
  intros Htokens Hbefore Hid Hfresh.
  assert (Hvalid : hasValidSubscription st user = (true, id)).
  { unfold hasValidSubscription. now rewrite Htokens, firstValid_skip, firstValid_head. }
  unfold consumeUsage. rewrite String.eqb_refl, Hvalid. simpl.
  rewrite Z.geb_leb, Z.leb_refl. eexists. split; [reflexivity|].
  unfold hasValidSubscription.
  change (tokensOf (debit st id _) user) with (tokensOf st user). rewrite Htokens.
  set (st' := debit st id _).
  assert (Hself : usable st' user id = false) by apply usable_exhausted.
  assert (Hbefore' : Forall (fun t => usable st' user t = false) before).
  { revert Hbefore. apply List.Forall_impl. intros t Ht.
    destruct (Z.eq_dec t id) as [->|Hne]; [exact Hself|].
    revert Ht. unfold usable. subst st'. now rewrite debit_metadata_other. }
  rewrite firstValid_skip by exact Hbefore'.
  change (id :: after) with ([id] ++ after)%list.
  rewrite firstValid_skip by auto.
  apply firstValid_ext; [reflexivity|].
  intros t Ht. split; [reflexivity|]. subst st'. apply debit_metadata_other.
  intros ->. contradiction.
Qed.

(** X19. Commits in a row conserve the quota: while their amounts add up to
    less than the units of the subscription, they all go through, the
    subscription stays on its token, and the units left are the units
    there were less the sum of the amounts. *)
Theorem consumeAll_conserves (amounts : list Z) : forall st user id expiry remaining tier,
  getUserSubscription st user = (true, id, expiry, remaining, tier) ->
  Forall (fun amount => 0 <= amount) amounts ->
  fold_right Z.add 0 amounts < remaining ->
  exists st',
    consumeAll st (owner st) user amounts = Some st'
    /\ getUserSubscription st' user
       = (true, id, expiry, remaining - fold_right Z.add 0 amounts, tier).
Proof.
  induction amounts as [|amount rest IH]; intros st user id expiry remaining tier Hsub Hpos Hsum.
  - exists st. simpl. now rewrite Z.sub_0_r.
  - inversion Hpos as [|? ? Hamount Hrest]; subst.
    change (amount + fold_right Z.add 0 rest < remaining) in Hsum.
    assert (Hrest_pos : 0 <= fold_right Z.add 0 rest).
    { clear -Hrest. induction Hrest as [|a l Ha _ IHl]; [reflexivity|].
      change (0 <= a + fold_right Z.add 0 l). lia. }
    assert (Hleft : 0 < remaining - amount) by lia.
    assert (Hsum' : fold_right Z.add 0 rest < remaining - amount) by lia.
    assert (Hgo : is_Some (consumeUsage st (owner st) user amount)).
    { apply (consumeUsage_goes st user amount _ _ _ _ Hsub). lia. }
    destruct Hgo as [st1 Hst1]. simpl. rewrite Hst1.
    assert (Howner : owner st1 = owner st).
    { destruct (consumeUsage_inv _ _ _ _ _ Hst1) as (? & _ & _ & ->). reflexivity. }
    pose proof (consumeUsage_debits _ _ _ _ _ _ _ _ _ Hst1 Hsub Hleft) as Hsub1.
    destruct (IH st1 user id expiry (remaining - amount) tier Hsub1 Hrest Hsum')
      as (st' & Hall & Hsub').
    exists st'. rewrite <- Howner. split; [exact Hall|].
    rewrite Hsub'.
    change (fold_right Z.add 0 (amount :: rest)) with (amount + fold_right Z.add 0 rest).
    now replace (remaining - (amount + fold_right Z.add 0 rest))
      with (remaining - amount - fold_right Z.add 0 rest) by lia.
Qed.

End ContractMore.

Section Storage.

Import DataAnchoringToken.

Implicit Types (st : storage) (user sender other : string).

(** What a mint that goes through has checked and written, while the
    counter of the tokens has not wrapped. *)
Lemma mintDAT_inv st sender value tier st' :
  0 <= tokenIds st < MAX_UINT256 ->
  mintDAT st sender value tier = Some st' ->
  1 <= tier <= tierCount st
  /\ active (tierAt (core st) tier) = true
  /\ price (tierAt (core st) tier) <= value
  /\ block_timestamp (core st) + duration (tierAt (core st) tier) <= MAX_UINT256
  /\ subscriptionTiers (core st') = subscriptionTiers (core st)
  /\ tokenMetadata (core st')
     = <[tokenIds st + 1 :=
           {| tierId := tier;
              expiryTime := block_timestamp (core st) + duration (tierAt (core st) tier);
              remainingUsage := usageQuota (tierAt (core st) tier);
              contributors := []; revenueShares := [] |}]> (tokenMetadata (core st))
  /\ userTokens (core st')
     = <[sender := (tokensOf (core st) sender ++ [tokenIds st + 1])%list]>
         (userTokens (core st))
  /\ balances (core st')
     = <[(tokenIds st + 1, sender) := balanceOf (core st) sender (tokenIds st + 1) + 1]>
         (balances (core st))
  /\ owner (core st') = owner (core st)
  /\ block_timestamp (core st') = block_timestamp (core st)
  /\ tierCount st' = tierCount st
  /\ tokenIds st' = tokenIds st + 1
  /\ funds st' = funds st + value.
Proof.
  intros Hcounter. unfold mintDAT.
  rewrite (Z.mod_small (tokenIds st + 1)) by lia.
  destruct (Z.gtb_spec tier 0); [|discriminate].
  destruct (Z.leb_spec tier (tierCount st)); [|discriminate]. simpl.
  destruct (active (tierAt (core st) tier)); [|discriminate]. simpl.
  destruct (Z.geb_spec value (price (tierAt (core st) tier))); [|discriminate]. simpl.
  destruct (Z.gtb_spec (block_timestamp (core st) + duration (tierAt (core st) tier))
              MAX_UINT256); [discriminate|].
  destruct (_ >? MAX_UINT256); [discriminate|].
  intros [= <-]. simpl. repeat split; auto; lia.
Qed.

Lemma mint_tokensOf st sender st' user :
  userTokens (core st')
  = <[sender := (tokensOf (core st) sender ++ [tokenIds st + 1])%list]>
      (userTokens (core st)) ->
  tokensOf (core st') user
  = if String.eqb user sender
    then (tokensOf (core st) sender ++ [tokenIds st + 1])%list
    else tokensOf (core st) user.
Proof.
  intros Hu. unfold tokensOf at 1. rewrite Hu.
  destruct (String.eqb_spec user sender) as [->|Hne].
  - now rewrite lookup_insert_eq.
  - now rewrite lookup_insert_ne.
Qed.

Lemma createSubscriptionTier_inv st sender name tierDuration tierPrice quota
    (tierContributors : list string) (shares : list Z) st' :
  createSubscriptionTier st sender name tierDuration tierPrice quota
    tierContributors shares = Some st' ->
  sender = owner (core st)
  /\ List.length tierContributors = List.length shares
  /\ sumShares 0 shares = Some 100
  /\ tierCount st < MAX_UINT256
  /\ subscriptionTiers (core st')
     = <[tierCount st + 1 :=
           {| name := name; duration := tierDuration; price := tierPrice;
              usageQuota := quota; active := true |}]> (subscriptionTiers (core st))
  /\ tokenMetadata (core st') = tokenMetadata (core st)
  /\ userTokens (core st') = userTokens (core st)
  /\ balances (core st') = balances (core st)
  /\ owner (core st') = owner (core st)
  /\ block_timestamp (core st') = block_timestamp (core st)
  /\ tierCount st' = tierCount st + 1
  /\ tokenIds st' = tokenIds st
  /\ funds st' = funds st.
Proof.
  unfold createSubscriptionTier.
  destruct (String.eqb_spec sender (owner (core st))); [|discriminate]. simpl.
  destruct (Nat.eqb_spec (List.length tierContributors) (List.length shares));
    [|discriminate]. simpl.
  destruct (sumShares 0 shares) as [total|]; [|discriminate].
  destruct (Z.eqb_spec total 100); [|discriminate]. simpl.
  destruct (Z.gtb_spec (tierCount st + 1) MAX_UINT256); [discriminate|].
  intros [= <-]. simpl. subst. repeat split; auto; lia.
Qed.

Lemma consume_inv st sender user amount st' :
  consume st sender user amount = Some st' ->
  exists id,
    hasValidSubscription (core st) user = (true, id)
    /\ amount <= remainingUsage (metadataAt (core st) id)
    /\ core st' = debit (core st) id amount
    /\ tierCount st' = tierCount st /\ tokenIds st' = tokenIds st
    /\ funds st' = funds st.
Proof.
  unfold consume.
  destruct (consumeUsage (core st) sender user amount) as [c|] eqn:Hc; [|discriminate].
  intros [= <-]. simpl.
  destruct (consumeUsage_inv _ _ _ _ _ Hc) as (id & Hvalid & Hle & ->).
  exists id. auto 10.
Qed.

Lemma firstValid_In (c : state) user (tokens : list Z) id :
  firstValid c user tokens = (true, id) -> In id tokens.
Proof.
  intros (before & after & -> & _)%firstValid_split.
  apply in_or_app. right. now left.
Qed.

Lemma wellFormed_deployed deployer now : wellFormed (deployed deployer now).
Proof.
  constructor; simpl; try lia.
  - intros id t. rewrite lookup_empty. discriminate.
  - intros id m. rewrite lookup_empty. discriminate.
  - intros user id. unfold tokensOf. simpl. rewrite lookup_empty. intros [].
  - intros user. unfold tokensOf. simpl. rewrite lookup_empty. constructor.
  - intros user other id. unfold tokensOf. simpl. rewrite lookup_empty. intros [].
  - intros id user b. rewrite lookup_empty. discriminate.
Qed.

Lemma wellFormed_atTime st now : wellFormed st -> wellFormed (atTime st now).
Proof. intros []. constructor; simpl; auto. Qed.

Lemma wellFormed_createSubscriptionTier st sender name tierDuration tierPrice quota
    (tierContributors : list string) (shares : list Z) st' :
  wellFormed st -> 0 <= quota ->
  createSubscriptionTier st sender name tierDuration tierPrice quota
    tierContributors shares = Some st' ->
  wellFormed st'.
Proof.
  intros Hwf Hquota Hcreate.
  destruct (createSubscriptionTier_inv _ _ _ _ _ _ _ _ _ Hcreate)
    as (_ & _ & _ & Hmax & Htiers & Hmeta & Hlist & Hbal & _ & _ & Hcount & Hids & Hfunds).
  destruct Hwf.
  assert (Htok : forall user, tokensOf (core st') user = tokensOf (core st) user).
  { intros user. unfold tokensOf. now rewrite Hlist. }
  constructor; rewrite ?Hcount, ?Hids, ?Hfunds, ?Hmeta, ?Hbal; try lia.
  - intros id t. rewrite Htiers.
    intros [[<- <-]|[_ Hold]]%lookup_insert_Some; simpl; [repeat split; lia|].
    destruct (wf_tiers0 _ _ Hold) as (? & ? & ?). repeat split; auto; lia.
  - intros id Hid. rewrite Htiers.
    destruct (Z.eq_dec (tierCount st + 1) id) as [<-|Hne].
    + rewrite lookup_insert_eq. eauto.
    + rewrite lookup_insert_ne by exact Hne. apply wf_tiers_all0. lia.
  - intros id m Hm. destruct (wf_metadata0 _ _ Hm) as (? & ? & ?).
    repeat split; auto; lia.
  - intros user id. rewrite Htok. apply wf_listed0.
  - intros user. rewrite Htok. apply wf_once0.
  - intros user other id. rewrite !Htok. apply wf_one_user0.
  - exact wf_balances0.
Qed.

Lemma wellFormed_mintDAT st sender value tier st' :
  wellFormed st -> tokenIds st < MAX_UINT256 -> 0 <= value ->
  mintDAT st sender value tier = Some st' ->
  wellFormed st'.
Proof.
  intros Hwf Hcounter Hvalue Hmint.
  destruct Hwf.
  assert (Hrange : 0 <= tokenIds st < MAX_UINT256) by lia.
  destruct (mintDAT_inv _ _ _ _ _ Hrange Hmint)
    as (Htier & Hactive & _ & _ & Htiers & Hmeta & Hlist & Hbal & _ & _
        & Hcount & Hids & Hfunds).
  pose proof (mint_tokensOf st sender st') as Htok. specialize (fun u => Htok u Hlist).
  assert (Hquota : 0 <= usageQuota (tierAt (core st) tier)).
  { unfold tierAt. destruct (subscriptionTiers (core st) !! tier) as [t|] eqn:Ht;
      simpl; [|lia]. now destruct (wf_tiers0 _ _ Ht) as (_ & _ & ?). }
  constructor; rewrite ?Hcount, ?Hids, ?Hfunds, ?Htiers; try lia; auto.
  - intros id m. rewrite Hmeta.
    intros [[<- <-]|[_ Hold]]%lookup_insert_Some; simpl; [repeat split; lia|].
    destruct (wf_metadata0 _ _ Hold) as (? & ? & ?). repeat split; auto; lia.
  - intros user id. rewrite Htok.
    destruct (String.eqb user sender).
    + intros [Hold|[<-|[]]]%in_app_or; [|lia].
      specialize (wf_listed0 _ _ Hold). lia.
    + intros Hold. specialize (wf_listed0 _ _ Hold). lia.
  - intros user. rewrite Htok.
    destruct (String.eqb user sender); [|apply wf_once0].
    apply NoDup_app. split; [apply wf_once0|]. split.
    + intros id Hold%list_elem_of_In [->|[]%elem_of_nil]%elem_of_cons.
      specialize (wf_listed0 _ _ Hold). lia.
    + apply NoDup_singleton.
  - intros user other id. rewrite !Htok.
    destruct (String.eqb_spec user sender) as [->|Hu],
             (String.eqb_spec other sender) as [->|Ho]; auto.
    + intros [Hold|[<-|[]]]%in_app_or Hother.
      * eapply wf_one_user0; eassumption.
      * specialize (wf_listed0 _ _ Hother). lia.
    + intros Hu' [Hold|[<-|[]]]%in_app_or.
      * eapply wf_one_user0; eassumption.
      * specialize (wf_listed0 _ _ Hu'). lia.
    + apply wf_one_user0.
  - intros id user b. rewrite Hbal.
    intros [[[= <- <-] <-]|[_ Hold]]%lookup_insert_Some.
    + split; [lia|]. unfold balanceOf.
      destruct (balances (core st) !! (tokenIds st + 1, sender)) as [b|] eqn:Hb;
        simpl; [|lia].
      destruct (wf_balances0 _ _ _ Hb). lia.
    + destruct (wf_balances0 _ _ _ Hold). split; lia.
Qed.

Lemma wellFormed_consume st sender user amount st' :
  wellFormed st -> consume st sender user amount = Some st' -> wellFormed st'.
Proof.
  intros Hwf Hconsume.
  destruct (consume_inv _ _ _ _ _ Hconsume)
    as (id & Hvalid & Hle & Hcore & Hcount & Hids & Hfunds).
  destruct Hwf.
  constructor; rewrite ?Hcount, ?Hids, ?Hfunds, ?Hcore; simpl; auto.
  intros t m [[<- <-]|[_ Hold]]%lookup_insert_Some; simpl; [|eauto].
  pose proof (firstValid_In _ _ _ _ Hvalid) as Hin.
  pose proof (wf_listed0 _ _ Hin).
  unfold metadataAt in *.
  destruct (tokenMetadata (core st) !! id) as [m|] eqn:Hm; simpl in *.
  - destruct (wf_metadata0 _ _ Hm) as (? & ? & ?). repeat split; auto; lia.
  - apply firstValid_positive in Hvalid. unfold metadataAt in Hvalid.
    rewrite Hm in Hvalid. simpl in Hvalid. lia.
Qed.

(** X20. The storage stays well formed: it is after the constructor, and
    after every function that goes through, on amounts that are unsigned
    and while the counter of the tokens has not reached its last value. In
    particular no commit brings the units of a token below 0, and a tier,
    once created, stays on sale. *)
Theorem wellFormed_preserved :
  (forall deployer now, wellFormed (deployed deployer now))
  /\ (forall st now, wellFormed st -> wellFormed (atTime st now))
  /\ (forall st sender name tierDuration tierPrice quota tierContributors shares st',
        wellFormed st -> 0 <= quota ->
        createSubscriptionTier st sender name tierDuration tierPrice quota
          tierContributors shares = Some st' ->
        wellFormed st')
  /\ (forall st sender value tier st',
        wellFormed st -> tokenIds st < MAX_UINT256 -> 0 <= value ->
        mintDAT st sender value tier = Some st' ->
        wellFormed st')
  /\ (forall st sender user amount st',
        wellFormed st -> consume st sender user amount = Some st' -> wellFormed st').
Proof.
  split; [exact wellFormed_deployed|].
  split; [exact wellFormed_atTime|].
  split; [exact wellFormed_createSubscriptionTier|].
  split; [exact wellFormed_mintDAT | exact wellFormed_consume].
Qed.

End Storage.

Section Sale.

Import DataAnchoringToken.

Implicit Types (st : storage) (user sender other : string).

Lemma MAX_UINT256_pos : 1 <= MAX_UINT256.
Proof. unfold MAX_UINT256. lia. Qed.

(** A token past the counter has not been minted: nobody holds it. *)
Lemma fresh_balance st user id :
  wellFormed st -> tokenIds st < id -> balanceOf (core st) user id = 0.
Proof.
  intros Hwf Hid. unfold balanceOf.
  destruct (balances (core st) !! (id, user)) as [b|] eqn:Hb; [|reflexivity].
  destruct (wf_balances st Hwf _ _ _ Hb). lia.
Qed.

(** X21. A tier, once created, cannot be withdrawn from sale: on a well-formed
    storage a mint goes through exactly when the tier exists, the value
    sent covers its price and the expiry fits in 256 bits. The value is
    kept whole, whatever it exceeds the price by. *)
Theorem mintDAT_reverts_unless st sender value tier :
  wellFormed st -> tokenIds st < MAX_UINT256 ->
  (is_Some (mintDAT st sender value tier)
   <-> 1 <= tier <= tierCount st
       /\ price (tierAt (core st) tier) <= value
       /\ block_timestamp (core st) + duration (tierAt (core st) tier) <= MAX_UINT256)
  /\ (forall st', mintDAT st sender value tier = Some st' -> funds st' = funds st + value).
Proof.
  intros Hwf Hcounter.
  assert (Hrange : 0 <= tokenIds st < MAX_UINT256).
  { split; [apply (wf_tokenIds st Hwf) | exact Hcounter]. }
  split.
  - split.
    + intros [st' Hmint].
      destruct (mintDAT_inv _ _ _ _ _ Hrange Hmint) as (? & _ & ? & ? & _). auto.
    + intros (Htier & Hprice & Hexpiry).
      destruct (wf_tiers_all st Hwf tier Htier) as [t Ht].
      destruct (wf_tiers st Hwf _ _ Ht) as (_ & Hactive & _).
      unfold mintDAT. rewrite (Z.mod_small (tokenIds st + 1)) by lia.
      unfold tierAt in *. rewrite Ht in *. simpl in *. rewrite Hactive.
      rewrite (fresh_balance st sender (tokenIds st + 1) Hwf) by lia.
      pose proof MAX_UINT256_pos.
      destruct (Z.gtb_spec tier 0); [|lia].
      destruct (Z.leb_spec tier (tierCount st)); [|lia].
      destruct (Z.geb_spec value (price t)); [|lia].
      destruct (Z.gtb_spec (block_timestamp (core st) + duration t) MAX_UINT256); [lia|].
      destruct (Z.gtb_spec (0 + 1) MAX_UINT256); [lia|].
      simpl. eauto.
  - intros st' Hmint.
    now destruct (mintDAT_inv _ _ _ _ _ Hrange Hmint)
      as (_ & _ & _ & _ & _ & _ & _ & _ & _ & _ & _ & _ & ?).
Qed.

Lemma firstValid_snoc (c c' : state) user (tokens : list Z) id :
  block_timestamp c' = block_timestamp c ->
  (forall t, In t tokens ->
     balanceOf c' user t = balanceOf c user t /\ metadataAt c' t = metadataAt c t) ->
  usable c' user id = true ->
  firstValid c' user (tokens ++ [id])
  = if fst (firstValid c user tokens) then firstValid c user tokens else (true, id).
Proof.
  intros Htime Hsame Hid.
  destruct (firstValid c user tokens) as [[] found] eqn:Hfirst; simpl.
  - destruct (firstValid_split _ _ _ _ Hfirst) as (before & after & -> & Hbefore & Hfound).
    rewrite <- app_assoc.
    rewrite (firstValid_skip c' user before).
    + apply firstValid_head.
      destruct (Hsame found ltac:(apply in_or_app; right; now left)) as [Hb Hm].
      unfold usable in *. now rewrite Hb, Hm, Htime.
    + apply Forall_forall. intros t Ht.
      rewrite Forall_forall in Hbefore. specialize (Hbefore t Ht).
      apply list_elem_of_In in Ht.
      destruct (Hsame t ltac:(apply in_or_app; now left)) as [Hb Hm].
      unfold usable in *. now rewrite Hb, Hm, Htime.
  - destruct (firstValid_invalid _ _ _ _ Hfirst) as [_ Hnone].
    rewrite firstValid_skip; [now apply firstValid_head|].
    apply Forall_forall. intros t Ht. rewrite Forall_forall in Hnone.
    specialize (Hnone t Ht). apply list_elem_of_In in Ht.
    destruct (Hsame t Ht) as [Hb Hm]. unfold usable in *.
    now rewrite Hb, Hm, Htime.
Qed.

(** X22. A mint of a tier with a duration and a quota gives the sender a
    subscription: the new token, with the quota of the tier and an expiry
    one duration from the block, unless the sender had a subscription
    already, which then stays in use and leaves the new token waiting
    behind it, its expiry running. *)
Theorem mint_grants_subscription st sender value tier st' :
  wellFormed st -> tokenIds st < MAX_UINT256 ->
  mintDAT st sender value tier = Some st' ->
  0 < duration (tierAt (core st) tier) ->
  0 < usageQuota (tierAt (core st) tier) ->
  getUserSubscription (core st') sender
  = if fst (hasValidSubscription (core st) sender)
    then getUserSubscription (core st) sender
    else (true, tokenIds st + 1,
          block_timestamp (core st) + duration (tierAt (core st) tier),
          usageQuota (tierAt (core st) tier), name (tierAt (core st) tier)).
Proof.
  intros Hwf Hcounter Hmint Hduration Hquota.
  assert (Hrange : 0 <= tokenIds st < MAX_UINT256).
  { split; [apply (wf_tokenIds st Hwf) | exact Hcounter]. }
  destruct (mintDAT_inv _ _ _ _ _ Hrange Hmint)
    as (Htier & _ & _ & _ & Htiers & Hmeta & Hlist & Hbal & _ & Htime & _).
  pose proof (mint_tokensOf st sender st' sender Hlist) as Htok.
  rewrite String.eqb_refl in Htok.
  assert (Hold : forall t, In t (tokensOf (core st) sender) ->
            balanceOf (core st') sender t = balanceOf (core st) sender t
            /\ metadataAt (core st') t = metadataAt (core st) t).
  { intros t Ht. pose proof (wf_listed st Hwf _ _ Ht).
    unfold balanceOf, metadataAt. rewrite Hbal, Hmeta.
    rewrite !lookup_insert_ne; [auto | lia | intros Heq; injection Heq; intros; lia]. }
  assert (Hnew : metadataAt (core st') (tokenIds st + 1)
                 = {| tierId := tier;
                      expiryTime := block_timestamp (core st)
                                    + duration (tierAt (core st) tier);
                      remainingUsage := usageQuota (tierAt (core st) tier);
                      contributors := []; revenueShares := [] |}).
  { unfold metadataAt. now rewrite Hmeta, lookup_insert_eq. }
  assert (Husable : usable (core st') sender (tokenIds st + 1) = true).
  { unfold usable. rewrite Hnew, Htime. unfold balanceOf at 1.
    rewrite Hbal, lookup_insert_eq. simpl.
    rewrite (fresh_balance st sender (tokenIds st + 1) Hwf) by lia.
    apply andb_true_iff. split; [apply andb_true_iff; split|]; lia. }
  assert (Htier_same : forall i, tierAt (core st') i = tierAt (core st) i).
  { intros i. unfold tierAt. now rewrite Htiers. }
  unfold getUserSubscription, hasValidSubscription. rewrite Htok.
  rewrite (firstValid_snoc (core st) (core st') sender _ _ Htime Hold Husable).
  destruct (firstValid (core st) sender (tokensOf (core st) sender))
    as [[] found] eqn:Hfirst; simpl.
  - destruct (Hold found (firstValid_In _ _ _ _ Hfirst)) as [_ ->].
    now rewrite Htier_same.
  - now rewrite Hnew, Htier_same.
Qed.

(** X23. A function of the contract changes the subscription of nobody but
    the user it is called for: a mint that of the sender only, a commit
    that of its user only, and the creation of a tier that of nobody. *)
Theorem other_users_unaffected st :
  wellFormed st ->
  (forall sender value tier st' other,
     tokenIds st < MAX_UINT256 -> mintDAT st sender value tier = Some st' ->
     other <> sender ->
     getUserSubscription (core st') other = getUserSubscription (core st) other)
  /\ (forall sender user amount st' other,
        consume st sender user amount = Some st' -> other <> user ->
        getUserSubscription (core st') other = getUserSubscription (core st) other)
  /\ (forall sender name tierDuration tierPrice quota tierContributors shares st' user,
        createSubscriptionTier st sender name tierDuration tierPrice quota
          tierContributors shares = Some st' ->
        getUserSubscription (core st') user = getUserSubscription (core st) user).
Proof.
  intros Hwf.
  assert (Hframe : forall (c' : state) user,
            tokensOf c' user = tokensOf (core st) user ->
            block_timestamp c' = block_timestamp (core st) ->
            (forall t, In t (tokensOf (core st) user) ->
               balanceOf c' user t = balanceOf (core st) user t
               /\ metadataAt c' t = metadataAt (core st) t
               /\ tierAt c' (tierId (metadataAt (core st) t))
                  = tierAt (core st) (tierId (metadataAt (core st) t))) ->
            getUserSubscription c' user = getUserSubscription (core st) user).
  { intros c' user Htok Htime Hsame.
    unfold getUserSubscription, hasValidSubscription. rewrite Htok.
    rewrite (firstValid_ext (core st) c' user _ Htime)
      by (intros t Ht; destruct (Hsame t Ht) as (? & ? & _); auto).
    destruct (firstValid (core st) user (tokensOf (core st) user))
      as [[] found] eqn:Hfirst; [|reflexivity].
    destruct (Hsame found (firstValid_In _ _ _ _ Hfirst)) as (_ & -> & ->).
    reflexivity. }
  split; [|split].
  - intros sender value tier st' other Hcounter Hmint Hother.
    assert (Hrange : 0 <= tokenIds st < MAX_UINT256).
    { split; [apply (wf_tokenIds st Hwf) | exact Hcounter]. }
    destruct (mintDAT_inv _ _ _ _ _ Hrange Hmint)
      as (_ & _ & _ & _ & Htiers & Hmeta & Hlist & Hbal & _ & Htime & _).
    apply Hframe; [|exact Htime|].
    + rewrite (mint_tokensOf st sender st' other Hlist).
      now destruct (String.eqb_spec other sender).
    + intros t Ht. pose proof (wf_listed st Hwf _ _ Ht).
      unfold balanceOf, metadataAt, tierAt. rewrite Hbal, Hmeta, Htiers.
      rewrite !lookup_insert_ne; [auto | lia | intros Heq; injection Heq; intros; lia].
  - intros sender user amount st' other Hconsume Hother.
    destruct (consume_inv _ _ _ _ _ Hconsume) as (id & Hvalid & _ & Hcore & _).
    rewrite Hcore. apply Hframe; [reflexivity | reflexivity |].
    intros t Ht. split; [reflexivity|]. split; [|reflexivity].
    apply debit_metadata_other. intros ->.
    apply Hother. symmetry.
    exact (wf_one_user st Hwf _ _ _ (firstValid_In _ _ _ _ Hvalid) Ht).
  - intros sender name tierDuration tierPrice quota tierContributors shares st' user
      Hcreate.
    destruct (createSubscriptionTier_inv _ _ _ _ _ _ _ _ _ Hcreate)
      as (_ & _ & _ & _ & Htiers & Hmeta & Hlist & Hbal & _ & Htime & _).
    apply Hframe; [unfold tokensOf; now rewrite Hlist | exact Htime |].
    intros t Ht. unfold balanceOf, metadataAt, tierAt. rewrite Hbal, Hmeta, Htiers.
    split; [reflexivity|]. split; [reflexivity|].
    rewrite lookup_insert_ne; [reflexivity|].
    destruct (tokenMetadata (core st) !! t) as [m|] eqn:Hm; simpl.
    + destruct (wf_metadata st Hwf _ _ Hm) as (_ & _ & ?). lia.
    + pose proof (wf_tierCount st Hwf). lia.
Qed.

End Sale.

(** *** The theorems on the sample contract *)

Lemma shop_created :
  DataAnchoringToken.createSubscriptionTier (DataAnchoringToken.deployed "0x0a" 100)
    "0x0a" "Monthly Access" 2592000 (10 ^ 17) 100 ["0xc1"; "0xc2"] [60; 40] = Some shop.
Proof. vm_compute. reflexivity. Qed.

Lemma shop_wellFormed : DataAnchoringToken.wellFormed shop.
Proof.
  refine (wellFormed_createSubscriptionTier _ _ _ _ _ _ _ _ _
            (wellFormed_deployed "0x0a" 100) _ shop_created).
  lia.
Qed.

Lemma shop_counter : DataAnchoringToken.tokenIds shop < DataAnchoringToken.MAX_UINT256.
Proof. vm_compute. reflexivity. Qed.

Lemma minted_minted : DataAnchoringToken.mintDAT shop "0xabc" (10 ^ 17) 1 = Some minted.
Proof. vm_compute. reflexivity. Qed.

Lemma subscription_is_first_usable_witness :
  DataAnchoringToken.getUserSubscription (DataAnchoringToken.core mintedTwice) "0xabc"
  = (true, 1, 2592100, 100, "Monthly Access")
  /\ DataAnchoringToken.getUserSubscription (DataAnchoringToken.core mintedTwice) "0xdef"
     = (false, 0, 0, 0, "").
Proof.
  destruct (subscription_is_first_usable (DataAnchoringToken.core mintedTwice) "0xabc")
    as [_ Hfirst].
  destruct (subscription_is_first_usable (DataAnchoringToken.core mintedTwice) "0xdef")
    as [Hnone _].
  split.
  - exact (Hfirst [] 1 [2] ltac:(vm_compute; reflexivity) ltac:(constructor)
             ltac:(vm_compute; reflexivity)).
  - apply Hnone. vm_compute. constructor.
Defined.

Lemma exhausted_token_passes_on_witness :
  exists st',
    DataAnchoringToken.consumeUsage (DataAnchoringToken.core mintedTwice) "0x0a" "0xabc" 100
    = Some st'
    /\ DataAnchoringToken.hasValidSubscription st' "0xabc" = (true, 2).
Proof.
  destruct (exhausted_token_passes_on (DataAnchoringToken.core mintedTwice) "0xabc"
              [] [2] 1 ltac:(vm_compute; reflexivity) ltac:(constructor)
              ltac:(vm_compute; reflexivity)
              ltac:(intros [H|[]]; discriminate H))
    as (st' & Hdone & Hnext).
  exists st'. split; [exact Hdone|]. rewrite Hnext. vm_compute. reflexivity.
Defined.

Lemma consumeAll_conserves_witness :
  exists st',
    DataAnchoringToken.consumeAll (DataAnchoringToken.core minted) "0x0a" "0xabc" [1; 2; 3]
    = Some st'
    /\ DataAnchoringToken.getUserSubscription st' "0xabc"
       = (true, 1, 2592100, 94, "Monthly Access").
Proof.
  exact (consumeAll_conserves [1; 2; 3] (DataAnchoringToken.core minted) "0xabc"
           1 2592100 100 "Monthly Access" ltac:(vm_compute; reflexivity)
           ltac:(repeat constructor; discriminate) ltac:(vm_compute; reflexivity)).
Defined.

Lemma mintDAT_reverts_unless_witness :
  is_Some (DataAnchoringToken.mintDAT shop "0xabc" (3 * 10 ^ 17) 1)
  /\ ~ is_Some (DataAnchoringToken.mintDAT shop "0xabc" (10 ^ 17 - 1) 1)
  /\ DataAnchoringToken.funds
       (default shop (DataAnchoringToken.mintDAT shop "0xabc" (3 * 10 ^ 17) 1))
     = 3 * 10 ^ 17.
Proof.
  destruct (mintDAT_reverts_unless shop "0xabc" (3 * 10 ^ 17) 1
              shop_wellFormed shop_counter) as [[_ Hgo] Hfunds].
  destruct (mintDAT_reverts_unless shop "0xabc" (10 ^ 17 - 1) 1
              shop_wellFormed shop_counter) as [[Hno _] _].
  split; [|split].
  - apply Hgo. vm_compute. repeat split; discriminate.
  - intros (_ & Hprice & _)%Hno. vm_compute in Hprice. now apply Hprice.
  - destruct (DataAnchoringToken.mintDAT shop "0xabc" (3 * 10 ^ 17) 1) as [st'|] eqn:Hmint.
    + simpl. now rewrite (Hfunds st' eq_refl).
    + vm_compute in Hmint. discriminate.
Defined.

Lemma mint_grants_subscription_witness :
  DataAnchoringToken.getUserSubscription (DataAnchoringToken.core minted) "0xabc"
  = (true, 1, 2592100, 100, "Monthly Access").
Proof.
  exact (mint_grants_subscription shop "0xabc" (10 ^ 17) 1 minted
           shop_wellFormed shop_counter minted_minted
           ltac:(vm_compute; reflexivity) ltac:(vm_compute; reflexivity)).
Defined.

Lemma other_users_unaffected_witness :
  DataAnchoringToken.getUserSubscription (DataAnchoringToken.core minted) "0xdef"
  = DataAnchoringToken.getUserSubscription (DataAnchoringToken.core shop) "0xdef".
Proof.
  destruct (other_users_unaffected shop shop_wellFormed) as (Hmint & _ & _).
  apply (Hmint "0xabc" (10 ^ 17) 1 minted "0xdef" shop_counter minted_minted).
  discriminate.
Defined.

(** ** The wallet manager *)

Section Wallet.

Import JsNumber WalletManager.

Lemma to_hex_int_proper (z : Z) :
  Z.to_hex_int z <> Hexadecimal.Pos Hexadecimal.Nil
  /\ Z.to_hex_int z <> Hexadecimal.Neg Hexadecimal.Nil.
Proof.
  destruct z as [|p|p]; simpl; split; try discriminate;
    intros [= Hp]; exact (HexadecimalPos.Unsigned.to_uint_nonnil p Hp).
Qed.

(** Two integers print alike in radix 16 only when they are equal. *)
Lemma toString16_inj (a b : Z) : toString16 (Int a) = toString16 (Int b) -> a = b.
Proof.
  simpl. intros Heq. apply HexadecimalZ.to_int_inj.
  destruct (to_hex_int_proper a) as [Ha Ha'], (to_hex_int_proper b) as [Hb Hb'].
  pose proof (HexadecimalString.NilZero.isi _ Ha Ha') as Hpa.
  pose proof (HexadecimalString.NilZero.isi _ Hb Hb') as Hpb.
  rewrite Heq in Hpa. congruence.
Qed.

Lemma chain_eqb (k z : Z) :
  String.eqb ("0x" ++ toString16 (Int k)) ("0x" ++ toString16 (Int z)) = (k =? z).
Proof.
  destruct (Z.eqb_spec k z) as [->|Hne]; [apply String.eqb_refl|].
  apply String.eqb_neq. intros Heq. apply Hne, toString16_inj.
  now injection Heq.
Qed.

Lemma supported_ids :
  List.map (fun network => parseInt16 (net_chainId network)) networks
  = [Int 1; Int 11155111; Int 137].
Proof. vm_compute. reflexivity. Qed.

Lemma find_network (z : Z) :
  List.find (fun network =>
               String.eqb (net_chainId network) ("0x" ++ toString16 (Int z))) networks
  = List.find (fun network =>
                 sameValueZero (parseInt16 (net_chainId network)) (Int z)) networks.
Proof.
  unfold networks, SUPPORTED_NETWORKS, ethereum, sepolia, polygon.
  cbn [List.map snd List.find net_chainId].
  change "0x1" with ("0x" ++ toString16 (Int 1)) at 1.
  change "0xaa36a7" with ("0x" ++ toString16 (Int 11155111)) at 1.
  change "0x89" with ("0x" ++ toString16 (Int 137)) at 1.
  rewrite !chain_eqb.
  replace (parseInt16 "0x1") with (Int 1) by (vm_compute; reflexivity).
  replace (parseInt16 "0xaa36a7") with (Int 11155111) by (vm_compute; reflexivity).
  replace (parseInt16 "0x89") with (Int 137) by (vm_compute; reflexivity).
  reflexivity.
Qed.

(** X24. The two tests of the network agree: for the chain id of the state,
    [isValidNetwork] holds exactly when [getCurrentNetwork] finds a network,
    which is when the id is 1, 11155111 or 137; the network found is the
    supported one whose id, read in radix 16, is the chain id. [NaN], 0, the
    infinities and the negative ids are neither valid nor found. *)
Theorem network_lookup_agrees (m : Manager) (n : number) :
  chainId (state m) = Some n ->
  (isValidNetwork n = true <-> is_Some (getCurrentNetwork m))
  /\ (isValidNetwork n = true <-> n = Int 1 \/ n = Int 11155111 \/ n = Int 137)
  /\ (forall network, getCurrentNetwork m = Some network ->
        In network networks /\ parseInt16 (net_chainId network) = n).
Proof.
  intros Hn. unfold getCurrentNetwork, isValidNetwork. rewrite Hn, supported_ids.
  destruct n as [|negative|z].
  - simpl. split; [split; [discriminate | intros [? [=]]]|].
    split; [|discriminate]. split; [discriminate | intros [|[|]]; discriminate].
  - assert (Hnone : List.find (fun network =>
                        String.eqb (net_chainId network)
                          ("0x" ++ toString16 (Infinity negative))) networks = None)
      by (destruct negative; vm_compute; reflexivity).
    cbn [falsy]. rewrite Hnone. simpl.
    split; [split; [discriminate | intros [? [=]]]|].
    split; [|discriminate]. split; [discriminate | intros [|[|]]; discriminate].
  - cbn [falsy]. rewrite find_network.
    unfold networks, SUPPORTED_NETWORKS, ethereum, sepolia, polygon.
  cbn [List.map snd List.find net_chainId].
    replace (parseInt16 "0x1") with (Int 1) by (vm_compute; reflexivity).
    replace (parseInt16 "0xaa36a7") with (Int 11155111) by (vm_compute; reflexivity).
    replace (parseInt16 "0x89") with (Int 137) by (vm_compute; reflexivity).
    cbn [existsb sameValueZero]. rewrite orb_false_r.
    rewrite (Z.eqb_sym 1 z), (Z.eqb_sym 11155111 z), (Z.eqb_sym 137 z).
    destruct (Z.eqb_spec z 1) as [->|H1]; [|destruct (Z.eqb_spec z 11155111) as [->|H2];
      [|destruct (Z.eqb_spec z 137) as [->|H3]]]; simpl.
    + split; [split; eauto|]. split; [split; auto|].
      intros found [= <-]. split; [now left | reflexivity].
    + split; [split; eauto|]. split; [split; auto|].
      intros found [= <-]. split; [right; now left | reflexivity].
    + split; [split; eauto|]. split; [split; auto|].
      intros found [= <-]. split; [right; right; now left | reflexivity].
    + assert (Hnone : (if z =? 0 then None else None) = (None : option NetworkConfig))
        by now destruct (z =? 0).
      rewrite Hnone. split; [split; [discriminate | intros [? [=]]]|].
      split; [|discriminate].
      split; [discriminate|]. intros [[=]|[[=]|[=]]]; contradiction.
Qed.

(** X25. A change of chain selects the network whatever the spelling of the
    id the wallet sends: when the id reads in radix 16 as the id of a
    supported network does, in upper case or with zeros in front say, then
    after [handleChainChanged] the network is the current one and is valid;
    the listeners of [stateChanged] are called with the new state, then
    those of [chainChanged] with the number, and nobody else. *)
Theorem chain_change_selects_network (m : Manager) (chainId : string)
    (network : NetworkConfig) :
  In network networks ->
  parseInt16 chainId = parseInt16 (net_chainId network) ->
  let m' := handleChainChanged chainId m in
  getCurrentNetwork m' = Some network
  /\ isValidNetwork (parseInt16 chainId) = true
  /\ listeners m' = listeners m
  /\ calls m'
     = (calls m
        ++ List.map (fun listener => (listener, StateData (state m')))
             (registered "stateChanged" m)
        ++ List.map (fun listener => (listener, NumberData (parseInt16 chainId)))
             (registered "chainChanged" m))%list.
Proof.
  intros Hin Hparse.
  assert (Hstate : WalletManager.chainId (state (handleChainChanged chainId m))
                   = Some (parseInt16 chainId)) by reflexivity.
  split; [|split; [|split; [reflexivity|]]].
  - unfold getCurrentNetwork. rewrite Hstate, Hparse.
    destruct Hin as [<-|[<-|[<-|[]]]]; vm_compute; reflexivity.
  - rewrite Hparse. destruct Hin as [<-|[<-|[<-|[]]]]; vm_compute; reflexivity.
  - unfold handleChainChanged, updateState, emit, registered. simpl.
    now rewrite <- app_assoc.
Qed.

Lemma removeFirst_snoc (listener : nat) (eventListeners : list nat) :
  removeFirst listener (eventListeners ++ [listener])
  = if bool_decide (listener ∈ eventListeners)
    then (removeFirst listener eventListeners ++ [listener])%list
    else eventListeners.
Proof.
  induction eventListeners as [|l rest IH].
  - cbn [app removeFirst]. rewrite Nat.eqb_refl.
    now rewrite (bool_decide_eq_false_2 (listener ∈ [])) by (intros Hnil%elem_of_nil; exact Hnil).
  - cbn [app removeFirst]. destruct (Nat.eqb_spec l listener) as [->|Hne].
    + now rewrite (bool_decide_eq_true_2 (listener ∈ listener :: rest))
        by (apply elem_of_cons; now left).
    + rewrite IH. destruct (decide (listener ∈ rest)) as [Hin|Hnot].
      * rewrite (bool_decide_eq_true_2 _ Hin).
        now rewrite (bool_decide_eq_true_2 (listener ∈ l :: rest))
          by (apply elem_of_cons; now right).
      * rewrite (bool_decide_eq_false_2 _ Hnot).
        rewrite (bool_decide_eq_false_2 (listener ∈ l :: rest)); [reflexivity|].
        intros [->|Hin]%elem_of_cons; [now apply Hne | contradiction].
Qed.

Lemma count_removeFirst (listener l : nat) (eventListeners : list nat) :
  count_occ Nat.eq_dec (removeFirst listener eventListeners) l
  = (count_occ Nat.eq_dec eventListeners l
     - (if bool_decide (l = listener /\ listener ∈ eventListeners) then 1 else 0))%nat.
Proof.
  induction eventListeners as [|x rest IH].
  - cbn [removeFirst count_occ]. now destruct (bool_decide _).
  - cbn [removeFirst count_occ]. destruct (Nat.eqb_spec x listener) as [->|Hne].
    + destruct (Nat.eq_dec listener l) as [->|Hl].
      * rewrite (bool_decide_eq_true_2 (l = l /\ l ∈ l :: rest))
          by (split; [reflexivity | apply elem_of_cons; now left]).
        lia.
      * rewrite (bool_decide_eq_false_2 (l = listener /\ listener ∈ listener :: rest))
          by (intros [-> _]; contradiction).
        lia.
    + cbn [count_occ]. rewrite IH.
      destruct (decide (l = listener /\ listener ∈ rest)) as [Hyes|Hno].
      * rewrite (bool_decide_eq_true_2 _ Hyes).
        rewrite (bool_decide_eq_true_2 (l = listener /\ listener ∈ x :: rest))
          by (destruct Hyes; split; [assumption | apply elem_of_cons; now right]).
        destruct Hyes as [-> _].
        destruct (Nat.eq_dec x listener); [contradiction | reflexivity].
      * rewrite (bool_decide_eq_false_2 _ Hno).
        rewrite (bool_decide_eq_false_2 (l = listener /\ listener ∈ x :: rest)).
        -- destruct (Nat.eq_dec x l); lia.
        -- intros [-> [->|Hin]%elem_of_cons]; [now apply Hne | apply Hno; auto].
Qed.

(** X26. [off] takes away one registration of the listener, the first, and
    touches nothing else: the other events, the state and the calls made
    stay as they were, every other listener is registered as often as
    before, and the listener itself once less if it was registered.
    Registering a listener and removing it again restores the listeners of
    the event when it was not registered before; when it was, its earliest
    registration is the one that goes. *)
Theorem off_removes_one_registration (event : string) (listener : nat) (m : Manager) :
  let m' := off event listener m in
  (forall other, other <> event -> listeners m' !! other = listeners m !! other)
  /\ state m' = state m /\ calls m' = calls m
  /\ (forall l, count_occ Nat.eq_dec (registered event m') l
                = (count_occ Nat.eq_dec (registered event m) l
                   - (if bool_decide (l = listener /\ listener ∈ registered event m)
                      then 1 else 0))%nat)
  /\ registered event (off event listener (on event listener m))
     = if bool_decide (listener ∈ registered event m)
       then (removeFirst listener (registered event m) ++ [listener])%list
       else registered event m.
Proof.
  cbv zeta. unfold off, registered.
  split; [|split; [|split; [|split]]].
  - intros other Hother. destruct (listeners m !! event); simpl; [|reflexivity].
    now rewrite lookup_insert_ne.
  - now destruct (listeners m !! event).
  - now destruct (listeners m !! event).
  - intros l. destruct (listeners m !! event) as [eventListeners|] eqn:He; simpl.
    + rewrite lookup_insert_eq. simpl. apply count_removeFirst.
    + rewrite He. simpl. now destruct (bool_decide _).
  - unfold on, registered. simpl. rewrite lookup_insert_eq. simpl.
    rewrite lookup_insert_eq. simpl. apply removeFirst_snoc.
Qed.

End Wallet.

Lemma network_lookup_agrees_witness :
  ~ is_Some (WalletManager.getCurrentNetwork
               (WalletManager.handleChainChanged "0x5" connected))
  /\ WalletManager.isValidNetwork (JsNumber.Int 5) = false.
Proof.
  cbv zeta.
  destruct (network_lookup_agrees (WalletManager.handleChainChanged "0x5" connected)
              (JsNumber.Int 5) ltac:(vm_compute; reflexivity)) as (Hfound & Hids & _).
  assert (Hinvalid : WalletManager.isValidNetwork (JsNumber.Int 5) = false).
  { apply not_true_is_false. intros Hv.
    destruct (proj1 Hids Hv) as [|[|]]; discriminate. }
  split; [|exact Hinvalid].
  intros Hsome%Hfound. rewrite Hinvalid in Hsome. discriminate.
Defined.

Lemma chain_change_selects_network_witness :
  let m' := WalletManager.handleChainChanged "0x00AA36A7" connected in
  WalletManager.getCurrentNetwork m' = Some WalletManager.sepolia
  /\ WalletManager.calls m' = [(7%nat, WalletManager.NumberData (JsNumber.Int 11155111))].
Proof.
  cbv zeta.
  destruct (chain_change_selects_network connected "0x00AA36A7" WalletManager.sepolia
              ltac:(right; left; reflexivity) ltac:(vm_compute; reflexivity))
    as (Hnet & _ & _ & Hcalls).
  split; [exact Hnet|]. rewrite Hcalls. vm_compute. reflexivity.
Defined.

Lemma off_removes_one_registration_witness :
  let m := WalletManager.on "chainChanged" 2 connected in
  WalletManager.registered "chainChanged"
    (WalletManager.off "chainChanged" 7 (WalletManager.on "chainChanged" 7 m))
  = [2%nat; 7%nat].
Proof.
  cbv zeta.
  destruct (off_removes_one_registration "chainChanged" 7
              (WalletManager.on "chainChanged" 2 connected))
    as (_ & _ & _ & _ & Hback).
  rewrite Hback. vm_compute. reflexivity.
Defined.

(** ** The billing manager *)

Section BillingProperties.

Import BillingManager.

Variable toNumber : Z -> option Z.

(** The events built mirror the log, one for one, unless an amount cannot
    be read. *)
Lemma usageEventsOf_built (events : list Log) : forall index now t,
  match usageEventsOf toNumber events index now t with
  | (Some built, t') =>
      Forall (fun event => amountOf toNumber event <> None) events
      /\ List.length built = List.length events
      /\ Forall (fun usageEvent => cost usageEvent = usageAmount usageEvent) built
  | (None, _) => Exists (fun event => amountOf toNumber event = None) events
  end.
Proof.
  induction events as [|event rest IH]; intros index now t; simpl.
  - auto.
  - destruct (amountOf toNumber event) as [n|] eqn:Hn; [|now left].
    specialize (IH (S index) now (S t)).
    destruct (usageEventsOf toNumber rest (S index) now (S t)) as [[built|] t']; simpl.
    + destruct IH as (Hall & Hlen & Hcost). split; [|split].
      * constructor; [congruence | exact Hall].
      * simpl. now rewrite Hlen.
      * constructor; [reflexivity | exact Hcost].
    + now right.
Qed.

(** X27. The usage events are fetched once for a starting block: a list
    held in the cache is returned as it is, without a query of the log and
    without a reading of the clock, whatever the log holds by then; a call
    that finds no list queries the log once; what it stores is what it
    returns, and when it stores nothing it returns no event and leaves the
    cache as it was, so that the next call queries again, as does the call
    after [clearCache]. *)
Theorem usage_events_memoized (fromBlock : Z) (s : State) :
  let key := "usage_" ++ JsString.numberToString fromBlock in
  let r := getUsageEvents toNumber fromBlock s in
  (forall events, eventCache s !! key = Some events -> r = (events, s))
  /\ (eventCache s !! key = None ->
      asked (snd r) = (asked s ++ [fromBlock])%list
      /\ (eventCache (snd r) = <[key := fst r]> (eventCache s)
          \/ fst r = [] /\ eventCache (snd r) = eventCache s))
  /\ (forall events, eventCache (snd r) !! key = Some events -> events = fst r)
  /\ asked (snd (getUsageEvents toNumber fromBlock (clearCache (snd r))))
     = (asked (snd r) ++ [fromBlock])%list.
Proof.
  unfold getUsageEvents. cbv zeta.
  split; [|split; [|split]].
  - intros events ->. reflexivity.
  - intros ->.
    destruct (logs s (List.length (asked s)) fromBlock) as [events|]; [|auto].
    destruct (usageEventsOf toNumber events 0 (clock s) (ticks s)) as [[built|] t];
      simpl; auto.
  - intros events.
    destruct (eventCache s !! ("usage_" ++ JsString.numberToString fromBlock))
      as [cached|] eqn:Hc; cbn [fst snd eventCache].
    + rewrite Hc. now intros [= <-].
    + destruct (logs s (List.length (asked s)) fromBlock) as [logged|];
        cbn [fst snd eventCache]; [|rewrite Hc; discriminate].
      destruct (usageEventsOf toNumber logged 0 (clock s) (ticks s)) as [[built|] t];
        cbn [fst snd eventCache].
      * rewrite lookup_insert_eq. now intros [= <-].
      * rewrite Hc. discriminate.
  - unfold clearCache. cbn [eventCache]. rewrite lookup_empty.
    destruct (logs _ _ fromBlock) as [logged|]; [|reflexivity].
    destruct (usageEventsOf toNumber logged 0 _ _) as [[built|] t]; reflexivity.
Qed.

(** X28. One amount that cannot be read empties the history: when the log
    is read and [toNumber] throws on the amount of one event, no event is
    returned and nothing is stored; when every amount is read, there are as
    many events as the log has, each with a cost equal to its usage, and
    they are stored. *)
Theorem unreadable_amount_empties_history (fromBlock : Z) (s : State)
    (events : list Log) :
  eventCache s !! ("usage_" ++ JsString.numberToString fromBlock) = None ->
  logs s (List.length (asked s)) fromBlock = Some events ->
  let r := getUsageEvents toNumber fromBlock s in
  (Exists (fun event => amountOf toNumber event = None) events ->
   fst r = [] /\ eventCache (snd r) = eventCache s)
  /\ (Forall (fun event => amountOf toNumber event <> None) events ->
      List.length (fst r) = List.length events
      /\ Forall (fun usageEvent => cost usageEvent = usageAmount usageEvent) (fst r)
      /\ eventCache (snd r) !! ("usage_" ++ JsString.numberToString fromBlock)
         = Some (fst r)).
Proof.
  intros Hc Hlog. unfold getUsageEvents. cbv zeta. rewrite Hc, Hlog.
  pose proof (usageEventsOf_built events 0%nat (clock s) (ticks s)) as Hbuilt.
  destruct (usageEventsOf toNumber events 0 (clock s) (ticks s)) as [[built|] t]; simpl.
  - destruct Hbuilt as (Hall & Hlen & Hcost). split.
    + intros Hex. exfalso. apply Exists_exists in Hex as (event & Hin & Hnone).
      rewrite Forall_forall in Hall. exact (Hall event Hin Hnone).
    + intros _. rewrite lookup_insert_eq. auto.
  - split; [auto|]. intros Hall. exfalso.
    apply Exists_exists in Hbuilt as (event & Hin & Hnone).
    rewrite Forall_forall in Hall. exact (Hall event Hin Hnone).
Qed.

(** X29. The usage billed to a user does not depend on the case of the
    letters of the address, on either side: the events returned for an
    address are those of the list from block 0 whose user is that address
    up to case, in their order, and every spelling of the address gets the
    same events and leaves the same state. *)
Theorem user_usage_case_insensitive (address : string) (s : State) :
  getUserUsageEvents toNumber (JsString.toLowerCase address) s
  = getUserUsageEvents toNumber address s
  /\ snd (getUserUsageEvents toNumber address s) = snd (getUsageEvents toNumber 0 s)
  /\ (forall event,
        In event (fst (getUserUsageEvents toNumber address s))
        <-> In event (fst (getUsageEvents toNumber 0 s))
            /\ JsString.toLowerCase (userAddress event) = JsString.toLowerCase address).
Proof.
  unfold getUserUsageEvents. rewrite toLowerCase_idempotent.
  destruct (getUsageEvents toNumber 0 s) as [allEvents s']. simpl.
  split; [reflexivity|]. split; [reflexivity|].
  intros event. rewrite List.filter_In. now rewrite String.eqb_eq.
Qed.

End BillingProperties.

Lemma usage_events_memoized_witness :
  let r := BillingManager.getUsageEvents safeNumber 0 (billing 3) in
  BillingManager.getUsageEvents safeNumber 0 (snd r) = (fst r, snd r)
  /\ BillingManager.asked (snd r) = [0].
Proof.
  cbv zeta.
  destruct (usage_events_memoized safeNumber 0
              (snd (BillingManager.getUsageEvents safeNumber 0 (billing 3))))
    as (Hhit & _).
  split; [|vm_compute; reflexivity].
  set (r := BillingManager.getUsageEvents safeNumber 0 (billing 3)) in *.
  apply Hhit. vm_compute. reflexivity.
Defined.

Lemma unreadable_amount_empties_history_witness :
  fst (BillingManager.getUsageEvents safeNumber 0 (billing (2 ^ 53))) = []
  /\ List.length (fst (BillingManager.getUsageEvents safeNumber 0 (billing 3))) = 2%nat.
Proof.
  destruct (unreadable_amount_empties_history safeNumber 0 (billing (2 ^ 53))
              _ eq_refl eq_refl) as [Hempty _].
  destruct (unreadable_amount_empties_history safeNumber 0 (billing 3)
              _ eq_refl eq_refl) as [_ Hfull].
  split.
  - apply Hempty. right. left. vm_compute. reflexivity.
  - apply Hfull. repeat constructor; vm_compute; discriminate.
Defined.
